(** * zoo: canonical hashing of records and cell synchronisation

    A shallow embedding of [zoo/hash.py] and of the commands of
    [zoo/cli/cell.py] and [zoo/cli_cell.py], with the document store, the
    digest function and the snapshot files the commands work on. *)

From Stdlib Require Import List String Ascii Bool ZArith Lia Arith.
From Stdlib Require Import Sorting.Permutation Sorting.Sorted.
From Stdlib Require Import Numbers.DecimalString.
Import ListNotations.
Open Scope string_scope.
Open Scope list_scope.

(** ** hashlib.md5

    RFC 1321 on 32-bit words held in [Z], every addition reduced modulo
    2^32.  A message is a list of bytes, each a [Z] in 0..255. *)
Module MD5.
Open Scope Z_scope.

Definition w32 (x : Z) : Z := Z.land x 4294967295.

Definition rotl (x c : Z) : Z :=
  w32 (Z.lor (Z.shiftl x c) (Z.shiftr x (32 - c))).

Definition not32 (x : Z) : Z := Z.lxor x 4294967295.

Definition shifts : list Z :=
  [7; 12; 17; 22; 7; 12; 17; 22; 7; 12; 17; 22; 7; 12; 17; 22;
   5; 9; 14; 20; 5; 9; 14; 20; 5; 9; 14; 20; 5; 9; 14; 20;
   4; 11; 16; 23; 4; 11; 16; 23; 4; 11; 16; 23; 4; 11; 16; 23;
   6; 10; 15; 21; 6; 10; 15; 21; 6; 10; 15; 21; 6; 10; 15; 21].

Definition sines : list Z :=
  [3614090360; 3905402710; 606105819; 3250441966;
   4118548399; 1200080426; 2821735955; 4249261313;
   1770035416; 2336552879; 4294925233; 2304563134;
   1804603682; 4254626195; 2792965006; 1236535329;
   4129170786; 3225465664; 643717713; 3921069994;
   3593408605; 38016083; 3634488961; 3889429448;
   568446438; 3275163606; 4107603335; 1163531501;
   2850285829; 4243563512; 1735328473; 2368359562;
   4294588738; 2272392833; 1839030562; 4259657740;
   2763975236; 1272893353; 4139469664; 3200236656;
   681279174; 3936430074; 3572445317; 76029189;
   3654602809; 3873151461; 530742520; 3299628645;
   4096336452; 1126891415; 2878612391; 4237533241;
   1700485571; 2399980690; 4293915773; 2240044497;
   1873313359; 4264355552; 2734768916; 1309151649;
   4149444226; 3174756917; 718787259; 3951481745].

Record state := mkState { sa : Z; sb : Z; sc : Z; sd : Z }.

Definition init : state :=
  mkState 1732584193 4023233417 2562383102 271733878.

(** The message followed by 0x80, zero bytes up to 56 modulo 64, and the
    bit length as eight little-endian bytes. *)
Definition le_bytes (n : nat) (x : Z) : list Z :=
  map (fun i => Z.land (Z.shiftr x (8 * Z.of_nat i)) 255) (seq 0 n).

Definition pad (msg : list Z) : list Z :=
  let len := Z.of_nat (List.length msg) in
  let zeros := Z.to_nat ((55 - len) mod 64) in
  msg ++ 128 :: repeat 0 zeros ++ le_bytes 8 (Z.land (8 * len) 18446744073709551615).

Fixpoint le_word (bs : list Z) : Z :=
  match bs with
  | [] => 0
  | b :: bs' => b + 256 * le_word bs'
  end.

Fixpoint words (n : nat) (bs : list Z) : list Z :=
  match n with
  | O => []
  | S n' => le_word (firstn 4 bs) :: words n' (skipn 4 bs)
  end.

Definition round (m : list Z) (st : state) (i : nat) : state :=
  let '(mkState a b c d) := st in
  let zi := Z.of_nat i in
  let '(f, g) :=
    if (i <? 16)%nat then
      (Z.lor (Z.land b c) (Z.land (not32 b) d), zi)
    else if (i <? 32)%nat then
      (Z.lor (Z.land d b) (Z.land (not32 d) c), (5 * zi + 1) mod 16)
    else if (i <? 48)%nat then
      (Z.lxor (Z.lxor b c) d, (3 * zi + 5) mod 16)
    else
      (Z.lxor c (Z.lor b (not32 d)), (7 * zi) mod 16) in
  let f' := w32 (f + a + nth i sines 0 + nth (Z.to_nat g) m 0) in
  mkState d (w32 (b + rotl f' (nth i shifts 0))) b c.

Definition block (st : state) (chunk : list Z) : state :=
  let m := words 16 chunk in
  let st' := fold_left (round m) (seq 0 64) st in
  mkState (w32 (sa st + sa st')) (w32 (sb st + sb st'))
          (w32 (sc st + sc st')) (w32 (sd st + sd st')).

Fixpoint blocks (n : nat) (st : state) (bs : list Z) : state :=
  match n with
  | O => st
  | S n' => blocks n' (block st (firstn 64 bs)) (skipn 64 bs)
  end.

Definition digest (msg : list Z) : list Z :=
  let p := pad msg in
  let st := blocks (List.length p / 64) init p in
  le_bytes 4 (sa st) ++ le_bytes 4 (sb st) ++ le_bytes 4 (sc st) ++ le_bytes 4 (sd st).

Definition hex_digit (x : Z) : ascii :=
  nth (Z.to_nat x)
      ["0"; "1"; "2"; "3"; "4"; "5"; "6"; "7"; "8"; "9";
       "a"; "b"; "c"; "d"; "e"; "f"]%char "0"%char.

Fixpoint hex (bs : list Z) : string :=
  match bs with
  | [] => EmptyString
  | b :: bs' => String (hex_digit (b / 16)) (String (hex_digit (b mod 16)) (hex bs'))
  end.

Definition hexdigest (msg : list Z) : string := hex (digest msg).

End MD5.

(** [str.encode('utf-8')]: a [string] is kept as its UTF-8 bytes. *)
Definition encode_utf8 (s : string) : list Z :=
  map (fun b => Z.of_N (Byte.to_N b)) (list_byte_of_string s).


(** ** Records

    A document is a JSON value.  Numbers are the integers; a [VOid] is the
    ObjectId the store assigns to a document inserted without [_id]: it is
    no JSON value, and no snapshot line parses to one.  A Python dict is
    the list of its items in insertion order, with pairwise distinct keys. *)
#[warnings="-register-all"]
Inductive value : Type :=
| VNull
| VBool (b : bool)
| VNum (n : Z)
| VStr (s : string)
| VOid (n : N)
| VList (xs : list value)
| VDict (kvs : list (string * value)).

Definition record : Type := list (string * value).

Fixpoint value_eqb (a b : value) {struct a} : bool :=
  match a, b with
  | VNull, VNull => true
  | VBool x, VBool y => Bool.eqb x y
  | VNum x, VNum y => Z.eqb x y
  | VStr x, VStr y => String.eqb x y
  | VOid x, VOid y => N.eqb x y
  | VList xs, VList ys =>
      (fix all2 (xs ys : list value) {struct xs} : bool :=
         match xs, ys with
         | [], [] => true
         | x :: xs', y :: ys' => value_eqb x y && all2 xs' ys'
         | _, _ => false
         end) xs ys
  | VDict xs, VDict ys =>
      (fix all2 (xs ys : list (string * value)) {struct xs} : bool :=
         match xs, ys with
         | [], [] => true
         | (k, x) :: xs', (k', y) :: ys' =>
             String.eqb k k' && value_eqb x y && all2 xs' ys'
         | _, _ => false
         end) xs ys
  | _, _ => false
  end.

(** [k in d], [d[k]], [d.pop(k)] / [del d[k]] and [d[k] = v]. *)
Fixpoint dict_get (k : string) (d : record) : option value :=
  match d with
  | [] => None
  | (k', v) :: d' => if String.eqb k k' then Some v else dict_get k d'
  end.

Definition dict_has (k : string) (d : record) : bool :=
  match dict_get k d with Some _ => true | None => false end.

Fixpoint dict_del (k : string) (d : record) : record :=
  match d with
  | [] => []
  | (k', v) :: d' =>
      if String.eqb k k' then dict_del k d' else (k', v) :: dict_del k d'
  end.

Fixpoint dict_set (k : string) (v : value) (d : record) : record :=
  match d with
  | [] => [(k, v)]
  | (k', v') :: d' =>
      if String.eqb k k' then (k, v) :: d' else (k', v') :: dict_set k v d'
  end.

Definition keys (d : record) : list string := map fst d.

(** The keys of every mapping inside a value are pairwise distinct, as in
    any Python dict. *)
Fixpoint wf_value (v : value) : Prop :=
  match v with
  | VList xs =>
      (fix all (xs : list value) : Prop :=
         match xs with
         | [] => True
         | x :: xs' => wf_value x /\ all xs'
         end) xs
  | VDict kvs =>
      NoDup (map fst kvs) /\
      (fix all (kvs : list (string * value)) : Prop :=
         match kvs with
         | [] => True
         | kv :: kvs' => wf_value (snd kv) /\ all kvs'
         end) kvs
  | _ => True
  end.

(** ** Sorting

    [sorted(...)]: a stable sort; insertion from the right keeps equal
    items in their order of arrival. *)
Section Sort.
Context {A : Type} (leb : A -> A -> bool).

Fixpoint insert (x : A) (l : list A) : list A :=
  match l with
  | [] => [x]
  | y :: l' => if leb x y then x :: l else y :: insert x l'
  end.

Fixpoint sort (l : list A) : list A :=
  match l with
  | [] => []
  | x :: l' => insert x (sort l')
  end.
End Sort.

(** ** zoo.utils.ordered and zoo.utils.flat *)

(** The canonical ordered form: scalars, (key, value) pairs and
    sequences. *)
#[warnings="-register-all"]
Inductive canon : Type :=
| CNull
| CBool (b : bool)
| CNum (n : Z)
| CStr (s : string)
| COid (n : N)
| CPair (k : string) (v : canon)
| CSeq (xs : list canon).

Definition rank (c : canon) : nat :=
  match c with
  | CNull => 0
  | CBool _ => 1
  | CNum _ => 2
  | CStr _ => 3
  | COid _ => 4
  | CPair _ _ => 5
  | CSeq _ => 6
  end.

(** Modelled from the spec: the order by which [zoo.utils.ordered] sorts
    the elements of a sequence is not under src/ ([zoo/utils.py] is
    missing).  The spec asks for one total order over heterogeneous values,
    numbers before strings before composite values: values of different
    kinds compare by kind, values of one kind by content, pairs by key and
    then value, sequences lexicographically. *)
Fixpoint canon_compare (a b : canon) {struct a} : comparison :=
  match a, b with
  | CNull, CNull => Eq
  | CBool x, CBool y => Bool.compare x y
  | CNum x, CNum y => Z.compare x y
  | CStr x, CStr y => String.compare x y
  | COid x, COid y => N.compare x y
  | CPair k v, CPair k' v' =>
      match String.compare k k' with
      | Eq => canon_compare v v'
      | r => r
      end
  | CSeq xs, CSeq ys =>
      (fix lex (xs ys : list canon) {struct xs} : comparison :=
         match xs, ys with
         | [], [] => Eq
         | [], _ :: _ => Lt
         | _ :: _, [] => Gt
         | x :: xs', y :: ys' =>
             match canon_compare x y with
             | Eq => lex xs' ys'
             | r => r
             end
         end) xs ys
  | _, _ => Nat.compare (rank a) (rank b)
  end.

Definition canon_leb (a b : canon) : bool :=
  match canon_compare a b with Gt => false | _ => true end.

Definition key_leb (p q : string * canon) : bool := String.leb (fst p) (fst q).

(** Modelled from the spec: [zoo.utils.ordered] is not under src/.  A
    mapping becomes the sequence of its (key, canonical value) pairs sorted
    by key; a sequence becomes the sorted sequence of its canonical
    elements; a scalar is left as it is. *)
Fixpoint ordered (v : value) : canon :=
  match v with
  | VNull => CNull
  | VBool b => CBool b
  | VNum n => CNum n
  | VStr s => CStr s
  | VOid n => COid n
  | VList xs => CSeq (sort canon_leb (map ordered xs))
  | VDict kvs =>
      CSeq (map (fun p => CPair (fst p) (snd p))
                (sort key_leb (map (fun kv => (fst kv, ordered (snd kv))) kvs)))
  end.

Inductive token : Type :=
| TNull
| TBool (b : bool)
| TNum (n : Z)
| TStr (s : string)
| TOid (n : N).

(** Modelled from the spec: [zoo.utils.flat] is not under src/.  The
    canonical form is walked in order and its leaves, the keys among them,
    are emitted as one flat stream; an empty sequence emits nothing. *)
Fixpoint flat (c : canon) : list token :=
  match c with
  | CNull => [TNull]
  | CBool b => [TBool b]
  | CNum n => [TNum n]
  | CStr s => [TStr s]
  | COid n => [TOid n]
  | CPair k v => TStr k :: flat v
  | CSeq xs => flat_map flat xs
  end.

(** ** zoo/hash.py *)

(** [str(i)] of a token. *)
Definition oid_str (n : N) : string :=
  MD5.hex (rev (MD5.le_bytes 12 (Z.of_N n))).

Definition py_str (t : token) : string :=
  match t with
  | TNull => "None"
  | TBool true => "True"
  | TBool false => "False"
  | TNum n => NilZero.string_of_int (Z.to_int n)
  | TStr s => s
  | TOid n => oid_str n
  end.

(** A hashlib object is the message fed to it so far. *)
Definition md5 : list Z := [].
Definition update (h : list Z) (bs : list Z) : list Z := h ++ bs.
Definition hexdigest (h : list Z) : string := MD5.hexdigest h.

Definition hash_dict (d : value) : string :=
  let h := md5 in
  let f := flat (ordered d) in
  hexdigest (fold_left (fun h i => update h (encode_utf8 (py_str i))) f h).

Arguments hash_dict : simpl never.
Arguments MD5.hexdigest : simpl never.


(** ** json.dumps(d, sort_keys=True) and json.loads

    A line of a snapshot file is kept as the document [json.loads] reads
    back from it: the document written, the keys of every mapping in
    sorted order.  An ObjectId is not JSON serializable. *)
Fixpoint has_oid (v : value) : bool :=
  match v with
  | VOid _ => true
  | VList xs => existsb has_oid xs
  | VDict kvs => existsb (fun kv => has_oid (snd kv)) kvs
  | _ => false
  end.

Definition item_leb (p q : string * value) : bool := String.leb (fst p) (fst q).

Fixpoint sort_keys (v : value) : value :=
  match v with
  | VList xs => VList (map sort_keys xs)
  | VDict kvs =>
      VDict (sort item_leb (map (fun kv => (fst kv, sort_keys (snd kv))) kvs))
  | _ => v
  end.

Definition sort_keys_record (d : record) : record :=
  sort item_leb (map (fun kv => (fst kv, sort_keys (snd kv))) d).

(** ** Exceptions and the store

    A command runs against one cell (a collection of the store) and either
    returns or raises; what it did to the cell before raising stays
    done. *)
Inductive exn : Type :=
| KeyError (k : string)
| TypeError
| DuplicateKeyError.

Inductive result (A : Type) : Type :=
| Ok (a : A)
| Raise (e : exn).
Arguments Ok {A} a.
Arguments Raise {A} e.

Record cell : Type := mkCell {
  docs : list record;      (* the documents, in natural order *)
  indexes : list string;   (* the unique indexes created on the cell *)
  next_oid : N             (* the next ObjectId the store hands out *)
}.

Definition M (A : Type) : Type := cell -> result A * cell.

Definition ret {A} (a : A) : M A := fun c => (Ok a, c).

Definition raise {A} (e : exn) : M A := fun c => (Raise e, c).

Definition bind {A B} (m : M A) (f : A -> M B) : M B :=
  fun c =>
    match m c with
    | (Ok a, c') => f a c'
    | (Raise e, c') => (Raise e, c')
    end.

Notation "x <- m ;; k" := (bind m (fun x => k))
  (at level 61, m at next level, right associativity).
Notation "m ;;; k" := (bind m (fun _ => k))
  (at level 61, right associativity).

(** [try: m  except DuplicateKeyError: h]. *)
Definition except_duplicate {A} (m : M A) (h : M A) : M A :=
  fun c =>
    match m c with
    | (Raise DuplicateKeyError, c') => h c'
    | r => r
    end.

(** [for x in xs: acc = body(x, acc)]: the loops of the commands, their local
    counters and buffers threaded as [acc]. *)
Fixpoint for_each {A B} (xs : list A) (body : A -> B -> M B) (acc : B) : M B :=
  match xs with
  | [] => ret acc
  | x :: xs' => acc' <- body x acc ;; for_each xs' body acc'
  end.

(** [d[k]] on a dict, raising [KeyError]. *)
Definition getitem (d : record) (k : string) : M value :=
  match dict_get k d with
  | Some v => ret v
  | None => raise (KeyError k)
  end.

(** Truth value of what [find_one] returns: [None] and the empty dict
    are false. *)
Definition truthy (r : option record) : bool :=
  match r with
  | Some (_ :: _) => true
  | _ => false
  end.

(** *** The collection

    A key is a dotted path through nested documents.  In a filter and in
    a unique index a path that does not resolve reads as null, and
    documents compare field by field in order, as the store compares
    them.  Paths into arrays are outside this model. *)
Fixpoint split_dot (s cur : string) : list string :=
  match s with
  | EmptyString => [cur]
  | String c s' =>
      if Ascii.eqb c "."%char then cur :: split_dot s' EmptyString
      else split_dot s' (String.append cur (String c EmptyString))
  end.

Fixpoint lookup_path (path : list string) (v : value) : option value :=
  match path with
  | [] => Some v
  | k :: path' =>
      match v with
      | VDict kvs =>
          match dict_get k kvs with
          | Some x => lookup_path path' x
          | None => None
          end
      | _ => None
      end
  end.

Definition resolve (key : string) (d : record) : option value :=
  lookup_path (split_dot key EmptyString) (VDict d).

Definition field (key : string) (d : record) : value :=
  match resolve key d with
  | Some v => v
  | None => VNull
  end.

Definition matches (key : string) (v : value) (d : record) : bool :=
  value_eqb (field key d) v.

(** [c.find()] *)
Definition find_all : M (list record) := fun c => (Ok (docs c), c).

(** [c.find_one({key: v})] *)
Definition find_one (key : string) (v : value) : M (option record) :=
  fun c => (Ok (find (matches key v) (docs c)), c).

(** [c.find_one({key: v}, {k: 0 for k in excluded})] *)
Definition find_one_excluding (key : string) (v : value) (excluded : list string)
  : M (option record) :=
  fun c =>
    (Ok (option_map (fun d => fold_left (fun d k => dict_del k d) excluded d)
                    (find (matches key v) (docs c))), c).

(** Does [d] have the value of one of [others] at one of the unique
    [keys]? *)
Definition collides (keys : list string) (d : record) (others : list record) : bool :=
  existsb (fun key => existsb (matches key (field key d)) others) keys.

(** [c.insert_one(d)]: a document without [_id] is given an ObjectId, which
    no other document has. *)
Definition insert_one (d : record) : M unit :=
  fun c =>
    if dict_has "_id" d then
      if collides ("_id" :: indexes c) d (docs c) then (Raise DuplicateKeyError, c)
      else (Ok tt, mkCell (docs c ++ [d]) (indexes c) (next_oid c))
    else
      let d' := dict_set "_id" (VOid (next_oid c)) d in
      if collides (indexes c) d' (docs c) then (Raise DuplicateKeyError, c)
      else (Ok tt, mkCell (docs c ++ [d']) (indexes c) (N.succ (next_oid c))).

(** [c.find_one_and_replace({key: v}, d)] *)
Fixpoint replace_first (key : string) (v : value) (d : record) (ds : list record)
  : list record :=
  match ds with
  | [] => []
  | e :: ds' =>
      if matches key v e then d :: ds' else e :: replace_first key v d ds'
  end.

Fixpoint remove_first (key : string) (v : value) (ds : list record) : list record :=
  match ds with
  | [] => []
  | e :: ds' => if matches key v e then ds' else e :: remove_first key v ds'
  end.

Definition find_one_and_replace (key : string) (v : value) (d : record)
  : M (option record) :=
  fun c =>
    match find (matches key v) (docs c) with
    | None => (Ok None, c)
    | Some e =>
        if collides (indexes c) d (remove_first key v (docs c))
        then (Raise DuplicateKeyError, c)
        else (Ok (Some e),
              mkCell (replace_first key v d (docs c)) (indexes c) (next_oid c))
    end.

(** [c.index_information()]: the names of the indexes; the index on [_id]
    is always there, under the name [_id_]. *)
Definition index_information : M (list string) :=
  fun c => (Ok ("_id_" :: indexes c), c).

Fixpoint has_duplicate (vs : list value) : bool :=
  match vs with
  | [] => false
  | v :: vs' => existsb (value_eqb v) vs' || has_duplicate vs'
  end.

(** [c.create_index(key, unique=True, name=key)] *)
Definition create_index (key : string) : M unit :=
  fun c =>
    if has_duplicate (map (field key) (docs c)) then (Raise DuplicateKeyError, c)
    else (Ok tt, mkCell (docs c) (indexes c ++ [key]) (next_oid c)).

(** Modelled from the spec: [zoo.utils.deep_get] is not under src/.  The
    value at a key path of a record, and [None] when the path does not
    resolve to a value. *)
Definition deep_get (d : record) (key : string) : value :=
  match lookup_path (split_dot key EmptyString) (VDict d) with
  | Some v => v
  | None => VNull
  end.

(** ** sourmash_lib.Estimators

    The signature is opaque: an estimator is kept as its k-mer size, its
    target count and the sequences folded into it. *)
Record estimator : Type := Estimators {
  e_ksize : Z;
  e_n : Z;
  e_sequences : list string
}.

Definition add_sequence (e : estimator) (s : value) : M estimator :=
  match s with
  | VStr s => ret (Estimators (e_ksize e) (e_n e) (e_sequences e ++ [s]))
  | _ => raise TypeError
  end.

(** [{k: Estimators(ksize=k, n=n) for k in ksize}] *)
Fixpoint estimators (ksize : list Z) (n : Z) (dk : list (Z * estimator))
  : list (Z * estimator) :=
  match ksize with
  | [] => dk
  | k :: ksize' =>
      estimators ksize' n
        (if existsb (fun p => Z.eqb (fst p) k) dk
         then map (fun p => if Z.eqb (fst p) k then (k, Estimators k n []) else p) dk
         else dk ++ [(k, Estimators k n [])])
  end.

(** ** zoo/cli/cell.py *)
Module Cell.

(** [init]: [uuid4 i] is the identifier the i-th call of [uuid4()] of the
    run returns; one call is made per line. *)
Definition init_line (uuid4 : nat -> string) (d : record) (inserted : nat) : M nat :=
  let d := dict_set "_id" (VStr (uuid4 inserted)) d in
  insert_one d ;;;
  ret (S inserted).

Definition init (uuid4 : nat -> string) (file : list record) : M nat :=
  for_each file (init_line uuid4) 0.

(** [add]: the counters are [(inserted, duplicates)]. *)
Definition add_line_id (line : record) (n : nat * nat) : M (nat * nat) :=
  except_duplicate
    (insert_one line ;;; ret (S (fst n), snd n))
    (ret (fst n, S (snd n))).

Definition add_line_key (primkey : string) (d : record) (n : nat * nat)
  : M (nat * nat) :=
  r <- find_one primkey (deep_get d primkey) ;;
  if truthy r then ret (fst n, S (snd n))
  else insert_one d ;;; ret (S (fst n), snd n).

Definition add (file : list record) (primkey : string) : M (nat * nat) :=
  if String.eqb primkey "_id" then
    for_each file add_line_id (0, 0)
  else
    names <- index_information ;;
    (if existsb (String.eqb primkey) names then ret tt
     else create_index primkey) ;;;
    for_each file (add_line_key primkey) (0, 0).

(** [commit]: the loop carries the lines written to [file + '.json'] and
    the estimators; the cell is only read. *)
Definition commit_md5 (d : record) : string :=
  hash_dict (VDict (dict_del "md5" (dict_del "_id" d))).

Definition json_dumps (d : record) : M record :=
  if has_oid (VDict d) then raise TypeError else ret (sort_keys_record d).

Fixpoint add_sequences (dk : list (Z * estimator)) (d : record)
  : M (list (Z * estimator)) :=
  match dk with
  | [] => ret []
  | (k, v) :: dk' =>
      s <- getitem d "sequence" ;;
      v' <- add_sequence v s ;;
      dk'' <- add_sequences dk' d ;;
      ret ((k, v') :: dk'')
  end.

Definition commit_doc (d : record) (acc : list record * list (Z * estimator))
  : M (list record * list (Z * estimator)) :=
  _id <- getitem d "_id" ;;
  let d := dict_del "_id" d in
  let d := dict_del "md5" d in
  let d := dict_set "md5" (VStr (hash_dict (VDict d))) d in
  let d := dict_set "_id" _id d in
  line <- json_dumps d ;;
  dk <- add_sequences (snd acc) d ;;
  ret (fst acc ++ [line], dk).

Definition commit (ksize : list Z) (n : Z)
  : M (list record * list (Z * estimator)) :=
  let dk := estimators ksize n [] in
  ds <- find_all ;;
  for_each ds commit_doc ([], dk).

(** [pull]: the counters are [(nochange, replaced, inserted)]. *)
Record tally : Type := mkTally {
  nochange : nat;
  replaced : nat;
  inserted : nat
}.

Definition pull_line (d_new : record) (t : tally) : M tally :=
  _id_new <- getitem d_new "_id" ;;
  md5_new <- getitem d_new "md5" ;;
  d_old <- find_one_excluding "_id" _id_new ["_id"; "md5"] ;;
  if negb (truthy d_old) then
    insert_one d_new ;;;
    ret (mkTally (nochange t) (replaced t) (S (inserted t)))
  else
    let md5_old := hash_dict (VDict (match d_old with Some d => d | None => [] end)) in
    if value_eqb md5_new (VStr md5_old) then
      ret (mkTally (S (nochange t)) (replaced t) (inserted t))
    else
      find_one_and_replace "_id" _id_new d_new ;;;
      ret (mkTally (nochange t) (S (replaced t)) (inserted t)).

Definition pull (file : list record) : M tally :=
  for_each file pull_line (mkTally 0 0 0).

(** [diff]: [DeepDiff new old] is the delta [DeepDiff(new, old,
    ignore_order=True, verbose_level=2)] reports, a mapping that is empty
    when it finds no difference; the loop carries the lines written to
    [out]. *)
Section Diff.
Variable DeepDiff : option record -> record -> record.

Definition diff_line (old : record) (outfile : list record) : M (list record) :=
  _id <- getitem old "_id" ;;
  new <- find_one "_id" _id ;;
  let diff := DeepDiff new old in
  match diff with
  | _ :: _ => ret (outfile ++ [dict_set "_id" _id diff])
  | [] => ret outfile
  end.

Definition diff (file : list record) : M (list record) :=
  for_each file diff_line [].
End Diff.

End Cell.

(** ** zoo/cli_cell.py *)
Module CliCell.

(** [add]: the first duplicate key ends the command; the result tells
    whether loading was aborted. *)
Fixpoint add_file (i : list record) : M bool :=
  match i with
  | [] => ret false
  | line :: i' =>
      aborted <- except_duplicate (insert_one line ;;; ret false) (ret true) ;;
      if aborted then ret true else add_file i'
  end.

Fixpoint add (infile : list (list record)) : M bool :=
  match infile with
  | [] => ret false
  | i :: infile' =>
      aborted <- add_file i ;;
      if aborted then ret true else add infile'
  end.

End CliCell.

(** The comparison of two sequences inside [canon_compare]. *)
Fixpoint canon_lex (xs ys : list canon) : comparison :=
  match xs, ys with
  | [], [] => Eq
  | [], _ :: _ => Lt
  | _ :: _, [] => Gt
  | x :: xs', y :: ys' =>
      match canon_compare x y with
      | Eq => canon_lex xs' ys'
      | r => r
      end
  end.


(** ** Reordered records

    [permuted r r']: [r'] is [r] with the items of any of its mappings and
    the elements of any of its sequences, at any depth, in another
    order. *)
#[warnings="-register-all"]
Inductive permuted : value -> value -> Prop :=
| permuted_refl v : permuted v v
| permuted_list xs ys zs :
    Forall2 permuted xs ys ->
    Permutation ys zs ->
    permuted (VList xs) (VList zs)
| permuted_dict kvs kvs' kvs'' :
    Forall2 (fun p q => fst p = fst q /\ permuted (snd p) (snd q)) kvs kvs' ->
    Permutation kvs' kvs'' ->
    permuted (VDict kvs) (VDict kvs'').

(** ** Records that differ in [_id] and [md5] only *)
Definition same_content (r1 r2 : record) : Prop :=
  forall k, k <> "_id" -> k <> "md5" -> dict_get k r1 = dict_get k r2.

(** The digest [pull] derives for a stored document [d]: that of [d] as
    [find_one] returns it under the projection [{'_id': 0, 'md5': 0}]. *)
Definition project_out (excluded : list string) (d : record) : record :=
  fold_left (fun d k => dict_del k d) excluded d.

Definition pull_md5 (d : record) : string :=
  hash_dict (VDict (project_out ["_id"; "md5"] d)).

(** The documents [init] hands to the store: the lines of the file, each
    with [_id] set to the identifier drawn for it, the first of them being
    the [n]-th of the run. *)
Fixpoint assign_ids (uuid4 : nat -> string) (n : nat) (file : list record)
  : list record :=
  match file with
  | [] => []
  | d :: file' => dict_set "_id" (VStr (uuid4 n)) d :: assign_ids uuid4 (S n) file'
  end.

(** ** Sample cells and snapshots *)
Module Sample.

Definition cell_a : cell := mkCell [[("_id", VStr "a")]] [] 0.

Definition file_a_b : list record := [[("_id", VStr "a")]; [("_id", VStr "b")]].

Definition cell_genbank : cell :=
  mkCell [[("_id", VStr "a"); ("genbank", VStr "X")]] [] 0.

Definition file_genbank : list record :=
  [[("_id", VStr "a"); ("genbank", VStr "Y")]].

Definition empty_cell : cell := mkCell [] [] 0.

(** Two records without the key [genbank.a]. *)
Definition file_no_key : list record :=
  [[("_id", VStr "r"); ("host", VStr "Avian")];
   [("_id", VStr "s"); ("host", VStr "Human")]].

(** A cell whose record has a mapping for [_id], its keys not in sorted
    order. *)
Definition cell_mapping_id : cell :=
  mkCell [[("_id", VDict [("b", VNum 1); ("a", VNum 2)]); ("sequence", VStr "ACGT")]]
         [] 0.

(** A snapshot line whose [md5] is not the digest of its fields. *)
Definition file_stale_md5 : list record :=
  [[("_id", VStr "a"); ("md5", VStr "0"); ("host", VStr "Avian")]].

End Sample.

(** ** The report of diff

    What the claim asks of the output file: for the record [old] of the
    snapshot, one entry, the delta tagged with the [_id] of the record,
    when the delta is not empty, and no entry otherwise. *)
Definition delta_entry (DeepDiff : option record -> record -> record)
  (c : cell) (old : record) : list record :=
  match dict_get "_id" old with
  | None => []
  | Some _id =>
      match DeepDiff (find (matches "_id" _id) (docs c)) old with
      | [] => []
      | delta => [dict_set "_id" _id delta]
      end
  end.

(** A delta function to try [diff] on: it reports a missing live record
    and a record that is not the live one, and nothing else. *)
Definition plain_diff (new : option record) (old : record) : record :=
  match new with
  | None => [("type_changes", VDict old)]
  | Some r =>
      if value_eqb (VDict r) (VDict old) then []
      else [("values_changed", VDict old)]
  end.

(** ** Round trips *)

(** [commit] of a cell, then [pull] of the snapshot it wrote. *)
Definition commit_then_pull (ksize : list Z) (n : Z) : M Cell.tally :=
  fun c =>
    match Cell.commit ksize n c with
    | (Ok (file, _), c') => Cell.pull file c'
    | (Raise e, c') => (Raise e, c')
    end.

(** [pull] of a snapshot, twice. *)
Definition pull_twice (file : list record) : M Cell.tally :=
  fun c =>
    match Cell.pull file c with
    | (Ok _, c') => Cell.pull file c'
    | (Raise e, c') => (Raise e, c')
    end.

(** A line as [commit] writes them: it has an [_id], its [md5] is the
    digest of its other fields, and it has other fields. *)
Definition committed_line (l : record) : Prop :=
  dict_get "_id" l <> None /\
  dict_get "md5" l = Some (VStr (pull_md5 l)) /\
  project_out ["_id"; "md5"] l <> [].

(** The lines [commit] writes, record by record. *)
Definition line_of (d line : record) : Prop :=
  exists _id s,
    dict_get "_id" d = Some _id /\
    dict_get "sequence" d = Some (VStr s) /\
    dict_get "_id" line = Some (sort_keys _id) /\
    dict_get "md5" line = Some (VStr (pull_md5 d)).

(** [settled c l]: the stored record [pull] compares the line [l] with
    has fields besides [_id] and [md5], and the digest of the line. *)
Definition settled (c : cell) (l : record) : Prop :=
  exists e,
    find (matches "_id" (field "_id" l)) (docs c) = Some e /\
    project_out ["_id"; "md5"] e <> [] /\
    pull_md5 e = pull_md5 l.

(** ** The text a digest is taken of *)

(** The strings [hash_dict] feeds to the hash, joined. *)
Definition token_text (f : list token) : string :=
  String.concat "" (map py_str f).

Definition is_hex_digit (a : ascii) : bool :=
  existsb (Ascii.eqb a)
    ["0"; "1"; "2"; "3"; "4"; "5"; "6"; "7"; "8"; "9";
     "a"; "b"; "c"; "d"; "e"; "f"]%char.

(** The token of a scalar. *)
Definition scalar_token (v : value) : option token :=
  match v with
  | VNull => Some TNull
  | VBool b => Some (TBool b)
  | VNum n => Some (TNum n)
  | VStr s => Some (TStr s)
  | VOid n => Some (TOid n)
  | VList _ | VDict _ => None
  end.

(** ** Cells the store can be in

    The [_id]s of a cell are pairwise distinct, every document has one,
    and the ObjectIds among them were handed out by the store. *)
Definition cell_ok (c : cell) : Prop :=
  NoDup (map (field "_id") (docs c)) /\
  Forall (fun d => dict_has "_id" d = true) (docs c) /\
  Forall (fun d => forall n, field "_id" d = VOid n -> (n < next_oid c)%N) (docs c).

(** A record read from a file: a JSON document, with no ObjectId in
    it. *)
Definition json_record (d : record) : Prop := has_oid (VDict d) = false.

(** The keys of a line are in sorted order. *)
Definition keys_sorted (d : record) : Prop :=
  StronglySorted (fun k k' => String.leb k k' = true) (keys d).

(** The sequences of the records of a cell, in their order. *)
Definition sequences_of (ds : list record) (ss : list string) : Prop :=
  Forall2 (fun d s => dict_get "sequence" d = Some (VStr s)) ds ss.

(** [fed ds p p']: the estimator of [p'] is the one of [p] with the
    sequences of the records [ds] folded into it, in their order. *)
Definition fed (ds : list record) (p p' : Z * estimator) : Prop :=
  fst p' = fst p /\
  e_ksize (snd p') = e_ksize (snd p) /\
  e_n (snd p') = e_n (snd p) /\
  exists ss, sequences_of ds ss /\
             e_sequences (snd p') = e_sequences (snd p) ++ ss.

(** An estimator as [commit] makes it, for the k-mer size it is kept
    under. *)
Definition fresh_estimator (n : Z) (p : Z * estimator) : Prop :=
  e_ksize (snd p) = fst p /\ e_n (snd p) = n /\ e_sequences (snd p) = [].

(** ** zoo/cli_cell.py, commit

    [json.dumps(i)] keeps the keys of a record in their order: a line is
    the record as it is stored. *)
Module CliCellDump.

Definition commit_doc (i : record) (outfile : list record) : M (list record) :=
  if has_oid (VDict i) then raise TypeError else ret (outfile ++ [i]).

Definition commit : M (list record) :=
  ds <- find_all ;;
  for_each ds commit_doc [].

End CliCellDump.

(** ** zoo/cli/cell.py, drop and status *)
Module CellAdmin.

(** [abort_if_false]: the command is not run when the confirmation is
    declined. *)
Definition abort_if_false {A} (value : bool) (command : M A)
  : cell -> option (result A * cell) :=
  fun c => if value then Some (command c) else None.

(** [drop]: [c.drop()] takes the records and the indexes of the cell. *)
Definition drop : M unit :=
  fun c => (Ok tt, mkCell [] [] (next_oid c)).

(** [status]: [c.count()] and, with [--example], [c.find_one()] written
    with [json.dumps]. *)
Definition status (example : bool) : M (nat * option record) :=
  fun c =>
    let count := List.length (docs c) in
    if example then
      match docs c with
      | [] => (Ok (count, None), c)
      | d :: _ =>
          if has_oid (VDict d) then (Raise TypeError, c)
          else (Ok (count, Some d), c)
      end
    else (Ok (count, None), c).

End CellAdmin.

(** Two entries of a mapping with the same key and the same rendered
    leaves. *)
Definition same_strings (p q : string * canon) : Prop :=
  fst p = fst q /\ map py_str (flat (snd p)) = map py_str (flat (snd q)).

(** A line of the snapshot against the record it was written for. *)
Definition written_for (d line : record) : Prop :=
  keys_sorted line /\
  (forall k, k <> "md5" -> dict_get k line = option_map sort_keys (dict_get k d)) /\
  dict_get "md5" line = Some (VStr (Cell.commit_md5 d)).

(* ================================================================== *)
Example md5_empty : MD5.hexdigest (encode_utf8 "") = "d41d8cd98f00b204e9800998ecf8427e".
Proof. vm_compute. reflexivity. Qed.

Example md5_abc : MD5.hexdigest (encode_utf8 "abc") = "900150983cd24fb0d6963f7d28e17f72".
Proof. vm_compute. reflexivity. Qed.

Example md5_two_blocks :
  MD5.hexdigest (repeat 97%Z 64) = "014842d480b571495a4a0363793f7367".
Proof. vm_compute. reflexivity. Qed.

Example md5_56 :
  MD5.hexdigest (repeat 97%Z 56) = "3b0c8ac703f828b04c6c197006d17218".
Proof. vm_compute. reflexivity. Qed.


(** * Properties *)

(** ** Induction over nested values *)
Lemma value_ind' (P : value -> Prop)
  (Hnull : P VNull) (Hbool : forall b, P (VBool b)) (Hnum : forall n, P (VNum n))
  (Hstr : forall s, P (VStr s)) (Hoid : forall n, P (VOid n))
  (Hlist : forall xs, Forall P xs -> P (VList xs))
  (Hdict : forall kvs, Forall (fun kv => P (snd kv)) kvs -> P (VDict kvs)) :
  forall v, P v.
Proof.
  fix IH 1. intros [ | b | n | s | n | xs | kvs].
  - exact Hnull.
  - apply Hbool.
  - apply Hnum.
  - apply Hstr.
  - apply Hoid.
  - apply Hlist. induction xs as [|x xs IHxs]; constructor; [apply IH | apply IHxs].
  - apply Hdict. induction kvs as [|kv kvs IHkvs]; constructor; [apply IH | apply IHkvs].
Qed.

Lemma canon_ind' (P : canon -> Prop)
  (Hnull : P CNull) (Hbool : forall b, P (CBool b)) (Hnum : forall n, P (CNum n))
  (Hstr : forall s, P (CStr s)) (Hoid : forall n, P (COid n))
  (Hpair : forall k v, P v -> P (CPair k v))
  (Hseq : forall xs, Forall P xs -> P (CSeq xs)) :
  forall c, P c.
Proof.
  fix IH 1. intros [ | b | n | s | n | k v | xs].
  - exact Hnull.
  - apply Hbool.
  - apply Hnum.
  - apply Hstr.
  - apply Hoid.
  - apply Hpair, IH.
  - apply Hseq. induction xs as [|x xs IHxs]; constructor; [apply IH | apply IHxs].
Qed.

(** ** The stable sort *)
Section SortFacts.
Context {A : Type} (leb : A -> A -> bool).
Hypothesis leb_total : forall x y, leb x y = true \/ leb y x = true.
Hypothesis leb_trans : forall x y z, leb x y = true -> leb y z = true -> leb x z = true.

Let R (x y : A) : Prop := leb x y = true.

Lemma insert_perm x l : Permutation (insert leb x l) (x :: l).
Proof.
  induction l as [|y l IH]; simpl; [reflexivity|].
  destruct (leb x y); [reflexivity|].
  rewrite IH. apply perm_swap.
Qed.

Lemma sort_perm l : Permutation (sort leb l) l.
Proof.
  induction l as [|x l IH]; simpl; [constructor|].
  rewrite insert_perm. now constructor.
Qed.

Lemma insert_sorted x l :
  StronglySorted R l -> StronglySorted R (insert leb x l).
Proof.
  induction 1 as [|y l Hs IH Hy]; simpl.
  - repeat constructor.
  - destruct (leb x y) eqn:E.
    + constructor; [now constructor|].
      constructor; [exact E|].
      eapply Forall_impl; [|exact Hy]. intros z Hz. eapply leb_trans; eauto.
    + constructor; [exact IH|].
      eapply Permutation_Forall; [symmetry; apply insert_perm|].
      constructor; [|exact Hy].
      destruct (leb_total x y) as [H|H]; [congruence|exact H].
Qed.

Lemma sort_sorted l : StronglySorted R (sort leb l).
Proof.
  induction l; simpl; [constructor|]. now apply insert_sorted.
Qed.

Lemma sorted_perm_unique l1 :
  forall l2,
    StronglySorted R l1 -> StronglySorted R l2 -> Permutation l1 l2 ->
    (forall x y, In x l1 -> In y l1 -> R x y -> R y x -> x = y) ->
    l1 = l2.
Proof.
  induction l1 as [|a l1 IH]; intros l2 S1 S2 HP Hanti.
  - apply Permutation_nil in HP. now subst.
  - destruct l2 as [|b l2].
    { symmetry in HP. apply Permutation_nil in HP. discriminate. }
    inversion S1 as [|? ? S1' F1]; subst.
    inversion S2 as [|? ? S2' F2]; subst.
    assert (Hab : a = b).
    { assert (Ia : In a (b :: l2)) by (eapply Permutation_in; [exact HP|now left]).
      assert (Ib : In b (a :: l1))
        by (eapply Permutation_in; [symmetry; exact HP|now left]).
      destruct Ia as [->|Ia]; [reflexivity|].
      destruct Ib as [->|Ib]; [reflexivity|].
      apply Hanti.
      - now left.
      - now right.
      - rewrite Forall_forall in F1. now apply F1.
      - rewrite Forall_forall in F2. now apply F2. }
    subst b. f_equal.
    apply IH; auto.
    + eapply Permutation_cons_inv; exact HP.
    + intros x y Hx Hy. apply Hanti; now right.
Qed.

Lemma sort_permutation l1 l2 :
  Permutation l1 l2 ->
  (forall x y, In x l1 -> In y l1 -> R x y -> R y x -> x = y) ->
  sort leb l1 = sort leb l2.
Proof.
  intros HP Hanti.
  apply sorted_perm_unique; try apply sort_sorted.
  - rewrite !sort_perm. exact HP.
  - intros x y Hx Hy. apply Hanti; eapply Permutation_in; eauto using sort_perm.
Qed.
End SortFacts.

(** ** The order on canonical forms is total *)
Lemma ascii_compare_refl a : Ascii.compare a a = Eq.
Proof. apply N.compare_refl. Qed.

Lemma ascii_compare_trans a b c :
  Ascii.compare a b = Lt -> Ascii.compare b c = Lt -> Ascii.compare a c = Lt.
Proof. unfold Ascii.compare. rewrite !N.compare_lt_iff. lia. Qed.

Lemma string_compare_refl s : String.compare s s = Eq.
Proof. induction s; simpl; [reflexivity|]. now rewrite ascii_compare_refl. Qed.

Lemma string_compare_trans :
  forall a b c,
    String.compare a b = Lt -> String.compare b c = Lt -> String.compare a c = Lt.
Proof.
  induction a as [|x a IH]; destruct b as [|y b], c as [|z c]; simpl;
    try congruence.
  destruct (Ascii.compare x y) eqn:E1; try discriminate;
    destruct (Ascii.compare y z) eqn:E2; try discriminate; intros H1 H2.
  - apply Ascii.compare_eq_iff in E1, E2. subst.
    rewrite ascii_compare_refl. eauto.
  - apply Ascii.compare_eq_iff in E1. subst. now rewrite E2.
  - apply Ascii.compare_eq_iff in E2. subst. now rewrite E1.
  - now rewrite (ascii_compare_trans _ _ _ E1 E2).
Qed.

Lemma string_leb_trans a b c :
  String.leb a b = true -> String.leb b c = true -> String.leb a c = true.
Proof.
  unfold String.leb.
  destruct (String.compare a b) eqn:E1; try discriminate;
    destruct (String.compare b c) eqn:E2; try discriminate; intros _ _.
  - apply String.compare_eq_iff in E1, E2. subst. now rewrite string_compare_refl.
  - apply String.compare_eq_iff in E1. subst. now rewrite E2.
  - apply String.compare_eq_iff in E2. subst. now rewrite E1.
  - now rewrite (string_compare_trans _ _ _ E1 E2).
Qed.

Lemma canon_compare_seq xs ys :
  canon_compare (CSeq xs) (CSeq ys) = canon_lex xs ys.
Proof.
  destruct xs, ys; reflexivity.
Qed.

Lemma canon_lex_refl xs :
  Forall (fun x => canon_compare x x = Eq) xs -> canon_lex xs xs = Eq.
Proof. induction 1 as [|x xs Hx _ IH]; simpl; [reflexivity|]. now rewrite Hx. Qed.

Lemma canon_compare_refl : forall a, canon_compare a a = Eq.
Proof.
  induction a as [ | b | n | s | n | k v IH | xs IH] using canon_ind'; simpl.
  - reflexivity.
  - now destruct b.
  - apply Z.compare_refl.
  - apply string_compare_refl.
  - apply N.compare_refl.
  - now rewrite string_compare_refl.
  - change (canon_compare (CSeq xs) (CSeq xs) = Eq).
    rewrite canon_compare_seq. now apply canon_lex_refl.
Qed.

Lemma canon_compare_eq : forall a b, canon_compare a b = Eq -> a = b.
Proof.
  induction a as [ | x | x | x | x | k v IH | xs IH] using canon_ind';
    intros [ | y | y | y | y | k' v' | ys]; try (simpl; discriminate).
  - reflexivity.
  - simpl. destruct x, y; simpl; congruence.
  - simpl. intros H. apply Z.compare_eq in H. congruence.
  - simpl. intros H. apply String.compare_eq_iff in H. congruence.
  - simpl. intros H. apply N.compare_eq in H. congruence.
  - simpl. destruct (String.compare k k') eqn:E; try discriminate.
    intros H. apply String.compare_eq_iff in E. apply IH in H. congruence.
  - rewrite canon_compare_seq. intros H. f_equal.
    revert ys H. induction IH as [|x xs Hx _ IHxs]; intros [|y ys]; simpl;
      try discriminate; [reflexivity|].
    destruct (canon_compare x y) eqn:E; try discriminate.
    intros H. apply Hx in E. apply IHxs in H. congruence.
Qed.

Lemma canon_compare_opp : forall a b, canon_compare b a = CompOpp (canon_compare a b).
Proof.
  induction a as [ | x | x | x | x | k v IH | xs IH] using canon_ind';
    intros [ | y | y | y | y | k' v' | ys]; try reflexivity.
  - simpl. now destruct x, y.
  - simpl. apply Z.compare_antisym.
  - simpl. apply String.compare_antisym.
  - simpl. apply N.compare_antisym.
  - simpl. rewrite (String.compare_antisym k k').
    destruct (String.compare k' k); simpl; auto.
  - rewrite !canon_compare_seq.
    revert ys. induction IH as [|x xs Hx _ IHxs]; intros [|y ys]; simpl;
      try reflexivity.
    rewrite (Hx y). destruct (canon_compare x y); simpl; auto.
Qed.

Lemma canon_compare_trans :
  forall a b c,
    canon_compare a b = Lt -> canon_compare b c = Lt -> canon_compare a c = Lt.
Proof.
  induction a as [ | x | x | x | x | k v IH | xs IH] using canon_ind';
    intros [ | y | y | y | y | k' v' | ys] [ | z | z | z | z | k'' v'' | zs];
    try (simpl; congruence).
  - simpl. destruct x, y, z; simpl; congruence.
  - simpl. rewrite !Z.compare_lt_iff. lia.
  - simpl. apply string_compare_trans.
  - simpl. rewrite !N.compare_lt_iff. lia.
  - simpl.
    destruct (String.compare k k') eqn:E1; try discriminate;
      destruct (String.compare k' k'') eqn:E2; try discriminate; intros H1 H2.
    + apply String.compare_eq_iff in E1, E2. subst.
      rewrite string_compare_refl. eauto.
    + apply String.compare_eq_iff in E1. subst. now rewrite E2.
    + apply String.compare_eq_iff in E2. subst. now rewrite E1.
    + now rewrite (string_compare_trans _ _ _ E1 E2).
  - rewrite !canon_compare_seq.
    revert ys zs. induction IH as [|x xs Hx _ IHxs]; intros [|y ys] [|z zs]; simpl;
      try congruence.
    destruct (canon_compare x y) eqn:E1; try discriminate;
      destruct (canon_compare y z) eqn:E2; try discriminate; intros H1 H2.
    + apply canon_compare_eq in E1, E2. subst.
      rewrite canon_compare_refl. eauto.
    + apply canon_compare_eq in E1. subst. now rewrite E2.
    + apply canon_compare_eq in E2. subst. now rewrite E1.
    + now rewrite (Hx _ _ E1 E2).
Qed.

Lemma canon_leb_total a b : canon_leb a b = true \/ canon_leb b a = true.
Proof.
  unfold canon_leb. rewrite (canon_compare_opp a b).
  destruct (canon_compare a b); simpl; auto.
Qed.

Lemma canon_leb_trans a b c :
  canon_leb a b = true -> canon_leb b c = true -> canon_leb a c = true.
Proof.
  unfold canon_leb.
  destruct (canon_compare a b) eqn:E1; try discriminate;
    destruct (canon_compare b c) eqn:E2; try discriminate; intros _ _.
  - apply canon_compare_eq in E1, E2. subst. now rewrite canon_compare_refl.
  - apply canon_compare_eq in E1. subst. now rewrite E2.
  - apply canon_compare_eq in E2. subst. now rewrite E1.
  - now rewrite (canon_compare_trans _ _ _ E1 E2).
Qed.

Lemma canon_leb_antisym a b :
  canon_leb a b = true -> canon_leb b a = true -> a = b.
Proof.
  unfold canon_leb. rewrite (canon_compare_opp a b).
  destruct (canon_compare a b) eqn:E; simpl; try discriminate.
  intros _ _. now apply canon_compare_eq.
Qed.

(** ** Order independence of the digest *)
Lemma wf_value_list xs : wf_value (VList xs) <-> Forall wf_value xs.
Proof.
  induction xs as [|x xs IH]; simpl in *.
  - split; auto.
  - rewrite Forall_cons_iff. tauto.
Qed.

Lemma wf_value_dict kvs :
  wf_value (VDict kvs) <->
  NoDup (map fst kvs) /\ Forall (fun kv => wf_value (snd kv)) kvs.
Proof.
  simpl. apply and_iff_compat_l.
  induction kvs as [|kv kvs IH]; simpl in *.
  - split; auto.
  - rewrite Forall_cons_iff. tauto.
Qed.

Lemma NoDup_fst_inj {A B} (l : list (A * B)) x y :
  NoDup (map fst l) -> In x l -> In y l -> fst x = fst y -> x = y.
Proof.
  induction l as [|a l IH]; simpl; [tauto|].
  intros Hnd Hx Hy Hk. inversion Hnd as [|? ? Hn Hnd']; subst.
  destruct Hx as [->|Hx], Hy as [->|Hy]; auto.
  - exfalso. apply Hn. rewrite Hk. now apply in_map.
  - exfalso. apply Hn. rewrite <- Hk. now apply in_map.
Qed.

Lemma key_leb_total (p q : string * canon) : key_leb p q = true \/ key_leb q p = true.
Proof. apply String.leb_total. Qed.

Lemma key_leb_trans (p q r : string * canon) :
  key_leb p q = true -> key_leb q r = true -> key_leb p r = true.
Proof. apply string_leb_trans. Qed.

Lemma sort_key_permutation (l1 l2 : list (string * canon)) :
  NoDup (map fst l1) -> Permutation l1 l2 -> sort key_leb l1 = sort key_leb l2.
Proof.
  intros Hnd HP.
  apply sort_permutation.
  - exact key_leb_total.
  - exact key_leb_trans.
  - exact HP.
  - intros x y Hx Hy H1 H2. eapply NoDup_fst_inj; eauto.
    now apply String.leb_antisym.
Qed.

Lemma sort_canon_permutation (l1 l2 : list canon) :
  Permutation l1 l2 -> sort canon_leb l1 = sort canon_leb l2.
Proof.
  intros HP.
  apply sort_permutation.
  - exact canon_leb_total.
  - exact canon_leb_trans.
  - exact HP.
  - intros x y _ _. apply canon_leb_antisym.
Qed.

Lemma ordered_permuted :
  forall r r', wf_value r -> permuted r r' -> ordered r = ordered r'.
Proof.
  induction r as [ | b | n | s | n | xs IH | kvs IH] using value_ind';
    intros r' Hwf Hp;
    inversion Hp as [v | xs0 ys zs Hf HP | kvs0 kvs' kvs'' Hf HP]; subst;
    try reflexivity.
  - (* sequences *)
    simpl. f_equal.
    apply wf_value_list in Hwf.
    assert (E : map ordered xs = map ordered ys).
    { clear Hp HP. revert IH Hwf.
      induction Hf as [|x y xs ys Hxy _ IHf]; intros IH Hwf; [reflexivity|].
      inversion IH; inversion Hwf; subst. simpl. f_equal; auto. }
    rewrite E. apply sort_canon_permutation. now apply Permutation_map.
  - (* mappings *)
    simpl. do 2 f_equal.
    apply wf_value_dict in Hwf. destruct Hwf as [Hnd Hwf].
    set (f := fun kv : string * value => (fst kv, ordered (snd kv))).
    assert (E : map f kvs = map f kvs').
    { clear Hp HP Hnd. revert IH Hwf.
      induction Hf as [|x y xs ys [Hk Hxy] _ IHf]; intros IH Hwf; [reflexivity|].
      inversion IH; inversion Hwf; subst. simpl. f_equal; auto.
      unfold f. rewrite Hk. f_equal. auto. }
    apply sort_key_permutation.
    + unfold f. rewrite map_map. simpl. exact Hnd.
    + rewrite E. now apply Permutation_map.
Qed.

(** C1. Order independence: a record and any reordering of it, of the
    items of its mappings and of the elements of its sequences at any
    depth, have the same digest. *)
Theorem hash_dict_order_independent :
  forall r r', wf_value r -> permuted r r' -> hash_dict r = hash_dict r'.
Proof.
  intros r r' Hwf Hp. unfold hash_dict.
  now rewrite (ordered_permuted r r' Hwf Hp).
Qed.

Lemma hash_dict_order_independent_witness :
  let r := VDict [("a", VNum 1);
                  ("b", VDict [("x", VNum 2); ("y", VList [VNum 3; VStr "s"; VNull])])] in
  let r' := VDict [("b", VDict [("y", VList [VNull; VNum 3; VStr "s"]); ("x", VNum 2)]);
                   ("a", VNum 1)] in
  wf_value r /\ permuted r r' /\ hash_dict r = hash_dict r'.
Proof.
  intros r r'.
  assert (Hwf : wf_value r).
  { simpl. repeat split; repeat constructor; simpl; intuition discriminate. }
  assert (Hp : permuted r r').
  { apply permuted_dict
      with (kvs' := [("a", VNum 1);
                     ("b", VDict [("y", VList [VNull; VNum 3; VStr "s"]); ("x", VNum 2)])]);
      [|apply perm_swap].
    constructor; [split; [reflexivity|apply permuted_refl]|].
    constructor; [split; [reflexivity|]|constructor].
    apply permuted_dict
      with (kvs' := [("x", VNum 2); ("y", VList [VNull; VNum 3; VStr "s"])]);
      [|apply perm_swap].
    constructor; [split; [reflexivity|apply permuted_refl]|].
    constructor; [split; [reflexivity|]|constructor].
    apply permuted_list with (ys := [VNum 3; VStr "s"; VNull]).
    - repeat (constructor; [apply permuted_refl|]). constructor.
    - apply Permutation_sym, (Permutation_cons_append [VNum 3; VStr "s"] VNull). }
  split; [exact Hwf|]. split; [exact Hp|].
  exact (hash_dict_order_independent r r' Hwf Hp).
Defined.

(** ** Dictionaries *)
Lemma dict_get_del k k' d :
  dict_get k (dict_del k' d) = if String.eqb k k' then None else dict_get k d.
Proof.
  induction d as [|[k0 v0] d IH]; simpl.
  - now destruct (String.eqb k k').
  - destruct (String.eqb k' k0) eqn:E1.
    + apply String.eqb_eq in E1. subst k0. rewrite IH.
      destruct (String.eqb k k'); reflexivity.
    + simpl. rewrite IH.
      destruct (String.eqb k k0) eqn:E2; [|reflexivity].
      apply String.eqb_eq in E2. subst k0.
      now rewrite String.eqb_sym, E1.
Qed.

Lemma dict_del_incl k d x : In x (dict_del k d) -> In x d.
Proof.
  induction d as [|[k0 v0] d IH]; simpl; [tauto|].
  destruct (String.eqb k k0); simpl; tauto.
Qed.

Lemma dict_del_NoDup k d : NoDup (keys d) -> NoDup (keys (dict_del k d)).
Proof.
  unfold keys. induction d as [|[k0 v0] d IH]; simpl; [auto|].
  intros H. inversion H as [|? ? Hn Hd]; subst.
  destruct (String.eqb k k0); simpl; auto.
  constructor; auto.
  intros Hin. apply Hn. apply in_map_iff in Hin. destruct Hin as [x [Hx Hin]].
  apply in_map_iff. exists x. split; [exact Hx|]. eapply dict_del_incl; eauto.
Qed.

Lemma dict_get_In k v d : dict_get k d = Some v -> In (k, v) d.
Proof.
  induction d as [|[k0 v0] d IH]; simpl; [discriminate|].
  destruct (String.eqb k k0) eqn:E.
  - apply String.eqb_eq in E. intros H. left. congruence.
  - auto.
Qed.

Lemma In_dict_get k v d : NoDup (keys d) -> In (k, v) d -> dict_get k d = Some v.
Proof.
  unfold keys. induction d as [|[k0 v0] d IH]; simpl; [tauto|].
  intros H. inversion H as [|? ? Hn Hd]; subst.
  intros [E|Hin].
  - inversion E; subst. now rewrite String.eqb_refl.
  - destruct (String.eqb k k0) eqn:E; [|auto].
    apply String.eqb_eq in E. subst k0.
    exfalso. apply Hn. change k with (fst (k, v)). now apply in_map.
Qed.

Lemma NoDup_keys_NoDup (d : record) : NoDup (keys d) -> NoDup d.
Proof. apply NoDup_map_inv. Qed.

Lemma dict_ext_Permutation d1 d2 :
  NoDup (keys d1) -> NoDup (keys d2) ->
  (forall k, dict_get k d1 = dict_get k d2) -> Permutation d1 d2.
Proof.
  intros H1 H2 E.
  apply NoDup_Permutation; auto using NoDup_keys_NoDup.
  intros [k v]. split; intros Hin.
  - apply dict_get_In. rewrite <- E. now apply In_dict_get.
  - apply dict_get_In. rewrite E. now apply In_dict_get.
Qed.

Lemma ordered_dict_Permutation d1 d2 :
  NoDup (keys d1) -> Permutation d1 d2 -> ordered (VDict d1) = ordered (VDict d2).
Proof.
  intros Hnd HP. simpl. do 2 f_equal.
  apply sort_key_permutation.
  - rewrite map_map. exact Hnd.
  - now apply Permutation_map.
Qed.

Lemma hash_dict_ext d1 d2 :
  NoDup (keys d1) -> NoDup (keys d2) ->
  (forall k, dict_get k d1 = dict_get k d2) ->
  hash_dict (VDict d1) = hash_dict (VDict d2).
Proof.
  intros H1 H2 E. unfold hash_dict.
  rewrite (ordered_dict_Permutation d1 d2); auto using dict_ext_Permutation.
Qed.


Lemma dict_get_set k k' v d :
  dict_get k (dict_set k' v d) = if String.eqb k k' then Some v else dict_get k d.
Proof.
  induction d as [|[k0 v0] d IH]; simpl.
  - reflexivity.
  - destruct (String.eqb k' k0) eqn:E1; simpl.
    + apply String.eqb_eq in E1. subst k0.
      destruct (String.eqb k k'); reflexivity.
    + rewrite IH. destruct (String.eqb k k0) eqn:E2; [|reflexivity].
      apply String.eqb_eq in E2. subst k0.
      now rewrite String.eqb_sym, E1.
Qed.

Lemma string_leb_refl s : String.leb s s = true.
Proof. unfold String.leb. now rewrite string_compare_refl. Qed.

Lemma dict_get_insert k x d :
  dict_get k (insert item_leb x d) = dict_get k (x :: d).
Proof.
  induction d as [|[k0 v0] d IH]; [reflexivity|].
  destruct x as [kx vx]. unfold insert; fold (insert item_leb (kx, vx) d).
  destruct (item_leb (kx, vx) (k0, v0)) eqn:E; [reflexivity|].
  change (dict_get k ((k0, v0) :: insert item_leb (kx, vx) d))
    with (if String.eqb k k0 then Some v0
          else dict_get k (insert item_leb (kx, vx) d)).
  rewrite IH. simpl.
  destruct (String.eqb k k0) eqn:E0; [|reflexivity].
  destruct (String.eqb k kx) eqn:Ex; [|reflexivity].
  apply String.eqb_eq in E0, Ex. subst.
  unfold item_leb in E. simpl in E. now rewrite string_leb_refl in E.
Qed.

Lemma dict_get_sort k d : dict_get k (sort item_leb d) = dict_get k d.
Proof.
  induction d as [|[k0 v0] d IH]; [reflexivity|].
  simpl sort. rewrite dict_get_insert. simpl. now rewrite IH.
Qed.

Lemma dict_get_map k (f : value -> value) d :
  dict_get k (map (fun kv => (fst kv, f (snd kv))) d) = option_map f (dict_get k d).
Proof.
  induction d as [|[k0 v0] d IH]; [reflexivity|].
  simpl. destruct (String.eqb k k0); auto.
Qed.

Lemma dict_get_sort_keys_record k d :
  dict_get k (sort_keys_record d) = option_map sort_keys (dict_get k d).
Proof. unfold sort_keys_record. now rewrite dict_get_sort, dict_get_map. Qed.

(** ** The digest leaves [_id] and [md5] out *)
Lemma project_out_id_md5 d :
  project_out ["_id"; "md5"] d = dict_del "md5" (dict_del "_id" d).
Proof. reflexivity. Qed.

Lemma commit_md5_pull_md5 d : Cell.commit_md5 d = pull_md5 d.
Proof. reflexivity. Qed.

Lemma dict_get_stripped k d :
  dict_get k (dict_del "md5" (dict_del "_id" d)) =
  if String.eqb k "md5" then None
  else if String.eqb k "_id" then None else dict_get k d.
Proof. now rewrite !dict_get_del. Qed.

(** What [commit] writes for a document: one more line, which carries the
    document's [_id] and, under [md5], the digest of the document without
    [_id] and [md5]. *)
Lemma commit_doc_line d acc c lines dk c' :
  Cell.commit_doc d acc c = (Ok (lines, dk), c') ->
  exists line _id,
    lines = fst acc ++ [line] /\ c' = c /\
    dict_get "_id" d = Some _id /\
    line = sort_keys_record
             (dict_set "_id" _id
                (dict_set "md5" (VStr (Cell.commit_md5 d))
                   (dict_del "md5" (dict_del "_id" d)))) /\
    dict_get "md5" line = Some (VStr (Cell.commit_md5 d)) /\
    dict_get "_id" line = Some (sort_keys _id).
Proof.
  unfold Cell.commit_doc, bind, getitem.
  destruct (dict_get "_id" d) as [_id|] eqn:Eid; [|discriminate].
  unfold ret at 1. unfold Cell.json_dumps.
  set (d4 := dict_set "_id" _id _).
  destruct (has_oid (VDict d4)) eqn:Eo; [discriminate|].
  unfold ret at 1.
  destruct (Cell.add_sequences (snd acc) d4 c) as [[dk'|e] c''] eqn:Es;
    [|discriminate].
  unfold ret. intros H. inversion H; subst.
  exists (sort_keys_record d4), _id.
  assert (Hc : c' = c).
  { clear - Es. revert dk c' Es. generalize (snd acc) as l.
    induction l as [|[k v] l IH]; simpl; intros dk c' Es.
    - inversion Es. reflexivity.
    - unfold bind, getitem in Es.
      destruct (dict_get "sequence" d4); [|discriminate].
      unfold ret at 1 in Es. unfold add_sequence in Es.
      destruct v0; try discriminate. unfold ret at 1 in Es.
      destruct (Cell.add_sequences l d4 c) as [[dk'|e] c''] eqn:El; [|discriminate].
      inversion Es; subst. eauto. }
  repeat split; auto.
  - rewrite dict_get_sort_keys_record. unfold d4.
    rewrite !dict_get_set. simpl. reflexivity.
  - rewrite dict_get_sort_keys_record. unfold d4.
    rewrite !dict_get_set. simpl. reflexivity.
Qed.

(** What [pull] derives for a stored document: when the store holds a
    document [d] under the incoming [_id], and [d] has a field besides
    [_id] and [md5], the incoming [md5] is compared with the digest of [d]
    without [_id] and [md5]. *)
Lemma pull_line_found d_new t c _id md5_new d :
  dict_get "_id" d_new = Some _id ->
  dict_get "md5" d_new = Some md5_new ->
  find (matches "_id" _id) (docs c) = Some d ->
  project_out ["_id"; "md5"] d <> [] ->
  Cell.pull_line d_new t c =
  if value_eqb md5_new (VStr (pull_md5 d)) then
    (Ok (Cell.mkTally (S (Cell.nochange t)) (Cell.replaced t) (Cell.inserted t)), c)
  else
    (find_one_and_replace "_id" _id d_new ;;;
     ret (Cell.mkTally (Cell.nochange t) (S (Cell.replaced t)) (Cell.inserted t))) c.
Proof.
  intros Hid Hmd5 Hfind Hne.
  unfold Cell.pull_line, bind, getitem. rewrite Hid, Hmd5. unfold ret at 1 2.
  unfold find_one_excluding. rewrite Hfind. cbn [option_map].
  change (fold_left (fun d1 k => dict_del k d1) ["_id"; "md5"] d)
    with (project_out ["_id"; "md5"] d).
  unfold pull_md5.
  destruct (project_out ["_id"; "md5"] d) as [|kv rest]; [congruence|].
  cbn [truthy negb]. destruct (value_eqb _ _); reflexivity.
Qed.

Lemma dict_del_set_same k v d : dict_del k (dict_set k v d) = dict_del k d.
Proof.
  induction d as [|[k0 v0] d IH]; simpl.
  - now rewrite String.eqb_refl.
  - destruct (String.eqb k k0) eqn:E; simpl.
    + now rewrite String.eqb_refl.
    + now rewrite E, IH.
Qed.

Lemma dict_del_set_other k k' v d :
  k <> k' -> dict_del k (dict_set k' v d) = dict_set k' v (dict_del k d).
Proof.
  intros Hk. apply String.eqb_neq in Hk.
  induction d as [|[k0 v0] d IH]; simpl.
  - now rewrite Hk.
  - destruct (String.eqb k' k0) eqn:E'; simpl.
    + apply String.eqb_eq in E'. subst k0. rewrite Hk. simpl.
      now rewrite String.eqb_refl.
    + destruct (String.eqb k k0) eqn:E; simpl; [exact IH|].
      now rewrite E', IH.
Qed.

Lemma strip_set_id_md5 d j m :
  dict_del "md5" (dict_del "_id" (dict_set "_id" j (dict_set "md5" m d))) =
  dict_del "md5" (dict_del "_id" d).
Proof.
  rewrite dict_del_set_same, dict_del_set_other by discriminate.
  apply dict_del_set_same.
Qed.

(** C2. Exclusion: two records that differ only in the value of [_id] and
    in having an [md5] field get the same digest, in [commit] and in the
    rederivation [pull] makes: a record with any [_id] and the record
    with another [_id] and a stale [md5], and any two records with the
    same other fields, in whatever order. *)
Theorem digest_excludes_id_and_md5 :
  (forall d i j m,
     Cell.commit_md5 (dict_set "_id" i d) =
     Cell.commit_md5 (dict_set "_id" j (dict_set "md5" m d)) /\
     pull_md5 (dict_set "_id" i d) =
     pull_md5 (dict_set "_id" j (dict_set "md5" m d))) /\
  (forall r1 r2,
     NoDup (keys r1) -> NoDup (keys r2) -> same_content r1 r2 ->
     Cell.commit_md5 r1 = Cell.commit_md5 r2 /\ pull_md5 r1 = pull_md5 r2).
Proof.
  split.
  - intros d i j m. unfold pull_md5, Cell.commit_md5.
    rewrite !project_out_id_md5, strip_set_id_md5, dict_del_set_same. auto.
  - intros r1 r2 H1 H2 Hs.
    assert (E : Cell.commit_md5 r1 = Cell.commit_md5 r2).
    { unfold Cell.commit_md5. apply hash_dict_ext.
      - now do 2 apply dict_del_NoDup.
      - now do 2 apply dict_del_NoDup.
      - intros k. rewrite !dict_get_stripped.
        destruct (String.eqb k "md5") eqn:Em; [reflexivity|].
        destruct (String.eqb k "_id") eqn:Ei; [reflexivity|].
        apply Hs; now apply String.eqb_neq. }
    split; [exact E|exact E].
Qed.

Lemma digest_excludes_id_and_md5_witness :
  let r1 := [("_id", VStr "a"); ("x", VNum 1); ("sequence", VStr "ACGT")] in
  let r2 := [("md5", VStr "stale"); ("sequence", VStr "ACGT"); ("x", VNum 1);
             ("_id", VStr "b")] in
  Cell.commit_md5 r1 = Cell.commit_md5 r2 /\ pull_md5 r1 = pull_md5 r2.
Proof.
  intros r1 r2.
  apply (proj2 digest_excludes_id_and_md5 r1 r2).
  - repeat constructor; simpl; intuition discriminate.
  - repeat constructor; simpl; intuition discriminate.
  - intros k Hi Hm. apply String.eqb_neq in Hi, Hm. simpl. rewrite Hi, Hm.
    destruct (String.eqb k "x") eqn:Ex, (String.eqb k "sequence") eqn:Es;
      try reflexivity.
    apply String.eqb_eq in Ex, Es. congruence.
Defined.

(** ** Equality of documents *)
Lemma value_eqb_refl : forall v, value_eqb v v = true.
Proof.
  induction v as [ | b | n | s | n | xs IH | kvs IH] using value_ind'; simpl.
  - reflexivity.
  - now destruct b.
  - apply Z.eqb_refl.
  - apply String.eqb_refl.
  - apply N.eqb_refl.
  - induction IH as [|x xs Hx _ IHxs]; [reflexivity|]. now rewrite Hx.
  - induction IH as [|[k x] xs Hx _ IHxs]; [reflexivity|].
    simpl in Hx. now rewrite String.eqb_refl, Hx.
Qed.

Lemma value_eqb_eq : forall a b, value_eqb a b = true -> a = b.
Proof.
  induction a as [ | x | x | x | x | xs IH | kvs IH] using value_ind';
    intros [ | y | y | y | y | ys | kvs']; simpl; try discriminate.
  - reflexivity.
  - intros H. apply Bool.eqb_prop in H. congruence.
  - intros H. apply Z.eqb_eq in H. congruence.
  - intros H. apply String.eqb_eq in H. congruence.
  - intros H. apply N.eqb_eq in H. congruence.
  - intros H. f_equal. revert ys H.
    induction IH as [|x xs Hx _ IHxs]; intros [|y ys]; try discriminate;
      [reflexivity|].
    intros H. apply andb_prop in H. destruct H as [H1 H2].
    f_equal; auto.
  - intros H. f_equal. revert kvs' H.
    induction IH as [|[k x] xs Hx _ IHxs]; intros [|[k' y] ys]; try discriminate;
      [reflexivity|].
    intros H. apply andb_prop in H. destruct H as [H1 H2].
    apply andb_prop in H1. destruct H1 as [Hk Hv].
    apply String.eqb_eq in Hk. simpl in Hx. apply Hx in Hv.
    f_equal; [congruence|auto].
Qed.

Lemma value_eqb_neq a b : a <> b -> value_eqb a b = false.
Proof.
  intros H. destruct (value_eqb a b) eqn:E; [|reflexivity].
  apply value_eqb_eq in E. contradiction.
Qed.

Lemma value_eqb_sym a b : value_eqb a b = value_eqb b a.
Proof.
  destruct (value_eqb a b) eqn:E.
  - apply value_eqb_eq in E. subst. now rewrite value_eqb_refl.
  - destruct (value_eqb b a) eqn:E'; [|reflexivity].
    apply value_eqb_eq in E'. subst. now rewrite value_eqb_refl in E.
Qed.

(** A top-level key is its own path. *)
Lemma split_dot_no_dot s cur :
  (forall c, In c (list_ascii_of_string s) -> c <> "."%char) ->
  split_dot s cur = [String.append cur s].
Proof.
  revert cur. induction s as [|a s IH]; intros cur H; simpl.
  - f_equal. clear. induction cur; simpl; congruence.
  - destruct (Ascii.eqb a ".") eqn:E.
    + apply Ascii.eqb_eq in E. exfalso. apply (H a); [now left|exact E].
    + rewrite IH by (intros c Hc; apply H; now right).
      f_equal. clear. induction cur; simpl; congruence.
Qed.

Lemma resolve_id d : resolve "_id" d = dict_get "_id" d.
Proof. unfold resolve. simpl. now destruct (dict_get "_id" d). Qed.

Lemma field_id d v : dict_get "_id" d = Some v -> field "_id" d = v.
Proof. unfold field. rewrite resolve_id. now intros ->. Qed.

(** ** pull, one line at a time *)

(** No stored document under the incoming [_id]: the line is inserted. *)
Lemma pull_line_missing d_new t c _id md5_new :
  dict_get "_id" d_new = Some _id ->
  dict_get "md5" d_new = Some md5_new ->
  find (matches "_id" _id) (docs c) = None ->
  Cell.pull_line d_new t c =
  (insert_one d_new ;;;
   ret (Cell.mkTally (Cell.nochange t) (Cell.replaced t) (S (Cell.inserted t)))) c.
Proof.
  intros Hid Hmd5 Hfind.
  unfold Cell.pull_line, bind, getitem. rewrite Hid, Hmd5. unfold ret at 1 2.
  unfold find_one_excluding. rewrite Hfind. reflexivity.
Qed.

(** A stored document with no field besides [_id] and [md5] reads as
    missing, and the insertion that follows collides with it. *)
Lemma pull_line_empty_projection d_new t c _id md5_new d :
  dict_get "_id" d_new = Some _id ->
  dict_get "md5" d_new = Some md5_new ->
  find (matches "_id" _id) (docs c) = Some d ->
  project_out ["_id"; "md5"] d = [] ->
  Cell.pull_line d_new t c = (Raise DuplicateKeyError, c).
Proof.
  intros Hid Hmd5 Hfind He.
  unfold Cell.pull_line, bind, getitem. rewrite Hid, Hmd5. unfold ret at 1 2.
  unfold find_one_excluding. rewrite Hfind. cbn [option_map].
  change (fold_left (fun d1 k => dict_del k d1) ["_id"; "md5"] d)
    with (project_out ["_id"; "md5"] d).
  rewrite He. cbn [truthy negb].
  unfold insert_one, dict_has. rewrite Hid.
  assert (Hc : collides ("_id" :: indexes c) d_new (docs c) = true).
  { unfold collides. cbn [existsb]. apply orb_true_iff. left.
    apply existsb_exists. apply find_some in Hfind. destruct Hfind as [Hin Hm].
    exists d. split; [exact Hin|]. now rewrite (field_id _ _ Hid). }
  now rewrite Hc.
Qed.

(** C3. [pull] on a stored document that has no field besides [_id]: the
    incoming record carries the digest of the stored one, yet [pull]
    takes the stored record for missing, tries to insert, and ends in the
    store's duplicate key error instead of counting the record as
    unchanged. *)
Theorem pull_stored_record_without_fields :
  let stored := [("_id", VStr "a")] in
  let r_new := [("_id", VStr "a"); ("md5", VStr "d41d8cd98f00b204e9800998ecf8427e")] in
  let c := mkCell [stored] [] 0 in
  pull_md5 stored = "d41d8cd98f00b204e9800998ecf8427e" /\
  Cell.pull [r_new] c = (Raise DuplicateKeyError, c).
Proof. vm_compute. split; reflexivity. Qed.

(** ** Loops *)
Lemma for_each_app {A B} (xs ys : list A) (body : A -> B -> M B) acc c :
  for_each (xs ++ ys) body acc c =
  match for_each xs body acc c with
  | (Ok acc', c') => for_each ys body acc' c'
  | (Raise e, c') => (Raise e, c')
  end.
Proof.
  revert acc c. induction xs as [|x xs IH]; intros acc c; [reflexivity|].
  simpl. unfold bind. destruct (body x acc c) as [[acc'|e] c']; [apply IH|reflexivity].
Qed.

(** ** commit *)
Lemma estimators_nonempty ksize n dk : dk <> [] -> estimators ksize n dk <> [].
Proof.
  revert dk. induction ksize as [|k ksize IH]; intros dk H; simpl; [exact H|].
  apply IH. destruct (existsb _ dk).
  - destruct dk; [contradiction|discriminate].
  - destruct dk; discriminate.
Qed.

Lemma estimators_cons_nonempty k ks n : estimators (k :: ks) n [] <> [].
Proof. simpl. apply estimators_nonempty. discriminate. Qed.

Lemma add_sequences_ok dk d c dk' c' :
  Cell.add_sequences dk d c = (Ok dk', c') ->
  c' = c /\ List.length dk' = List.length dk /\
  (dk <> [] -> exists s, dict_get "sequence" d = Some (VStr s)).
Proof.
  revert dk' c'. induction dk as [|[k v] dk IH]; simpl; intros dk' c' H.
  - inversion H. subst. repeat split; auto. congruence.
  - unfold bind, getitem in H.
    destruct (dict_get "sequence" d) as [s|]; [|discriminate].
    unfold ret at 1 in H. unfold add_sequence in H.
    destruct s; try discriminate. unfold ret at 1 in H.
    destruct (Cell.add_sequences dk d c) as [[dk''|e] c''] eqn:E; [|discriminate].
    inversion H; subst. destruct (IH _ _ eq_refl) as [-> [Hl _]].
    repeat split; simpl; eauto.
Qed.

Lemma add_sequences_missing dk d c :
  dk <> [] -> dict_get "sequence" d = None ->
  Cell.add_sequences dk d c = (Raise (KeyError "sequence"), c).
Proof.
  destruct dk as [|[k v] dk]; [contradiction|]. intros _ H.
  simpl. unfold bind, getitem. now rewrite H.
Qed.

Lemma dict_get_commit_fields k d _id h :
  k <> "_id" -> k <> "md5" ->
  dict_get k (dict_set "_id" _id (dict_set "md5" h (dict_del "md5" (dict_del "_id" d))))
  = dict_get k d.
Proof.
  intros Hi Hm. apply String.eqb_neq in Hi, Hm.
  now rewrite !dict_get_set, !dict_get_del, Hi, Hm.
Qed.

Lemma commit_doc_ok d acc c acc' c' :
  Cell.commit_doc d acc c = (Ok acc', c') ->
  c' = c /\ List.length (snd acc') = List.length (snd acc) /\
  (snd acc <> [] -> exists s, dict_get "sequence" d = Some (VStr s)).
Proof.
  unfold Cell.commit_doc, bind, getitem.
  destruct (dict_get "_id" d) as [_id|]; [|discriminate].
  unfold ret at 1. unfold Cell.json_dumps.
  set (d4 := dict_set "_id" _id _).
  destruct (has_oid (VDict d4)); [discriminate|]. unfold ret at 1.
  destruct (Cell.add_sequences (snd acc) d4 c) as [[dk'|e] c''] eqn:Es;
    [|discriminate].
  unfold ret. intros H. inversion H; subst. simpl.
  apply add_sequences_ok in Es. destruct Es as [-> [Hl Hs]].
  repeat split; auto.
  intros Hne. destruct (Hs Hne) as [s Hs']. exists s.
  unfold d4 in Hs'. rewrite dict_get_commit_fields in Hs'; [exact Hs'| |]; discriminate.
Qed.

Lemma commit_doc_read_only d acc c : snd (Cell.commit_doc d acc c) = c.
Proof.
  destruct (Cell.commit_doc d acc c) as [[acc'|e] c'] eqn:E.
  - apply commit_doc_ok in E. simpl. tauto.
  - revert E. unfold Cell.commit_doc, bind, getitem.
    destruct (dict_get "_id" d) as [_id|]; [|intros H; inversion H; reflexivity].
    unfold ret at 1. unfold Cell.json_dumps.
    set (d4 := dict_set "_id" _id _).
    destruct (has_oid (VDict d4)); [intros H; inversion H; reflexivity|].
    unfold ret at 1.
    destruct (Cell.add_sequences (snd acc) d4 c) as [[dk'|e'] c''] eqn:Es;
      [discriminate|].
    intros H. inversion H; subst. simpl. clear - Es.
    revert e c' Es. generalize (snd acc) as l.
    induction l as [|[k v] l IH]; simpl; intros e c' Es; [discriminate|].
    unfold bind, getitem in Es.
    destruct (dict_get "sequence" d4) as [s|]; [|inversion Es; reflexivity].
    unfold ret at 1 in Es. unfold add_sequence in Es.
    destruct s; try (inversion Es; reflexivity). unfold ret at 1 in Es.
    destruct (Cell.add_sequences l d4 c) as [[dk'|e'] c''] eqn:El; [discriminate|].
    inversion Es; subst. eauto.
Qed.

Lemma commit_loop_read_only ds acc c : snd (for_each ds Cell.commit_doc acc c) = c.
Proof.
  revert acc c. induction ds as [|d ds IH]; intros acc c; [reflexivity|].
  simpl. unfold bind.
  pose proof (commit_doc_read_only d acc c) as H.
  destruct (Cell.commit_doc d acc c) as [[acc'|e] c']; simpl in H; subst; auto.
Qed.

(** [commit] only reads the cell. *)
Lemma commit_read_only ksize n c : snd (Cell.commit ksize n c) = c.
Proof. unfold Cell.commit, bind, find_all. apply commit_loop_read_only. Qed.

Lemma commit_loop_ok ds : forall acc c acc' c',
  snd acc <> [] ->
  for_each ds Cell.commit_doc acc c = (Ok acc', c') ->
  snd acc' <> [] /\
  Forall (fun d => exists s, dict_get "sequence" d = Some (VStr s)) ds.
Proof.
  induction ds as [|d ds IH]; intros acc c acc' c' Hne H.
  - inversion H; subst. auto.
  - simpl in H. unfold bind in H.
    destruct (Cell.commit_doc d acc c) as [[acc1|e] c1] eqn:E; [|discriminate].
    apply commit_doc_ok in E. destruct E as [-> [Hl Hs]].
    assert (Hne1 : snd acc1 <> []).
    { destruct (snd acc1); [|discriminate]. destruct (snd acc); [contradiction|discriminate]. }
    destruct (IH _ _ _ _ Hne1 H) as [Hne' HF]. split; [exact Hne'|].
    constructor; auto.
Qed.

Lemma has_oid_commit_fields d _id h :
  dict_get "_id" d = Some _id -> has_oid (VDict d) = false ->
  has_oid (VDict (dict_set "_id" _id
                    (dict_set "md5" (VStr h) (dict_del "md5" (dict_del "_id" d))))) = false.
Proof.
  intros Hid Ho.
  destruct (has_oid (VDict (dict_set "_id" _id _))) eqn:E; [|reflexivity].
  exfalso. simpl in E, Ho.
  apply existsb_exists in E. destruct E as [[k v] [Hin Hv]]. simpl in Hv.
  assert (Hall : forall k' v', In (k', v') d -> has_oid v' = false).
  { intros k' v' Hin'. destruct (has_oid v') eqn:E'; [|reflexivity].
    rewrite <- Ho. symmetry. apply existsb_exists. now exists (k', v'). }
  assert (Hset : forall k0 v0 (d0 : record) x,
             In x (dict_set k0 v0 d0) -> x = (k0, v0) \/ In x d0).
  { clear. intros k0 v0 d0 x. induction d0 as [|[k1 v1] d0 IH]; simpl.
    - intuition.
    - destruct (String.eqb k0 k1); simpl; intuition. }
  apply Hset in Hin. destruct Hin as [Hin|Hin].
  - inversion Hin; subst. apply dict_get_In in Hid.
    rewrite (Hall _ _ Hid) in Hv. discriminate.
  - apply Hset in Hin. destruct Hin as [Hin|Hin].
    + inversion Hin; subst. discriminate.
    + do 2 apply dict_del_incl in Hin. rewrite (Hall _ _ Hin) in Hv. discriminate.
Qed.

Lemma commit_doc_missing_sequence d acc c _id :
  dict_get "_id" d = Some _id -> has_oid (VDict d) = false ->
  snd acc <> [] -> dict_get "sequence" d = None ->
  Cell.commit_doc d acc c = (Raise (KeyError "sequence"), c).
Proof.
  intros Hid Ho Hne Hs.
  unfold Cell.commit_doc, bind, getitem. rewrite Hid. unfold ret at 1.
  unfold Cell.json_dumps. rewrite (has_oid_commit_fields _ _ _ Hid Ho).
  unfold ret at 1. rewrite add_sequences_missing; auto.
  rewrite dict_get_commit_fields; [exact Hs| |]; discriminate.
Qed.

(** ** init *)
Lemma dict_set_set k u v d : dict_set k u (dict_set k v d) = dict_set k u d.
Proof.
  induction d as [|[k0 v0] d IH]; simpl.
  - now rewrite String.eqb_refl.
  - destruct (String.eqb k k0) eqn:E; simpl.
    + now rewrite String.eqb_refl.
    + now rewrite E, IH.
Qed.

Lemma dict_get_set_same k v d : dict_get k (dict_set k v d) = Some v.
Proof. now rewrite dict_get_set, String.eqb_refl. Qed.

Lemma insert_one_with_id d c v :
  dict_get "_id" d = Some v ->
  insert_one d c =
  if collides ("_id" :: indexes c) d (docs c) then (Raise DuplicateKeyError, c)
  else (Ok tt, mkCell (docs c ++ [d]) (indexes c) (next_oid c)).
Proof. intros H. unfold insert_one, dict_has. now rewrite H. Qed.

Lemma init_loop_returns uuid4 file :
  forall n c m c',
    for_each file (Cell.init_line uuid4) n c = (Ok m, c') ->
    m = n + List.length file /\ docs c' = docs c ++ assign_ids uuid4 n file.
Proof.
  induction file as [|d file IH]; intros n c m c' H.
  - inversion H; subst. simpl. now rewrite Nat.add_0_r, app_nil_r.
  - simpl in H. unfold bind at 1 in H. unfold Cell.init_line at 1 in H.
    unfold bind in H.
    rewrite (insert_one_with_id _ _ _ (dict_get_set_same "_id" _ d)) in H.
    destruct (collides _ _ _); [discriminate|].
    unfold ret at 1 in H. apply IH in H. destruct H as [-> Hd].
    simpl in *. rewrite Hd, <- app_assoc. split; [lia|reflexivity].
Qed.

Lemma init_loop_fresh uuid4 file :
  forall n c,
    indexes c = [] ->
    (forall i e, n <= i < n + List.length file -> In e (docs c) ->
                 field "_id" e <> VStr (uuid4 i)) ->
    (forall i j, n <= i < j -> j < n + List.length file -> uuid4 i <> uuid4 j) ->
    for_each file (Cell.init_line uuid4) n c =
    (Ok (n + List.length file),
     mkCell (docs c ++ assign_ids uuid4 n file) [] (next_oid c)).
Proof.
  induction file as [|d file IH]; intros n c Hidx Hfresh Hinj.
  - simpl. rewrite Nat.add_0_r, app_nil_r. destruct c; simpl in *. now subst.
  - simpl. unfold bind at 1. unfold Cell.init_line at 1. unfold bind.
    rewrite (insert_one_with_id _ _ _ (dict_get_set_same "_id" _ d)).
    assert (Hc : collides ("_id" :: indexes c)
                   (dict_set "_id" (VStr (uuid4 n)) d) (docs c) = false).
    { rewrite Hidx. unfold collides. cbn [existsb]. rewrite orb_false_r.
      rewrite (field_id _ _ (dict_get_set_same "_id" _ d)).
      destruct (existsb _ (docs c)) eqn:E; [|reflexivity].
      apply existsb_exists in E. destruct E as [e [Hin Hm]].
      unfold matches in Hm. apply value_eqb_eq in Hm.
      exfalso. apply (Hfresh n e); [simpl; lia|exact Hin|exact Hm]. }
    rewrite Hc. unfold ret at 1.
    rewrite IH; simpl.
    + rewrite <- app_assoc. simpl. now rewrite Nat.add_succ_r.
    + exact Hidx.
    + intros i e Hi Hin. apply in_app_or in Hin. destruct Hin as [Hin|[<-|[]]].
      * apply Hfresh; [simpl in *; lia|exact Hin].
      * rewrite (field_id _ _ (dict_get_set_same "_id" _ d)).
        intros E. inversion E as [E']. revert E'. apply Hinj; simpl in *; lia.
    + intros i j Hij Hj. apply Hinj; simpl in *; lia.
Qed.

Lemma assign_ids_nth uuid4 file :
  forall n i d,
    nth_error file i = Some d ->
    nth_error (assign_ids uuid4 n file) i =
    Some (dict_set "_id" (VStr (uuid4 (n + i))) d).
Proof.
  induction file as [|d0 file IH]; intros n [|i] d H; simpl in *; try discriminate.
  - inversion H; subst. now rewrite Nat.add_0_r.
  - rewrite (IH (S n) i d H). simpl. now rewrite Nat.add_succ_r.
Qed.

(** C9. [init] gives every record a freshly generated identifier: the
    [_id] a line of the file carries has no effect on what is inserted,
    the i-th document that reaches the store has the i-th identifier
    drawn under [_id], and with identifiers that are new to the cell the
    command inserts every line. *)
Theorem init_assigns_fresh_ids (uuid4 : nat -> string) :
  (forall d v n, Cell.init_line uuid4 (dict_set "_id" v d) n = Cell.init_line uuid4 d n) /\
  (forall file c m c',
     Cell.init uuid4 file c = (Ok m, c') ->
     m = List.length file /\
     docs c' = docs c ++ assign_ids uuid4 0 file /\
     forall i d, nth_error file i = Some d ->
       exists d', nth_error (assign_ids uuid4 0 file) i = Some d' /\
                  d' = dict_set "_id" (VStr (uuid4 i)) d /\
                  dict_get "_id" d' = Some (VStr (uuid4 i))) /\
  (forall file c,
     indexes c = [] ->
     (forall i e, i < List.length file -> In e (docs c) ->
                  field "_id" e <> VStr (uuid4 i)) ->
     (forall i j, i < j -> j < List.length file -> uuid4 i <> uuid4 j) ->
     Cell.init uuid4 file c =
     (Ok (List.length file),
      mkCell (docs c ++ assign_ids uuid4 0 file) [] (next_oid c))).
Proof.
  split; [|split].
  - intros d v n. unfold Cell.init_line. now rewrite dict_set_set.
  - intros file c m c' H. apply init_loop_returns in H. destruct H as [-> Hd].
    repeat split; auto.
    intros i d Hi. eexists. split; [apply (assign_ids_nth uuid4 file 0 i d Hi)|].
    split; [reflexivity|apply dict_get_set_same].
  - intros file c Hidx Hfresh Hinj.
    apply (init_loop_fresh uuid4 file 0 c Hidx).
    + intros i e Hi. apply Hfresh. simpl in Hi. lia.
    + intros i j Hij Hj. apply Hinj; simpl in *; lia.
Qed.

Lemma init_assigns_fresh_ids_witness :
  let uuid4 := fun i => match i with
                        | 0 => "16fd2706-8baf-433b-82eb-8c7fada847da"
                        | _ => "886313e1-3b8a-5372-9b90-0c9aee199e5d"
                        end in
  let file := [[("_id", VStr "carried"); ("sequence", VStr "ACGT")];
               [("sequence", VStr "GG")]] in
  let c := mkCell [[("_id", VStr "carried"); ("sequence", VStr "TT")]] [] 0 in
  Cell.init uuid4 file c =
  (Ok 2,
   mkCell [[("_id", VStr "carried"); ("sequence", VStr "TT")];
           [("_id", VStr "16fd2706-8baf-433b-82eb-8c7fada847da"); ("sequence", VStr "ACGT")];
           [("sequence", VStr "GG"); ("_id", VStr "886313e1-3b8a-5372-9b90-0c9aee199e5d")]]
          [] 0).
Proof.
  intros uuid4 file c.
  destruct (init_assigns_fresh_ids uuid4) as [_ [_ H]].
  apply (H file c).
  - reflexivity.
  - intros i e Hi [<-|[]]. destruct i as [|[|i]]; simpl; discriminate.
  - intros i j Hij Hj. destruct j as [|[|j]]; simpl in Hj; try lia.
    destruct i as [|i]; [|lia]. simpl. discriminate.
Defined.

(** ** add *)
Lemma insert_one_cases d c :
  (exists c', insert_one d c = (Ok tt, c')) \/
  insert_one d c = (Raise DuplicateKeyError, c).
Proof.
  unfold insert_one.
  destruct (dict_has "_id" d); destruct (collides _ _ _); eauto.
Qed.

Lemma add_line_id_duplicate line n c :
  insert_one line c = (Raise DuplicateKeyError, c) ->
  Cell.add_line_id line n c = (Ok (fst n, S (snd n)), c).
Proof.
  intros H. unfold Cell.add_line_id, except_duplicate, bind. now rewrite H.
Qed.

Lemma add_line_id_inserted line n c c' :
  insert_one line c = (Ok tt, c') ->
  Cell.add_line_id line n c = (Ok (S (fst n), snd n), c').
Proof.
  intros H. unfold Cell.add_line_id, except_duplicate, bind. now rewrite H.
Qed.

Lemma add_id_loop file :
  forall n c, exists ins dup c',
    for_each file Cell.add_line_id n c = (Ok (ins, dup), c') /\
    ins + dup = fst n + snd n + List.length file.
Proof.
  induction file as [|line file IH]; intros n c.
  - exists (fst n), (snd n), c. destruct n. simpl. split; [reflexivity|lia].
  - simpl. unfold bind.
    destruct (insert_one_cases line c) as [[c' H]|H].
    + rewrite (add_line_id_inserted _ n _ _ H).
      destruct (IH (S (fst n), snd n) c') as [ins [dup [c'' [E Hs]]]].
      exists ins, dup, c''. split; [exact E|simpl in Hs; lia].
    + rewrite (add_line_id_duplicate _ n _ H).
      destruct (IH (fst n, S (snd n)) c) as [ins [dup [c'' [E Hs]]]].
      exists ins, dup, c''. split; [exact E|simpl in Hs; lia].
Qed.

Lemma cli_add_file_returns i :
  forall c, exists aborted c', CliCell.add_file i c = (Ok aborted, c').
Proof.
  induction i as [|line i IH]; intros c; simpl.
  - now exists false, c.
  - unfold bind, except_duplicate.
    destruct (insert_one_cases line c) as [[c' H]|H]; rewrite H.
    + unfold ret at 1. apply IH.
    + now exists true, c.
Qed.

Lemma cli_add_file_stops loaded line rest :
  forall c c1,
    CliCell.add_file loaded c = (Ok false, c1) ->
    insert_one line c1 = (Raise DuplicateKeyError, c1) ->
    CliCell.add_file (loaded ++ line :: rest) c = (Ok true, c1).
Proof.
  induction loaded as [|l loaded IH]; intros c c1 Hl H; simpl in *.
  - inversion Hl; subst. unfold bind, except_duplicate. now rewrite H.
  - unfold bind, except_duplicate in *.
    destruct (insert_one_cases l c) as [[c' E]|E]; rewrite E in *.
    + unfold ret at 1 in Hl. unfold ret at 1. now apply IH.
    + discriminate.
Qed.

(** ** add with another primary key *)
Lemma deep_get_unresolved d key : resolve key d = None -> deep_get d key = VNull.
Proof. unfold resolve, deep_get. now intros ->. Qed.

Lemma find_none_iff {A} (p : A -> bool) l :
  find p l = None <-> forall x, In x l -> p x = false.
Proof.
  split.
  - intros H x Hin. eapply find_none; eauto.
  - induction l as [|a l IH]; simpl; [reflexivity|].
    intros H. rewrite (H a) by now left. apply IH. intros x Hx. apply H. now right.
Qed.

(** ** diff *)
Section DiffFacts.
Variable DeepDiff : option record -> record -> record.

Lemma diff_line_entry old outfile c _id :
  dict_get "_id" old = Some _id ->
  Cell.diff_line DeepDiff old outfile c =
  (Ok (outfile ++ delta_entry DeepDiff c old), c).
Proof.
  intros H. unfold Cell.diff_line, delta_entry, bind, getitem, find_one.
  rewrite H. unfold ret at 1.
  destruct (DeepDiff _ old); [now rewrite app_nil_r|reflexivity].
Qed.

Lemma diff_loop file :
  forall outfile c,
    Forall (fun old => dict_get "_id" old <> None) file ->
    for_each file (Cell.diff_line DeepDiff) outfile c =
    (Ok (outfile ++ flat_map (delta_entry DeepDiff c) file), c).
Proof.
  induction file as [|old file IH]; intros outfile c H.
  - simpl. now rewrite app_nil_r.
  - inversion H as [|? ? Hid HF]; subst.
    destruct (dict_get "_id" old) as [_id|] eqn:E; [|contradiction].
    simpl. unfold bind. rewrite (diff_line_entry _ _ _ _ E).
    rewrite IH by exact HF. now rewrite app_assoc.
Qed.

Lemma diff_line_read_only old outfile c :
  snd (Cell.diff_line DeepDiff old outfile c) = c.
Proof.
  unfold Cell.diff_line, bind, getitem, find_one.
  destruct (dict_get "_id" old); [|reflexivity].
  unfold ret at 1. now destruct (DeepDiff _ old).
Qed.

(** [diff] only reads the cell, also when it fails. *)
Lemma diff_read_only file c : snd (Cell.diff DeepDiff file c) = c.
Proof.
  unfold Cell.diff. generalize (@nil record) as outfile. revert c.
  induction file as [|old file IH]; intros c outfile; [reflexivity|].
  simpl. unfold bind.
  pose proof (diff_line_read_only old outfile c) as H.
  destruct (Cell.diff_line DeepDiff old outfile c) as [[o|e] c']; simpl in H; subst; auto.
Qed.

End DiffFacts.

Lemma plain_diff_refl r : plain_diff (Some r) r = [].
Proof. unfold plain_diff. now rewrite value_eqb_refl. Qed.


(** ** commit, then pull *)
Lemma find_unique {A} (f : A -> value) (l : list A) d :
  NoDup (map f l) -> In d l ->
  find (fun e => value_eqb (f e) (f d)) l = Some d.
Proof.
  induction l as [|a l IH]; simpl; [tauto|].
  intros Hnd Hin. inversion Hnd as [|? ? Hn Hnd']; subst.
  destruct Hin as [->|Hin].
  - now rewrite value_eqb_refl.
  - destruct (value_eqb (f a) (f d)) eqn:E; [|auto].
    apply value_eqb_eq in E. exfalso. apply Hn. rewrite E. now apply in_map.
Qed.

Lemma project_out_nonempty d k v :
  k <> "_id" -> k <> "md5" -> dict_get k d = Some v ->
  project_out ["_id"; "md5"] d <> [].
Proof.
  intros Hi Hm Hk He. apply String.eqb_neq in Hi, Hm.
  assert (E : dict_get k (project_out ["_id"; "md5"] d) = Some v).
  { rewrite project_out_id_md5, dict_get_stripped. now rewrite Hm, Hi. }
  rewrite He in E. discriminate.
Qed.

Lemma commit_loop_lines ds :
  forall acc c acc' c',
    snd acc <> [] ->
    for_each ds Cell.commit_doc acc c = (Ok acc', c') ->
    exists lines, fst acc' = fst acc ++ lines /\ Forall2 line_of ds lines.
Proof.
  induction ds as [|d ds IH]; intros acc c acc' c' Hne H.
  - inversion H; subst. exists []. now rewrite app_nil_r.
  - simpl in H. unfold bind in H.
    destruct (Cell.commit_doc d acc c) as [[[f1 dk1]|e] c1] eqn:E; [|discriminate].
    pose proof (commit_doc_ok _ _ _ _ _ E) as [-> [Hl Hs]].
    apply commit_doc_line in E.
    destruct E as [line [_id [Hf [_ [Hid [_ [Hmd5 Hlid]]]]]]].
    simpl in Hl.
    assert (Hne1 : snd (f1, dk1) <> []).
    { simpl. destruct dk1; [|discriminate].
      destruct (snd acc); [contradiction|discriminate]. }
    destruct (IH _ _ _ _ Hne1 H) as [lines [Hf' HF]].
    exists (line :: lines). split.
    + rewrite Hf'. simpl. rewrite Hf, <- app_assoc. reflexivity.
    + constructor; [|exact HF].
      destruct (Hs Hne) as [s Hseq]. exists _id, s. repeat split; auto.
Qed.

Lemma pull_loop_round_trip c :
  NoDup (map (field "_id") (docs c)) ->
  forall ds lines t,
    Forall2 line_of ds lines ->
    (forall d, In d ds -> In d (docs c)) ->
    (forall d v, In d ds -> dict_get "_id" d = Some v -> sort_keys v = v) ->
    for_each lines Cell.pull_line t c =
    (Ok (Cell.mkTally (Cell.nochange t + List.length ds) (Cell.replaced t)
                      (Cell.inserted t)), c).
Proof.
  intros Hnd ds lines t HF. revert t.
  induction HF as [|d line ds lines [_id [s [Hid [Hseq [Hlid Hmd5]]]]] _ IH];
    intros t Hin Hsort.
  - simpl. rewrite Nat.add_0_r. now destruct t.
  - simpl. unfold bind.
    assert (Hfind : find (matches "_id" (sort_keys _id)) (docs c) = Some d).
    { rewrite (Hsort d _id (or_introl eq_refl) Hid).
      rewrite <- (field_id _ _ Hid).
      apply (find_unique (field "_id")); [exact Hnd|apply Hin; now left]. }
    rewrite (pull_line_found line t c _ _ d Hlid Hmd5 Hfind).
    + rewrite value_eqb_refl, IH.
      * cbn [Cell.nochange Cell.replaced Cell.inserted].
        now rewrite Nat.add_succ_r.
      * intros d' Hd'. apply Hin. now right.
      * intros d' v Hd'. apply Hsort. now right.
    + apply (project_out_nonempty d "sequence" (VStr s)); [discriminate..|exact Hseq].
Qed.

(** C4. Round trip: when [commit] writes the snapshot of a cell whose
    [_id] values read back from the snapshot as they are stored, [pull]
    of that snapshot into the same cell counts every record as
    unchanged and leaves the cell as it was. *)
Theorem commit_pull_round_trip k ks n c file dk c1 :
  NoDup (map (field "_id") (docs c)) ->
  (forall d v, In d (docs c) -> dict_get "_id" d = Some v -> sort_keys v = v) ->
  Cell.commit (k :: ks) n c = (Ok (file, dk), c1) ->
  c1 = c /\
  Cell.pull file c1 = (Ok (Cell.mkTally (List.length (docs c)) 0 0), c).
Proof.
  intros Hnd Hsort H.
  pose proof (commit_read_only (k :: ks) n c) as Hro. rewrite H in Hro.
  simpl in Hro. subst c1. split; [reflexivity|].
  unfold Cell.commit, bind, find_all in H.
  apply commit_loop_lines in H; [|apply estimators_cons_nonempty].
  destruct H as [lines [Hf HF]]. simpl in Hf. subst file.
  unfold Cell.pull.
  now rewrite (pull_loop_round_trip c Hnd (docs c) lines _ HF).
Qed.

Lemma commit_pull_round_trip_witness :
  commit_then_pull [16%Z; 31%Z] 1000
    (mkCell [[("_id", VStr "a"); ("sequence", VStr "ACGT"); ("host", VStr "Avian")];
             [("sequence", VStr "GG"); ("_id", VStr "b"); ("md5", VStr "stale")]] [] 0)
  = (Ok (Cell.mkTally 2 0 0),
     mkCell [[("_id", VStr "a"); ("sequence", VStr "ACGT"); ("host", VStr "Avian")];
             [("sequence", VStr "GG"); ("_id", VStr "b"); ("md5", VStr "stale")]] [] 0).
Proof.
  unfold commit_then_pull.
  set (c := mkCell _ _ _).
  destruct (Cell.commit [16%Z; 31%Z] 1000 c) as [[[file dk]|e] c1] eqn:E.
  - refine (proj2 (commit_pull_round_trip 16 [31%Z] 1000 c file dk c1 _ _ E)).
    + vm_compute. repeat constructor; simpl; intuition discriminate.
    + intros d v [<-|[<-|[]]] Hv; inversion Hv; reflexivity.
  - vm_compute in E. discriminate.
Defined.

(** A record whose [_id] is a mapping with keys out of order: the
    snapshot holds the [_id] with sorted keys, [pull] finds no record
    under it and inserts the record a second time. *)
Lemma commit_pull_mapping_id_inserted :
  fst (commit_then_pull [16%Z; 31%Z] 1000 Sample.cell_mapping_id)
  = Ok (Cell.mkTally 0 0 1).
Proof. vm_compute. reflexivity. Qed.

(** ** pull, twice *)

Lemma find_app_miss {A} (p : A -> bool) l x :
  p x = false -> find p (l ++ [x]) = find p l.
Proof.
  intros H. induction l as [|a l IH]; simpl; [now rewrite H|].
  destruct (p a); auto.
Qed.

Lemma find_app_new {A} (p : A -> bool) l x :
  find p l = None -> p x = true -> find p (l ++ [x]) = Some x.
Proof.
  intros Hn H. induction l as [|a l IH]; simpl in *; [now rewrite H|].
  destruct (p a); [discriminate|auto].
Qed.

Lemma find_replace_first_other v v' d ds :
  v <> v' -> field "_id" d = v' ->
  find (matches "_id" v) (replace_first "_id" v' d ds) = find (matches "_id" v) ds.
Proof.
  intros Hv Hd. induction ds as [|e ds IH]; simpl; [reflexivity|].
  destruct (matches "_id" v' e) eqn:E; simpl.
  - unfold matches in *. rewrite Hd.
    apply value_eqb_eq in E. rewrite E.
    now rewrite (value_eqb_neq v' v) by congruence.
  - rewrite IH. reflexivity.
Qed.

Lemma find_replace_first_same v d ds e :
  find (matches "_id" v) ds = Some e -> field "_id" d = v ->
  find (matches "_id" v) (replace_first "_id" v d ds) = Some d.
Proof.
  intros Hf Hd. induction ds as [|a ds IH]; simpl in *; [discriminate|].
  destruct (matches "_id" v a) eqn:E; simpl.
  - unfold matches. now rewrite Hd, value_eqb_refl.
  - rewrite E. auto.
Qed.

(** What a line of [pull] that goes through does to the cell. *)
Lemma pull_line_steps l t c t' c' :
  Cell.pull_line l t c = (Ok t', c') ->
  exists _id md5_new,
    dict_get "_id" l = Some _id /\ dict_get "md5" l = Some md5_new /\
    ((find (matches "_id" _id) (docs c) = None /\ docs c' = docs c ++ [l]) \/
     (exists e, find (matches "_id" _id) (docs c) = Some e /\
                project_out ["_id"; "md5"] e <> [] /\
                md5_new = VStr (pull_md5 e) /\ c' = c) \/
     (exists e, find (matches "_id" _id) (docs c) = Some e /\
                docs c' = replace_first "_id" _id l (docs c))).
Proof.
  intros H.
  destruct (dict_get "_id" l) as [_id|] eqn:Hid;
    [|unfold Cell.pull_line, bind, getitem in H; rewrite Hid in H; discriminate].
  destruct (dict_get "md5" l) as [md5_new|] eqn:Hmd5;
    [|unfold Cell.pull_line, bind, getitem in H; rewrite Hid, Hmd5 in H;
      discriminate].
  exists _id, md5_new. repeat split.
  destruct (find (matches "_id" _id) (docs c)) as [e|] eqn:Hfind.
  - right.
    destruct (project_out ["_id"; "md5"] e) as [|kv rest] eqn:Hp.
    { rewrite (pull_line_empty_projection _ _ _ _ _ _ Hid Hmd5 Hfind Hp) in H.
      discriminate. }
    rewrite (pull_line_found _ _ _ _ _ _ Hid Hmd5 Hfind) in H
      by (rewrite Hp; discriminate).
    destruct (value_eqb md5_new (VStr (pull_md5 e))) eqn:Eq.
    + left. exists e. apply value_eqb_eq in Eq. inversion H; subst.
      repeat split. rewrite Hp. discriminate.
    + right. exists e. split; [reflexivity|].
      unfold bind, find_one_and_replace in H. rewrite Hfind in H.
      destruct (collides _ _ _); [discriminate|].
      inversion H; subst. reflexivity.
  - left. split; [reflexivity|].
    rewrite (pull_line_missing _ _ _ _ _ Hid Hmd5 Hfind) in H.
    unfold bind in H. rewrite (insert_one_with_id _ _ _ Hid) in H.
    destruct (collides _ _ _); [discriminate|].
    inversion H; subst. reflexivity.
Qed.

(** A line leaves the records under other identifiers where they are. *)
Lemma pull_line_other l t c t' c' v :
  Cell.pull_line l t c = (Ok t', c') ->
  field "_id" l <> v ->
  find (matches "_id" v) (docs c') = find (matches "_id" v) (docs c).
Proof.
  intros H Hv. apply pull_line_steps in H.
  destruct H as [_id [md5_new [Hid [_ H]]]].
  rewrite (field_id _ _ Hid) in Hv.
  destruct H as [[_ Hd]|[[e [_ [_ [_ ->]]]]|[e [_ Hd]]]].
  - rewrite Hd. apply find_app_miss. unfold matches.
    rewrite (field_id _ _ Hid). now apply value_eqb_neq.
  - reflexivity.
  - rewrite Hd. apply find_replace_first_other; [congruence|now apply field_id].
Qed.

(** A line that went through is settled. *)
Lemma pull_line_settles l t c t' c' :
  committed_line l ->
  Cell.pull_line l t c = (Ok t', c') ->
  settled c' l.
Proof.
  intros [_ [Hmd5 Hne]] H. apply pull_line_steps in H.
  destruct H as [_id [md5_new [Hid [Hmd5' H]]]].
  unfold settled. rewrite (field_id _ _ Hid).
  destruct H as [[Hn Hd]|[[e [Hf [Hp [Hm ->]]]]|[e [Hf Hd]]]].
  - exists l. rewrite Hd. split; [|split; [exact Hne|reflexivity]].
    apply find_app_new; [exact Hn|].
    unfold matches. now rewrite (field_id _ _ Hid), value_eqb_refl.
  - exists e. split; [exact Hf|split; [exact Hp|]].
    rewrite Hmd5 in Hmd5'. inversion Hmd5'; subst. congruence.
  - exists l. rewrite Hd. split; [|split; [exact Hne|reflexivity]].
    eapply find_replace_first_same; [exact Hf|now apply field_id].
Qed.

Lemma pull_loop_other file :
  forall t c t' c' v,
    for_each file Cell.pull_line t c = (Ok t', c') ->
    ~ In v (map (field "_id") file) ->
    find (matches "_id" v) (docs c') = find (matches "_id" v) (docs c).
Proof.
  induction file as [|l file IH]; intros t c t' c' v H Hv.
  - inversion H. reflexivity.
  - simpl in H. unfold bind in H.
    destruct (Cell.pull_line l t c) as [[t1|e] c1] eqn:E; [|discriminate].
    rewrite (IH _ _ _ _ v H) by (intros Hin; apply Hv; now right).
    eapply pull_line_other; [exact E|].
    intros Heq. apply Hv. left. exact Heq.
Qed.

Lemma pull_loop_settles file :
  forall t c t' c',
    NoDup (map (field "_id") file) ->
    Forall committed_line file ->
    for_each file Cell.pull_line t c = (Ok t', c') ->
    Forall (settled c') file.
Proof.
  induction file as [|l file IH]; intros t c t' c' Hnd HF H; [constructor|].
  inversion Hnd as [|? ? Hn Hnd']; subst.
  inversion HF as [|? ? Hl HF']; subst.
  simpl in H. unfold bind in H.
  destruct (Cell.pull_line l t c) as [[t1|e] c1] eqn:E; [|discriminate].
  constructor; [|eapply IH; eauto].
  destruct (pull_line_settles _ _ _ _ _ Hl E) as [e [Hf Hrest]].
  exists e. split; [|exact Hrest].
  rewrite <- Hf. eapply pull_loop_other; eauto.
Qed.

Lemma pull_loop_settled file :
  forall t c,
    Forall committed_line file ->
    Forall (settled c) file ->
    for_each file Cell.pull_line t c =
    (Ok (Cell.mkTally (Cell.nochange t + List.length file) (Cell.replaced t)
                      (Cell.inserted t)), c).
Proof.
  induction file as [|l file IH]; intros t c HF HS.
  - simpl. rewrite Nat.add_0_r. now destruct t.
  - inversion HF as [|? ? [Hid [Hmd5 Hne]] HF']; subst.
    inversion HS as [|? ? [e [Hf [Hp Hm]]] HS']; subst.
    destruct (dict_get "_id" l) as [_id|] eqn:Eid; [|contradiction].
    rewrite (field_id _ _ Eid) in Hf.
    simpl. unfold bind.
    rewrite (pull_line_found l t c _ _ e Eid Hmd5 Hf Hp).
    rewrite Hm, value_eqb_refl, IH by assumption.
    cbn [Cell.nochange Cell.replaced Cell.inserted].
    now rewrite Nat.add_succ_r.
Qed.

(** C5. Idempotence: when the lines of a snapshot have pairwise distinct
    [_id]s, carry the digest of their fields under [md5] and have a field
    besides the two, and a first [pull] of the snapshot goes through, a
    second [pull] counts every line as unchanged and leaves the cell as the
    first left it. *)
Theorem pull_twice_unchanged file c t1 c1 :
  NoDup (map (field "_id") file) ->
  Forall committed_line file ->
  Cell.pull file c = (Ok t1, c1) ->
  Cell.pull file c1 = (Ok (Cell.mkTally (List.length file) 0 0), c1).
Proof.
  intros Hnd HF H. unfold Cell.pull in *.
  apply pull_loop_settles in H; auto.
  now rewrite (pull_loop_settled file _ c1 HF H).
Qed.

Lemma pull_twice_unchanged_witness :
  pull_twice
    [[("_id", VStr "a"); ("host", VStr "Avian");
      ("md5", VStr "bf6e70dcb62081446e71770572f7a916")];
     [("_id", VStr "b"); ("md5", VStr "204059b6d1c6ac85006c2024b02bdc8e");
      ("host", VStr "Human")]]
    (mkCell [[("_id", VStr "a"); ("host", VStr "Swine")]] [] 0)
  = (Ok (Cell.mkTally 2 0 0),
     mkCell [[("_id", VStr "a"); ("host", VStr "Avian");
              ("md5", VStr "bf6e70dcb62081446e71770572f7a916")];
             [("_id", VStr "b"); ("md5", VStr "204059b6d1c6ac85006c2024b02bdc8e");
              ("host", VStr "Human")]] [] 0).
Proof.
  unfold pull_twice.
  match goal with
  | |- context [Cell.pull ?f ?c0] => set (file := f); set (c := c0)
  end.
  assert (Hnd : NoDup (map (field "_id") file)).
  { vm_compute. repeat constructor; simpl; intuition discriminate. }
  assert (HF : Forall committed_line file).
  { repeat constructor; try discriminate; vm_compute; reflexivity. }
  destruct (Cell.pull file c) as [[t1|e] c1] eqn:E.
  - rewrite (pull_twice_unchanged file c t1 c1 Hnd HF E).
    vm_compute in E. inversion E. reflexivity.
  - vm_compute in E. discriminate.
Defined.

(** A line whose [md5] is not the digest of its fields is inserted by the
    first [pull] and replaced by the second. *)
Lemma pull_twice_stale_md5_replaced :
  fst (pull_twice Sample.file_stale_md5 Sample.empty_cell)
  = Ok (Cell.mkTally 0 1 0).
Proof. vm_compute. reflexivity. Qed.

(** ** The lines commit writes are committed lines *)
Lemma permuted_sort_keys : forall v, permuted v (sort_keys v).
Proof.
  induction v as [ | b | n | s | n | xs IH | kvs IH] using value_ind';
    try apply permuted_refl.
  - simpl. apply permuted_list with (ys := map sort_keys xs); [|reflexivity].
    induction IH; simpl; constructor; auto.
  - simpl.
    apply permuted_dict
      with (kvs' := map (fun kv => (fst kv, sort_keys (snd kv))) kvs).
    + induction IH; simpl; constructor; auto.
    + symmetry. apply sort_perm.
Qed.

Lemma ordered_sort_keys v : wf_value v -> ordered (sort_keys v) = ordered v.
Proof.
  intros H. symmetry. apply ordered_permuted; [exact H|apply permuted_sort_keys].
Qed.

Lemma ordered_dict_ext d1 d2 :
  NoDup (keys d1) -> NoDup (keys d2) ->
  (forall k, option_map ordered (dict_get k d1) = option_map ordered (dict_get k d2)) ->
  ordered (VDict d1) = ordered (VDict d2).
Proof.
  intros H1 H2 E. simpl. do 2 f_equal.
  set (f := fun kv : string * value => (fst kv, ordered (snd kv))).
  assert (Hk : forall d, map fst (map f d) = keys d).
  { intros d. rewrite map_map. reflexivity. }
  assert (Hin : forall da db,
             NoDup (keys da) ->
             (forall k, option_map ordered (dict_get k da)
                        = option_map ordered (dict_get k db)) ->
             forall x, In x (map f da) -> In x (map f db)).
  { intros da db Hda Hab x Hx.
    apply in_map_iff in Hx. destruct Hx as [[k v] [<- Hx]].
    apply (In_dict_get _ _ _ Hda) in Hx.
    specialize (Hab k). rewrite Hx in Hab. simpl in Hab.
    destruct (dict_get k db) as [v'|] eqn:Ev; [|discriminate].
    inversion Hab as [Ho]. apply dict_get_In in Ev.
    apply in_map_iff. exists (k, v'). split; [unfold f; simpl; now rewrite Ho|exact Ev]. }
  apply sort_key_permutation; [now rewrite Hk|].
  apply NoDup_Permutation.
  - apply (NoDup_map_inv fst). now rewrite Hk.
  - apply (NoDup_map_inv fst). now rewrite Hk.
  - intros x. split; apply Hin; auto.
Qed.

Lemma dict_set_keys k v d :
  keys (dict_set k v d) = if dict_has k d then keys d else keys d ++ [k].
Proof.
  unfold dict_has, keys. induction d as [|[k0 v0] d IH]; simpl; [reflexivity|].
  destruct (String.eqb k k0) eqn:E; simpl.
  - apply String.eqb_eq in E. now subst.
  - rewrite IH. now destruct (dict_get k d).
Qed.

Lemma dict_get_None_keys k d : dict_get k d = None -> ~ In k (keys d).
Proof.
  unfold keys. induction d as [|[k0 v0] d IH]; simpl; [tauto|].
  destruct (String.eqb k k0) eqn:E; [discriminate|].
  apply String.eqb_neq in E. intros H [Hk|Hin]; [congruence|now apply IH].
Qed.

Lemma dict_set_NoDup k v d : NoDup (keys d) -> NoDup (keys (dict_set k v d)).
Proof.
  intros H. rewrite dict_set_keys. unfold dict_has.
  destruct (dict_get k d) eqn:E; [exact H|].
  apply NoDup_app; [exact H|repeat constructor; simpl; tauto|].
  intros x Hx [<-|[]]. now apply (dict_get_None_keys _ _ E).
Qed.

Lemma sort_keys_record_NoDup d : NoDup (keys d) -> NoDup (keys (sort_keys_record d)).
Proof.
  intros H. unfold sort_keys_record, keys.
  eapply Permutation_NoDup.
  - symmetry. apply Permutation_map. apply sort_perm.
  - rewrite map_map. exact H.
Qed.

Lemma wf_value_item k v d : wf_value (VDict d) -> dict_get k d = Some v -> wf_value v.
Proof.
  intros H Hk. apply wf_value_dict in H. destruct H as [_ H].
  rewrite Forall_forall in H. apply dict_get_In in Hk. exact (H _ Hk).
Qed.

(** The digest [commit] writes with a document is the digest of the line
    it writes: read back, the line is one [pull] leaves unchanged. *)
Lemma commit_doc_committed_line d acc c lines dk c' :
  wf_value (VDict d) ->
  snd acc <> [] ->
  Cell.commit_doc d acc c = (Ok (lines, dk), c') ->
  exists line, lines = fst acc ++ [line] /\ committed_line line.
Proof.
  intros Hwf Hne H.
  pose proof (commit_doc_ok _ _ _ _ _ H) as [_ [_ Hs]].
  destruct (Hs Hne) as [s Hseq].
  apply commit_doc_line in H.
  destruct H as [line [_id [Hl [_ [Hid [Hline [Hmd5 Hlid]]]]]]].
  exists line. split; [exact Hl|].
  assert (Hnd : NoDup (keys d)) by (apply wf_value_dict in Hwf; tauto).
  assert (Hget : forall k,
             dict_get k (project_out ["_id"; "md5"] line) =
             option_map sort_keys (dict_get k (project_out ["_id"; "md5"] d))).
  { intros k. rewrite !project_out_id_md5, !dict_get_stripped.
    destruct (String.eqb k "md5") eqn:Em; [reflexivity|].
    destruct (String.eqb k "_id") eqn:Ei; [reflexivity|].
    rewrite Hline, dict_get_sort_keys_record.
    rewrite dict_get_commit_fields; [reflexivity| |]; now apply String.eqb_neq. }
  split; [congruence|]. split.
  - rewrite Hmd5. do 2 f_equal.
    unfold Cell.commit_md5, pull_md5, hash_dict.
    rewrite <- project_out_id_md5.
    assert (E : ordered (VDict (project_out ["_id"; "md5"] d)) =
                ordered (VDict (project_out ["_id"; "md5"] line)));
      [|now rewrite E].
    apply ordered_dict_ext.
    + rewrite project_out_id_md5. now do 2 apply dict_del_NoDup.
    + rewrite project_out_id_md5. do 2 apply dict_del_NoDup.
      rewrite Hline. apply sort_keys_record_NoDup.
      do 2 apply dict_set_NoDup. now do 2 apply dict_del_NoDup.
    + intros k. rewrite Hget.
      destruct (dict_get k (project_out ["_id"; "md5"] d)) as [v|] eqn:Ev;
        [|reflexivity].
      simpl. f_equal. symmetry. apply ordered_sort_keys.
      apply (wf_value_item k v d Hwf).
      rewrite project_out_id_md5, dict_get_stripped in Ev.
      destruct (String.eqb k "md5"); [discriminate|].
      destruct (String.eqb k "_id"); [discriminate|exact Ev].
  - intros He. specialize (Hget "sequence"). rewrite He in Hget.
    rewrite project_out_id_md5, dict_get_stripped in Hget. simpl in Hget.
    rewrite Hseq in Hget. discriminate.
Qed.

Lemma commit_loop_committed_lines ds :
  forall acc c acc' c',
    Forall (fun d => wf_value (VDict d)) ds ->
    snd acc <> [] ->
    for_each ds Cell.commit_doc acc c = (Ok acc', c') ->
    exists lines, fst acc' = fst acc ++ lines /\ Forall committed_line lines.
Proof.
  induction ds as [|d ds IH]; intros acc c acc' c' Hwf Hne H.
  - inversion H; subst. exists []. now rewrite app_nil_r.
  - inversion Hwf as [|? ? Hd Hwf']; subst.
    simpl in H. unfold bind in H.
    destruct (Cell.commit_doc d acc c) as [[[f1 dk1]|e] c1] eqn:E; [|discriminate].
    pose proof (commit_doc_ok _ _ _ _ _ E) as [_ [Hlen _]]. simpl in Hlen.
    destruct (commit_doc_committed_line _ _ _ _ _ _ Hd Hne E) as [line [Hf Hline]].
    assert (Hne1 : snd (f1, dk1) <> []).
    { simpl. destruct dk1; [|discriminate].
      destruct (snd acc); [contradiction|discriminate]. }
    destruct (IH _ _ _ _ Hwf' Hne1 H) as [lines [Hf' HF]].
    exists (line :: lines). split.
    + rewrite Hf'. simpl. rewrite Hf, <- app_assoc. reflexivity.
    + now constructor.
Qed.

(** Every line of a snapshot [commit] wrote is a committed line. *)
Lemma commit_writes_committed_lines k ks n c file dk c1 :
  Forall (fun d => wf_value (VDict d)) (docs c) ->
  Cell.commit (k :: ks) n c = (Ok (file, dk), c1) ->
  Forall committed_line file.
Proof.
  intros Hwf H. unfold Cell.commit, bind, find_all in H.
  apply commit_loop_committed_lines in H;
    [|exact Hwf|apply estimators_cons_nonempty].
  destruct H as [lines [Hf HF]]. simpl in Hf. now subst.
Qed.

(** * Further properties *)

(** ** hash_dict: what the digest is taken of *)
Lemma encode_utf8_app s1 s2 :
  encode_utf8 (String.append s1 s2) = encode_utf8 s1 ++ encode_utf8 s2.
Proof.
  unfold encode_utf8, list_byte_of_string. rewrite <- !map_app. do 2 f_equal.
  induction s1 as [|a s1 IH]; simpl; [reflexivity|]. now rewrite IH.
Qed.

Lemma fold_update f : forall h,
  fold_left (fun h i => update h (encode_utf8 (py_str i))) f h =
  h ++ encode_utf8 (token_text f).
Proof.
  unfold token_text.
  induction f as [|i f IH]; intros h; simpl.
  - now rewrite app_nil_r.
  - rewrite IH. unfold update. rewrite <- app_assoc. f_equal.
    destruct f as [|j f]; simpl.
    + now rewrite app_nil_r.
    + now rewrite <- encode_utf8_app.
Qed.

Lemma hash_dict_joined d :
  hash_dict d = MD5.hexdigest (encode_utf8 (token_text (flat (ordered d)))).
Proof. unfold hash_dict, hexdigest, md5. now rewrite fold_update. Qed.

(** X1. The digest is the MD5 of the strings of the tokens, joined with
    nothing between them: records whose tokens join to the same text have
    the same digest. *)
Theorem hash_dict_of_joined_tokens :
  (forall d,
     hash_dict d = MD5.hexdigest (encode_utf8 (token_text (flat (ordered d))))) /\
  (forall d1 d2,
     token_text (flat (ordered d1)) = token_text (flat (ordered d2)) ->
     hash_dict d1 = hash_dict d2).
Proof.
  split; [exact hash_dict_joined|].
  intros d1 d2 E. now rewrite !hash_dict_joined, E.
Qed.

Lemma hash_dict_of_joined_tokens_witness :
  hash_dict (VDict [("a", VStr "bc")]) = hash_dict (VDict [("ab", VStr "c")]).
Proof.
  apply (proj2 hash_dict_of_joined_tokens). reflexivity.
Defined.

(** ** hash_dict: a scalar and its string *)
Lemma insert_same_strings x y l1 l2 :
  same_strings x y -> Forall2 same_strings l1 l2 ->
  Forall2 same_strings (insert key_leb x l1) (insert key_leb y l2).
Proof.
  intros Hxy HF. induction HF as [|a b l1 l2 Hab HF IH]; simpl.
  - constructor; [exact Hxy|constructor].
  - unfold key_leb at 1 3.
    rewrite (proj1 Hxy), (proj1 Hab).
    destruct (String.leb (fst y) (fst b)).
    + constructor; [exact Hxy|]. constructor; assumption.
    + constructor; assumption.
Qed.

Lemma sort_same_strings l1 l2 :
  Forall2 same_strings l1 l2 ->
  Forall2 same_strings (sort key_leb l1) (sort key_leb l2).
Proof.
  induction 1; simpl; [constructor|]. now apply insert_same_strings.
Qed.

Lemma pairs_same_strings l1 l2 :
  Forall2 same_strings l1 l2 ->
  map py_str (flat (CSeq (map (fun p => CPair (fst p) (snd p)) l1))) =
  map py_str (flat (CSeq (map (fun p => CPair (fst p) (snd p)) l2))).
Proof.
  intros HF. simpl.
  induction HF as [|a b l1 l2 [Hk Hv] _ IH]; simpl; [reflexivity|].
  rewrite !map_app. simpl in *. now rewrite Hk, Hv, IH.
Qed.

Lemma dict_set_same_strings k v1 v2 d :
  map py_str (flat (ordered v1)) = map py_str (flat (ordered v2)) ->
  Forall2 same_strings
    (map (fun kv => (fst kv, ordered (snd kv))) (dict_set k v1 d))
    (map (fun kv => (fst kv, ordered (snd kv))) (dict_set k v2 d)).
Proof.
  intros Hv.
  assert (Hrefl : forall l : list (string * canon), Forall2 same_strings l l).
  { induction l; constructor; [split; reflexivity|assumption]. }
  induction d as [|[k0 v0] d IH]; simpl.
  - constructor; [split; [reflexivity|exact Hv]|constructor].
  - destruct (String.eqb k k0); simpl.
    + constructor; [split; [reflexivity|exact Hv]|apply Hrefl].
    + constructor; [split; reflexivity|exact IH].
Qed.

(** X2. The digest does not tell a scalar from its string: a record with
    a number, a boolean or null in a field and the record with
    [str] of it there, ["1"] for [1], ["True"] for [true], ["None"] for
    null, have the same digest. *)
Theorem hash_dict_scalar_as_string d k v t :
  scalar_token v = Some t ->
  hash_dict (VDict (dict_set k v d)) =
  hash_dict (VDict (dict_set k (VStr (py_str t)) d)).
Proof.
  intros Ht. rewrite !hash_dict_joined. unfold token_text. do 3 f_equal.
  unfold ordered; fold ordered.
  apply pairs_same_strings, sort_same_strings, dict_set_same_strings.
  destruct v; inversion Ht; reflexivity.
Qed.

Lemma hash_dict_scalar_as_string_witness :
  hash_dict (VDict [("host", VStr "Avian"); ("year", VNum 2009)]) =
  hash_dict (VDict [("host", VStr "Avian"); ("year", VStr "2009")]).
Proof.
  apply (hash_dict_scalar_as_string
           [("host", VStr "Avian"); ("year", VNull)] "year" (VNum 2009) (TNum 2009)).
  reflexivity.
Defined.

(** ** hash_dict: the shape of the digest *)
Lemma le_bytes_length n x : List.length (MD5.le_bytes n x) = n.
Proof. unfold MD5.le_bytes. now rewrite length_map, length_seq. Qed.

Lemma le_bytes_range n x : Forall (fun b => (0 <= b < 256)%Z) (MD5.le_bytes n x).
Proof.
  unfold MD5.le_bytes. apply Forall_forall. intros b Hb.
  apply in_map_iff in Hb. destruct Hb as [i [<- _]].
  change 255%Z with (Z.ones 8). rewrite Z.land_ones by lia.
  apply Z.mod_pos_bound. reflexivity.
Qed.

Lemma hex_digit_is_hex x : (0 <= x < 16)%Z -> is_hex_digit (MD5.hex_digit x) = true.
Proof.
  intros H. unfold MD5.hex_digit.
  assert (Hn : Z.to_nat x < 16) by lia.
  destruct (Z.to_nat x) as [|[|[|[|[|[|[|[|[|[|[|[|[|[|[|[|n]]]]]]]]]]]]]]]];
    try reflexivity; lia.
Qed.

Lemma hex_shape bs :
  Forall (fun b => (0 <= b < 256)%Z) bs ->
  String.length (MD5.hex bs) = 2 * List.length bs /\
  forallb is_hex_digit (list_ascii_of_string (MD5.hex bs)) = true.
Proof.
  induction 1 as [|b bs Hb _ [IHl IHd]]; [split; reflexivity|].
  split.
  - simpl MD5.hex. simpl String.length. rewrite IHl. simpl. lia.
  - simpl MD5.hex. simpl list_ascii_of_string. simpl forallb.
    rewrite IHd, !hex_digit_is_hex; [reflexivity| |].
    + apply Z.mod_pos_bound. reflexivity.
    + split; [apply Z.div_pos; lia|apply Z.div_lt_upper_bound; lia].
Qed.

(** X3. The digest is a string of 32 hexadecimal digits in lower case,
    whatever the record. *)
Theorem hash_dict_is_hex_32 d :
  String.length (hash_dict d) = 32 /\
  forallb is_hex_digit (list_ascii_of_string (hash_dict d)) = true.
Proof.
  rewrite hash_dict_joined. unfold MD5.hexdigest.
  set (msg := encode_utf8 _).
  assert (Hr : Forall (fun b => (0 <= b < 256)%Z) (MD5.digest msg)).
  { unfold MD5.digest. cbv zeta. repeat (apply Forall_app; split);
      apply le_bytes_range. }
  destruct (hex_shape _ Hr) as [Hl Hd]. split; [|exact Hd].
  rewrite Hl. unfold MD5.digest. cbv zeta.
  now rewrite !length_app, !le_bytes_length.
Qed.

(** ** The commands keep the cell well formed *)
Lemma json_record_id d v : json_record d -> dict_get "_id" d = Some v -> has_oid v = false.
Proof.
  unfold json_record. simpl. intros H Hid.
  destruct (has_oid v) eqn:E; [|reflexivity].
  rewrite <- H. symmetry. apply existsb_exists.
  exists ("_id", v). split; [now apply dict_get_In|exact E].
Qed.

Lemma json_record_field_not_oid d n : json_record d -> field "_id" d <> VOid n.
Proof.
  intros H E. unfold field in E. rewrite resolve_id in E.
  destruct (dict_get "_id" d) as [v|] eqn:Hid; [|discriminate].
  subst v. apply (json_record_id _ _ H) in Hid. discriminate.
Qed.

Lemma existsb_false_forall {A} (p : A -> bool) l :
  existsb p l = false -> forall x, In x l -> p x = false.
Proof.
  intros H x Hin. destruct (p x) eqn:E; [|reflexivity].
  rewrite <- H. symmetry. apply existsb_exists. now exists x.
Qed.

Lemma insert_one_ok d c : cell_ok c -> json_record d -> cell_ok (snd (insert_one d c)).
Proof.
  intros [Hnd [Hhas Hoid]] Hj. unfold insert_one, dict_has.
  destruct (dict_get "_id" d) as [v|] eqn:Hid.
  - destruct (collides _ d (docs c)) eqn:Hc; [repeat split; assumption|].
    unfold collides in Hc. cbn [existsb] in Hc. apply orb_false_iff in Hc.
    destruct Hc as [Hc _]. simpl snd. unfold cell_ok. cbn [docs next_oid].
    rewrite map_app, !Forall_app. repeat split; auto.
    + apply NoDup_app; [exact Hnd|repeat constructor; simpl; tauto|].
      intros x Hx [<-|[]]. apply in_map_iff in Hx. destruct Hx as [e [He Hin]].
      pose proof (existsb_false_forall _ _ Hc e Hin) as Hm.
      unfold matches in Hm. rewrite He, value_eqb_refl in Hm. discriminate.
    + constructor; [|constructor]. unfold dict_has. now rewrite Hid.
    + constructor; [|constructor]. intros n E.
      exfalso. exact (json_record_field_not_oid d n Hj E).
  - set (d' := dict_set "_id" (VOid (next_oid c)) d).
    destruct (collides _ d' (docs c)); [repeat split; assumption|].
    simpl snd. unfold cell_ok. cbn [docs next_oid].
    assert (Hf : field "_id" d' = VOid (next_oid c))
      by (apply field_id, dict_get_set_same).
    rewrite map_app, !Forall_app. repeat split; auto.
    + apply NoDup_app; [exact Hnd|repeat constructor; simpl; tauto|].
      intros x Hx [<-|[]]. apply in_map_iff in Hx. destruct Hx as [e [He Hin]].
      rewrite Forall_forall in Hoid. rewrite Hf in He.
      specialize (Hoid e Hin _ He). lia.
    + constructor; [|constructor]. unfold dict_has, d'.
      now rewrite dict_get_set_same.
    + eapply Forall_impl; [|exact Hoid]. intros e He n E.
      specialize (He n E). lia.
    + constructor; [|constructor]. intros n E. rewrite Hf in E.
      inversion E. lia.
Qed.

Lemma replace_first_ids v d ds :
  field "_id" d = v ->
  map (field "_id") (replace_first "_id" v d ds) = map (field "_id") ds.
Proof.
  intros Hd. induction ds as [|e ds IH]; simpl; [reflexivity|].
  destruct (matches "_id" v e) eqn:E; simpl.
  - unfold matches in E. apply value_eqb_eq in E. now rewrite Hd, E.
  - now rewrite IH.
Qed.

Lemma replace_first_Forall (P : record -> Prop) v d ds :
  P d -> Forall P ds -> Forall P (replace_first "_id" v d ds).
Proof.
  intros Hd. induction 1 as [|e ds He Hds IH]; simpl; [constructor|].
  destruct (matches "_id" v e); constructor; auto.
Qed.

Lemma replace_first_length v d ds :
  List.length (replace_first "_id" v d ds) = List.length ds.
Proof.
  induction ds as [|e ds IH]; simpl; [reflexivity|].
  destruct (matches "_id" v e); simpl; auto.
Qed.

Lemma find_one_and_replace_ok d c v :
  cell_ok c -> json_record d -> dict_get "_id" d = Some v ->
  cell_ok (snd (find_one_and_replace "_id" v d c)).
Proof.
  intros [Hnd [Hhas Hoid]] Hj Hid. unfold find_one_and_replace.
  destruct (find _ (docs c)); [|repeat split; assumption].
  destruct (collides _ d _); [repeat split; assumption|].
  simpl snd. unfold cell_ok. cbn [docs next_oid].
  rewrite (replace_first_ids v d (docs c) (field_id _ _ Hid)).
  repeat split; auto.
  - apply replace_first_Forall; [|exact Hhas]. unfold dict_has. now rewrite Hid.
  - apply replace_first_Forall; [|exact Hoid].
    intros n E. exfalso. exact (json_record_field_not_oid d n Hj E).
Qed.

Lemma for_each_keeps {A B} (P : cell -> Prop) (Q : A -> Prop)
  (body : A -> B -> M B) :
  (forall x acc c, Q x -> P c -> P (snd (body x acc c))) ->
  forall xs acc c, Forall Q xs -> P c -> P (snd (for_each xs body acc c)).
Proof.
  intros Hb. induction xs as [|x xs IH]; intros acc c HQ HP; [exact HP|].
  inversion HQ as [|? ? Hx HQ']; subst.
  simpl. unfold bind. specialize (Hb x acc c Hx HP).
  destruct (body x acc c) as [[acc'|e] c']; simpl in Hb; auto.
Qed.

Lemma pull_line_ok l t c : json_record l -> cell_ok c -> cell_ok (snd (Cell.pull_line l t c)).
Proof.
  intros Hj Hok. unfold Cell.pull_line, bind, getitem.
  destruct (dict_get "_id" l) as [_id|] eqn:Hid; [|exact Hok].
  unfold ret at 1. destruct (dict_get "md5" l) as [m|]; [|exact Hok].
  unfold ret at 1. unfold find_one_excluding.
  destruct (negb (truthy _)).
  - pose proof (insert_one_ok l c Hok Hj) as H.
    destruct (insert_one l c) as [[u|e] c']; exact H.
  - destruct (value_eqb m _); [exact Hok|].
    pose proof (find_one_and_replace_ok l c _id Hok Hj Hid) as H.
    destruct (find_one_and_replace "_id" _id l c) as [[u|e] c']; exact H.
Qed.

(** X4. [pull] keeps the [_id]s of the cell pairwise distinct, and every
    record with its [_id], whatever the snapshot holds and also when it
    stops on an error. *)
Theorem pull_keeps_cell_ok file c :
  Forall json_record file -> cell_ok c -> cell_ok (snd (Cell.pull file c)).
Proof.
  intros Hf Hc. unfold Cell.pull.
  apply (for_each_keeps cell_ok json_record); auto.
  intros x acc c0. apply pull_line_ok.
Qed.

Ltac cell_ok_tac :=
  unfold cell_ok; repeat split;
  [ vm_compute; repeat constructor; simpl; intuition discriminate
  | repeat constructor
  | repeat constructor; intros n E; vm_compute in E; discriminate ].

Lemma pull_keeps_cell_ok_witness :
  cell_ok (snd (Cell.pull Sample.file_stale_md5 Sample.cell_a)).
Proof.
  apply pull_keeps_cell_ok.
  - repeat constructor.
  - cell_ok_tac.
Defined.

Lemma add_line_id_ok l n c : json_record l -> cell_ok c -> cell_ok (snd (Cell.add_line_id l n c)).
Proof.
  intros Hj Hok. unfold Cell.add_line_id, except_duplicate, bind.
  pose proof (insert_one_ok l c Hok Hj) as H.
  destruct (insert_one l c) as [[u|[k| |]] c']; exact H.
Qed.

Lemma add_line_key_ok pk l n c :
  json_record l -> cell_ok c -> cell_ok (snd (Cell.add_line_key pk l n c)).
Proof.
  intros Hj Hok. unfold Cell.add_line_key, bind, find_one.
  destruct (truthy _); [exact Hok|].
  pose proof (insert_one_ok l c Hok Hj) as H.
  destruct (insert_one l c) as [[u|e] c']; exact H.
Qed.

Lemma create_index_docs key c :
  docs (snd (create_index key c)) = docs c /\
  next_oid (snd (create_index key c)) = next_oid c.
Proof. unfold create_index. destruct (has_duplicate _); split; reflexivity. Qed.

Lemma cell_ok_same_docs c c' :
  docs c' = docs c -> next_oid c' = next_oid c -> cell_ok c -> cell_ok c'.
Proof. unfold cell_ok. now intros -> ->. Qed.

(** X5. [add] keeps the [_id]s of the cell pairwise distinct, with
    either kind of primary key, and also when it stops on an error. *)
Theorem add_keeps_cell_ok file primkey c :
  Forall json_record file -> cell_ok c -> cell_ok (snd (Cell.add file primkey c)).
Proof.
  intros Hf Hc. unfold Cell.add.
  destruct (String.eqb primkey "_id").
  - apply (for_each_keeps cell_ok json_record); auto.
    intros x acc c0. apply add_line_id_ok.
  - unfold bind at 1, index_information. unfold bind.
    destruct (existsb _ _).
    + unfold ret at 1. apply (for_each_keeps cell_ok json_record); auto.
      intros x acc c0. apply add_line_key_ok.
    + destruct (create_index_docs primkey c) as [Hd Hn].
      assert (Hc' : cell_ok (snd (create_index primkey c)))
        by (eapply cell_ok_same_docs; eauto).
      destruct (create_index primkey c) as [[u|e] c']; simpl in *; [|exact Hc'].
      apply (for_each_keeps cell_ok json_record); auto.
      intros x acc c0. apply add_line_key_ok.
Qed.

Lemma add_keeps_cell_ok_witness :
  cell_ok (snd (Cell.add Sample.file_no_key "genbank.a" Sample.cell_a)).
Proof.
  apply add_keeps_cell_ok.
  - repeat constructor.
  - cell_ok_tac.
Defined.





(** ** pull: the tally *)
Lemma pull_line_effect l t c t' c' :
  Cell.pull_line l t c = (Ok t', c') ->
  (t' = Cell.mkTally (Cell.nochange t) (Cell.replaced t) (S (Cell.inserted t)) /\
   c' = mkCell (docs c ++ [l]) (indexes c) (next_oid c)) \/
  (t' = Cell.mkTally (S (Cell.nochange t)) (Cell.replaced t) (Cell.inserted t) /\
   c' = c) \/
  (t' = Cell.mkTally (Cell.nochange t) (S (Cell.replaced t)) (Cell.inserted t) /\
   exists _id, dict_get "_id" l = Some _id /\
     c' = mkCell (replace_first "_id" _id l (docs c)) (indexes c) (next_oid c)).
Proof.
  unfold Cell.pull_line, bind, getitem.
  destruct (dict_get "_id" l) as [_id|] eqn:Hid; [|discriminate].
  unfold ret at 1. destruct (dict_get "md5" l) as [m|]; [|discriminate].
  unfold ret at 1. unfold find_one_excluding.
  destruct (find (matches "_id" _id) (docs c)) as [e|] eqn:Hf; cbn [option_map].
  - destruct (fold_left _ _ e) as [|kv rest]; cbn [truthy negb].
    + rewrite (insert_one_with_id _ _ _ Hid).
      destruct (collides _ _ _); [discriminate|].
      intros H. inversion H; subst. left. split; reflexivity.
    + destruct (value_eqb m _).
      * intros H. inversion H; subst. right. left. split; reflexivity.
      * unfold find_one_and_replace. rewrite Hf.
        destruct (collides _ _ _); [discriminate|].
        intros H. inversion H; subst. right. right.
        split; [reflexivity|]. exists _id. split; reflexivity.
  - cbn [truthy negb]. rewrite (insert_one_with_id _ _ _ Hid).
    destruct (collides _ _ _); [discriminate|].
    intros H. inversion H; subst. left. split; reflexivity.
Qed.

(** X7. When [pull] returns, every line of the snapshot is counted once,
    as unchanged, replaced or inserted; the cell has as many records
    more as were inserted, and its indexes are as before: [pull] never
    removes a record. *)
Theorem pull_tally file c t c' :
  Cell.pull file c = (Ok t, c') ->
  Cell.nochange t + Cell.replaced t + Cell.inserted t = List.length file /\
  List.length (docs c') = List.length (docs c) + Cell.inserted t /\
  indexes c' = indexes c /\ next_oid c' = next_oid c.
Proof.
  unfold Cell.pull.
  assert (G : forall file t0 c0 t c',
             for_each file Cell.pull_line t0 c0 = (Ok t, c') ->
             Cell.nochange t + Cell.replaced t + Cell.inserted t
             = Cell.nochange t0 + Cell.replaced t0 + Cell.inserted t0
               + List.length file /\
             List.length (docs c') + Cell.inserted t0
             = List.length (docs c0) + Cell.inserted t /\
             indexes c' = indexes c0 /\ next_oid c' = next_oid c0).
  { clear. induction file as [|l file IH]; intros t0 c0 t c' H.
    - inversion H; subst. simpl. repeat split; lia.
    - simpl in H. unfold bind in H.
      destruct (Cell.pull_line l t0 c0) as [[t1|e] c1] eqn:E; [|discriminate].
      apply IH in H. destruct H as [H1 [H2 [H3 H4]]].
      apply pull_line_effect in E.
      destruct E as [[-> ->]|[[-> ->]|[-> [_id [_ ->]]]]];
        cbn [Cell.nochange Cell.replaced Cell.inserted docs indexes next_oid] in *;
        rewrite ?length_app, ?replace_first_length in *; simpl in *;
        repeat split; try lia; assumption. }
  intros H. apply G in H. cbn in H. destruct H as [H1 [H2 [H3 H4]]].
  repeat split; try lia; assumption.
Qed.

Lemma pull_tally_witness :
  Cell.pull Sample.file_stale_md5 Sample.cell_genbank
  = (Ok (Cell.mkTally 0 1 0),
     mkCell [[("_id", VStr "a"); ("md5", VStr "0"); ("host", VStr "Avian")]] [] 0) /\
  0 + 1 + 0 = 1.
Proof.
  assert (E : Cell.pull Sample.file_stale_md5 Sample.cell_genbank
              = (Ok (Cell.mkTally 0 1 0),
                 mkCell [[("_id", VStr "a"); ("md5", VStr "0"); ("host", VStr "Avian")]]
                        [] 0)) by (vm_compute; reflexivity).
  split; [exact E|]. exact (proj1 (pull_tally _ _ _ _ E)).
Defined.

(** ** pull: new records and unusable lines *)
Lemma insert_one_new l c v :
  dict_get "_id" l = Some v -> indexes c = [] ->
  (forall e, In e (docs c) -> field "_id" e <> v) ->
  insert_one l c = (Ok tt, mkCell (docs c ++ [l]) [] (next_oid c)).
Proof.
  intros Hid Hidx Hnew. rewrite (insert_one_with_id _ _ _ Hid), Hidx.
  unfold collides. cbn [existsb]. rewrite orb_false_r, (field_id _ _ Hid).
  destruct (existsb _ (docs c)) eqn:E; [|reflexivity].
  apply existsb_exists in E. destruct E as [e [Hin Hm]].
  apply value_eqb_eq in Hm. exfalso. exact (Hnew e Hin Hm).
Qed.

Lemma find_id_none c v :
  (forall e, In e (docs c) -> field "_id" e <> v) ->
  find (matches "_id" v) (docs c) = None.
Proof.
  intros H. apply find_none_iff. intros e Hin. now apply value_eqb_neq, H.
Qed.

Lemma pull_loop_new file :
  forall t c,
    indexes c = [] ->
    Forall (fun l => dict_get "_id" l <> None /\ dict_get "md5" l <> None) file ->
    NoDup (map (field "_id") file) ->
    (forall l e, In l file -> In e (docs c) -> field "_id" e <> field "_id" l) ->
    for_each file Cell.pull_line t c =
    (Ok (Cell.mkTally (Cell.nochange t) (Cell.replaced t)
                      (Cell.inserted t + List.length file)),
     mkCell (docs c ++ file) [] (next_oid c)).
Proof.
  induction file as [|l file IH]; intros t c Hidx HF Hnd Hnew.
  - simpl. rewrite Nat.add_0_r, app_nil_r.
    destruct t, c; simpl in *. now subst.
  - inversion HF as [|? ? [Hid Hmd5] HF']; subst.
    inversion Hnd as [|? ? Hn Hnd']; subst.
    destruct (dict_get "_id" l) as [v|] eqn:Ev; [|contradiction].
    destruct (dict_get "md5" l) as [m|] eqn:Em; [|contradiction].
    assert (Hl : forall e, In e (docs c) -> field "_id" e <> v).
    { intros e He. rewrite <- (field_id _ _ Ev). apply Hnew; [now left|exact He]. }
    simpl. unfold bind.
    rewrite (pull_line_missing _ _ _ _ _ Ev Em (find_id_none c v Hl)).
    unfold bind. rewrite (insert_one_new _ _ _ Ev Hidx Hl). unfold ret at 1.
    rewrite IH; auto.
    + cbn [Cell.nochange Cell.replaced Cell.inserted docs next_oid].
      rewrite <- app_assoc. simpl. now rewrite Nat.add_succ_r.
    + cbn [docs]. intros l' e Hl' He. apply in_app_or in He.
      destruct He as [He|[<-|[]]].
      * apply Hnew; [now right|exact He].
      * intros E. apply Hn. rewrite E. now apply in_map.
Qed.

(** X8. [pull] of a snapshot into a cell that has none of its [_id]s,
    and no index, inserts every record: the lines of the snapshot, as
    they are and in their order, come after the records of the cell. *)
Theorem pull_loads_new_records file c :
  indexes c = [] ->
  Forall (fun l => dict_get "_id" l <> None /\ dict_get "md5" l <> None) file ->
  NoDup (map (field "_id") file) ->
  (forall l e, In l file -> In e (docs c) -> field "_id" e <> field "_id" l) ->
  Cell.pull file c =
  (Ok (Cell.mkTally 0 0 (List.length file)),
   mkCell (docs c ++ file) [] (next_oid c)).
Proof.
  intros Hidx HF Hnd Hnew. unfold Cell.pull.
  now rewrite (pull_loop_new file _ c Hidx HF Hnd Hnew).
Qed.

Lemma pull_loads_new_records_witness :
  Cell.pull Sample.file_stale_md5 Sample.empty_cell
  = (Ok (Cell.mkTally 0 0 1), mkCell Sample.file_stale_md5 [] 0).
Proof.
  apply (pull_loads_new_records Sample.file_stale_md5 Sample.empty_cell).
  - reflexivity.
  - repeat constructor; discriminate.
  - vm_compute. repeat constructor; simpl; intuition discriminate.
  - intros l e _ [].
Defined.

(** X9. A line without [_id] or without [md5] ends [pull] in the key
    error of the missing field; the lines before it stay applied and the
    line itself does not reach the store. *)
Theorem pull_line_without_keys loaded l rest c t1 c1 :
  Cell.pull loaded c = (Ok t1, c1) ->
  (dict_get "_id" l = None ->
   Cell.pull (loaded ++ l :: rest) c = (Raise (KeyError "_id"), c1)) /\
  (dict_get "_id" l <> None -> dict_get "md5" l = None ->
   Cell.pull (loaded ++ l :: rest) c = (Raise (KeyError "md5"), c1)).
Proof.
  unfold Cell.pull. intros H. split.
  - intros Hid. rewrite for_each_app, H. simpl.
    unfold bind at 1. unfold Cell.pull_line, bind, getitem. now rewrite Hid.
  - intros Hid Hmd5. rewrite for_each_app, H. simpl.
    unfold bind at 1. unfold Cell.pull_line, bind, getitem.
    destruct (dict_get "_id" l); [|contradiction]. now rewrite Hmd5.
Qed.

Lemma pull_line_without_keys_witness :
  Cell.pull (Sample.file_stale_md5 ++ [[("_id", VStr "b"); ("host", VStr "Human")]])
            Sample.empty_cell
  = (Raise (KeyError "md5"), mkCell Sample.file_stale_md5 [] 0).
Proof.
  refine (proj2 (pull_line_without_keys Sample.file_stale_md5
                   [("_id", VStr "b"); ("host", VStr "Human")] []
                   Sample.empty_cell (Cell.mkTally 0 0 1)
                   (mkCell Sample.file_stale_md5 [] 0) _) _ _).
  - reflexivity.
  - discriminate.
  - reflexivity.
Defined.

(** ** add: what is loaded and what is skipped *)
Lemma collides_app keys d ds more :
  collides keys d ds = true -> collides keys d (ds ++ more) = true.
Proof.
  unfold collides. intros H. apply existsb_exists in H.
  destruct H as [k [Hk H]]. apply existsb_exists. exists k. split; [exact Hk|].
  rewrite existsb_app, H. reflexivity.
Qed.

Lemma add_by_id file c :
  Cell.add file "_id" c = for_each file Cell.add_line_id (0, 0) c.
Proof. reflexivity. Qed.

Lemma add_line_id_with_id l n c v :
  dict_get "_id" l = Some v ->
  Cell.add_line_id l n c =
  if collides ("_id" :: indexes c) l (docs c) then (Ok (fst n, S (snd n)), c)
  else (Ok (S (fst n), snd n), mkCell (docs c ++ [l]) (indexes c) (next_oid c)).
Proof.
  intros Hid. unfold Cell.add_line_id, except_duplicate, bind.
  rewrite (insert_one_with_id _ _ _ Hid). now destruct (collides _ _ _).
Qed.

Lemma collides_self l v idx ds :
  dict_get "_id" l = Some v -> collides ("_id" :: idx) l (ds ++ [l]) = true.
Proof.
  intros Hid. unfold collides. cbn [existsb]. apply orb_true_iff. left.
  rewrite existsb_app. apply orb_true_iff. right. cbn [existsb].
  unfold matches. now rewrite value_eqb_refl.
Qed.

Lemma add_id_loop_grows file :
  forall n c r c1,
    Forall (fun l => dict_get "_id" l <> None) file ->
    for_each file Cell.add_line_id n c = (Ok r, c1) ->
    indexes c1 = indexes c /\
    (exists more, docs c1 = docs c ++ more) /\
    Forall (fun l => collides ("_id" :: indexes c1) l (docs c1) = true) file.
Proof.
  induction file as [|l file IH]; intros n c r c1 HF H.
  - inversion H; subst. split; [reflexivity|]. split; [|constructor].
    exists []. now rewrite app_nil_r.
  - inversion HF as [|? ? Hid HF']; subst.
    destruct (dict_get "_id" l) as [v|] eqn:Ev; [|contradiction].
    simpl in H. unfold bind in H. rewrite (add_line_id_with_id _ _ _ _ Ev) in H.
    destruct (collides ("_id" :: indexes c) l (docs c)) eqn:Hc.
    + destruct (IH _ _ _ _ HF' H) as [Hi [[more Hm] Hall]].
      split; [exact Hi|]. split; [now exists more|].
      constructor; [|exact Hall].
      rewrite Hi, Hm. now apply collides_app.
    + destruct (IH _ _ _ _ HF' H) as [Hi [[more Hm] Hall]].
      cbn [docs indexes] in *.
      split; [exact Hi|]. split.
      * exists ([l] ++ more). now rewrite Hm, <- app_assoc.
      * constructor; [|exact Hall].
        rewrite Hi, Hm. apply collides_app. now apply (collides_self l v).
Qed.

Lemma add_id_loop_all_duplicates file :
  forall n c,
    Forall (fun l => dict_get "_id" l <> None) file ->
    Forall (fun l => collides ("_id" :: indexes c) l (docs c) = true) file ->
    for_each file Cell.add_line_id n c = (Ok (fst n, snd n + List.length file), c).
Proof.
  induction file as [|l file IH]; intros n c HF HC.
  - simpl. rewrite Nat.add_0_r. now destruct n.
  - inversion HF as [|? ? Hid HF']; subst.
    inversion HC as [|? ? Hc HC']; subst.
    destruct (dict_get "_id" l) as [v|] eqn:Ev; [|contradiction].
    simpl. unfold bind. rewrite (add_line_id_with_id _ _ _ _ Ev), Hc.
    rewrite IH by assumption. simpl. now rewrite Nat.add_succ_r.
Qed.

(** X10. [add] with the primary key [_id] is idempotent on records that
    carry an [_id]: a second [add] of the same file inserts nothing,
    counts every line as a duplicate and leaves the cell as the first
    left it. *)
Theorem add_twice_all_duplicates file c r c1 :
  Forall (fun l => dict_get "_id" l <> None) file ->
  Cell.add file "_id" c = (Ok r, c1) ->
  Cell.add file "_id" c1 = (Ok (0, List.length file), c1).
Proof.
  rewrite !add_by_id. intros HF H.
  apply add_id_loop_grows in H; [|exact HF].
  destruct H as [_ [_ Hall]].
  now rewrite (add_id_loop_all_duplicates file (0, 0) c1 HF Hall).
Qed.

Lemma add_twice_all_duplicates_witness :
  Cell.add Sample.file_a_b "_id"
    (mkCell [[("_id", VStr "a")]; [("_id", VStr "b")]] [] 0)
  = (Ok (0, 2), mkCell [[("_id", VStr "a")]; [("_id", VStr "b")]] [] 0).
Proof.
  apply (add_twice_all_duplicates Sample.file_a_b Sample.cell_a (1, 1)).
  - repeat constructor; discriminate.
  - reflexivity.
Defined.

Lemma add_id_loop_new file :
  forall n c,
    indexes c = [] ->
    Forall (fun l => dict_get "_id" l <> None) file ->
    NoDup (map (field "_id") file) ->
    (forall l e, In l file -> In e (docs c) -> field "_id" e <> field "_id" l) ->
    for_each file Cell.add_line_id n c =
    (Ok (fst n + List.length file, snd n),
     mkCell (docs c ++ file) [] (next_oid c)).
Proof.
  induction file as [|l file IH]; intros n c Hidx HF Hnd Hnew.
  - simpl. rewrite Nat.add_0_r, app_nil_r.
    destruct n, c; simpl in *. now subst.
  - inversion HF as [|? ? Hid HF']; subst.
    inversion Hnd as [|? ? Hn Hnd']; subst.
    destruct (dict_get "_id" l) as [v|] eqn:Ev; [|contradiction].
    assert (Hl : forall e, In e (docs c) -> field "_id" e <> v).
    { intros e He. rewrite <- (field_id _ _ Ev). apply Hnew; [now left|exact He]. }
    simpl. unfold bind.
    rewrite (add_line_id_inserted l n c _ (insert_one_new _ _ _ Ev Hidx Hl)).
    rewrite IH; auto.
    + cbn [fst snd docs next_oid].
      rewrite <- app_assoc. simpl. now rewrite Nat.add_succ_r.
    + cbn [docs]. intros l' e Hl' He. apply in_app_or in He.
      destruct He as [He|[<-|[]]].
      * apply Hnew; [now right|exact He].
      * intros E. apply Hn. rewrite E. now apply in_map.
Qed.

(** X11. [add] with the primary key [_id] of records whose [_id]s are
    pairwise distinct and new to a cell without index inserts them all,
    as they are and in their order, and counts no duplicate. *)
Theorem add_loads_new_records file c :
  indexes c = [] ->
  Forall (fun l => dict_get "_id" l <> None) file ->
  NoDup (map (field "_id") file) ->
  (forall l e, In l file -> In e (docs c) -> field "_id" e <> field "_id" l) ->
  Cell.add file "_id" c =
  (Ok (List.length file, 0), mkCell (docs c ++ file) [] (next_oid c)).
Proof.
  intros Hidx HF Hnd Hnew. rewrite add_by_id.
  now rewrite (add_id_loop_new file (0, 0) c Hidx HF Hnd Hnew).
Qed.

Lemma add_loads_new_records_witness :
  Cell.add Sample.file_no_key "_id" Sample.cell_a
  = (Ok (2, 0),
     mkCell ([("_id", VStr "a")] :: Sample.file_no_key) [] 0).
Proof.
  apply (add_loads_new_records Sample.file_no_key Sample.cell_a).
  - reflexivity.
  - repeat constructor; discriminate.
  - vm_compute. repeat constructor; simpl; intuition discriminate.
  - intros l e [<-|[<-|[]]] [<-|[]]; vm_compute; discriminate.
Defined.

(** X12. Deduplication: a record whose primary key value is the one of a
    record of the cell is counted as a duplicate and not inserted, with
    [_id] for the key and with any other key. *)
Theorem add_skips_known_key :
  (forall l n c v e,
     dict_get "_id" l = Some v -> In e (docs c) -> field "_id" e = v ->
     Cell.add_line_id l n c = (Ok (fst n, S (snd n)), c)) /\
  (forall primkey d n c e,
     (forall e', In e' (docs c) -> e' <> []) ->
     In e (docs c) -> field primkey e = deep_get d primkey ->
     Cell.add_line_key primkey d n c = (Ok (fst n, S (snd n)), c)).
Proof.
  split.
  - intros l n c v e Hid Hin He.
    rewrite (add_line_id_with_id _ _ _ _ Hid).
    assert (Hc : collides ("_id" :: indexes c) l (docs c) = true).
    { unfold collides. cbn [existsb]. apply orb_true_iff. left.
      apply existsb_exists. exists e. split; [exact Hin|].
      unfold matches. now rewrite (field_id _ _ Hid), He, value_eqb_refl. }
    now rewrite Hc.
  - intros primkey d n c e Hne Hin He.
    unfold Cell.add_line_key, bind, find_one.
    destruct (find (matches primkey (deep_get d primkey)) (docs c)) as [e'|] eqn:E.
    + apply find_some in E. destruct E as [Hin' _].
      specialize (Hne e' Hin'). destruct e'; [contradiction|reflexivity].
    + exfalso. rewrite find_none_iff in E. specialize (E e Hin).
      unfold matches in E. now rewrite He, value_eqb_refl in E.
Qed.

Lemma add_skips_known_key_witness :
  Cell.add_line_key "genbank" [("_id", VStr "z"); ("genbank", VStr "X")] (0, 0)
    Sample.cell_genbank
  = (Ok (0, 1), Sample.cell_genbank).
Proof.
  apply (proj2 add_skips_known_key "genbank" _ (0, 0) Sample.cell_genbank
           [("_id", VStr "a"); ("genbank", VStr "X")]).
  - intros e' [<-|[]]. discriminate.
  - now left.
  - reflexivity.
Defined.

(** ** add: the index on the primary key *)
Lemma insert_one_indexes d c : indexes (snd (insert_one d c)) = indexes c.
Proof.
  unfold insert_one.
  destruct (dict_has "_id" d); destruct (collides _ _ _); reflexivity.
Qed.

Lemma add_key_loop_indexes primkey file :
  forall n c, indexes (snd (for_each file (Cell.add_line_key primkey) n c)) = indexes c.
Proof.
  induction file as [|l file IH]; intros n c; [reflexivity|].
  simpl. unfold bind.
  assert (H : indexes (snd (Cell.add_line_key primkey l n c)) = indexes c).
  { unfold Cell.add_line_key, bind, find_one.
    destruct (truthy _); [reflexivity|].
    pose proof (insert_one_indexes l c) as Hi.
    destruct (insert_one l c) as [[u|e] c']; exact Hi. }
  destruct (Cell.add_line_key primkey l n c) as [[n'|e] c']; simpl in H.
  - now rewrite IH.
  - exact H.
Qed.

Lemma add_by_key primkey file c :
  primkey <> "_id" ->
  Cell.add file primkey c =
  ((if existsb (String.eqb primkey) ("_id_" :: indexes c) then ret tt
    else create_index primkey) ;;;
   for_each file (Cell.add_line_key primkey) (0, 0)) c.
Proof.
  intros H. apply String.eqb_neq in H. unfold Cell.add. now rewrite H.
Qed.

Lemma existsb_eqb_In k l : existsb (String.eqb k) l = true <-> In k l.
Proof.
  rewrite existsb_exists. split.
  - intros [x [Hin E]]. apply String.eqb_eq in E. now subst.
  - intros H. exists k. split; [exact H|apply String.eqb_refl].
Qed.

Lemma add_key_indexes primkey file c r c1 :
  primkey <> "_id" ->
  Cell.add file primkey c = (Ok r, c1) ->
  indexes c1 =
    (if existsb (String.eqb primkey) ("_id_" :: indexes c) then indexes c
     else indexes c ++ [primkey]) /\
  (primkey <> "_id_" -> In primkey (indexes c1)) /\
  (forall file' r' c2,
     Cell.add file' primkey c1 = (Ok r', c2) -> indexes c2 = indexes c1).
Proof.
  intros Hk H.
  assert (G : forall file c r c1,
             Cell.add file primkey c = (Ok r, c1) ->
             indexes c1 =
             (if existsb (String.eqb primkey) ("_id_" :: indexes c) then indexes c
              else indexes c ++ [primkey])).
  { clear - Hk. intros file c r c1 H. rewrite (add_by_key _ _ _ Hk) in H.
    unfold bind in H.
    destruct (existsb (String.eqb primkey) ("_id_" :: indexes c)).
    - unfold ret at 1 in H.
      pose proof (add_key_loop_indexes primkey file (0, 0) c) as Hi.
      rewrite H in Hi. exact Hi.
    - unfold create_index in H.
      destruct (has_duplicate _); [discriminate|].
      pose proof (add_key_loop_indexes primkey file (0, 0)
                    (mkCell (docs c) (indexes c ++ [primkey]) (next_oid c))) as Hi.
      rewrite H in Hi. exact Hi. }
  pose proof (G _ _ _ _ H) as H1.
  assert (H2 : primkey <> "_id_" -> In primkey (indexes c1)).
  { intros Hn. rewrite H1.
    destruct (existsb (String.eqb primkey) ("_id_" :: indexes c)) eqn:E.
    - apply existsb_eqb_In in E. destruct E as [E|E]; [congruence|exact E].
    - apply in_or_app. right. now left. }
  split; [exact H1|]. split; [exact H2|].
  intros file' r' c2 H'. rewrite (G _ _ _ _ H').
  destruct (existsb (String.eqb primkey) ("_id_" :: indexes c1)) eqn:E;
    [reflexivity|].
  exfalso. destruct (String.eqb primkey "_id_") eqn:En.
  - simpl in E. rewrite En in E. discriminate.
  - apply String.eqb_neq in En. specialize (H2 En).
    assert (E' : existsb (String.eqb primkey) ("_id_" :: indexes c1) = true)
      by (apply existsb_eqb_In; now right).
    congruence.
Qed.

(** X13. [add] with a primary key other than [_id] creates the unique
    index on the key when the cell has no index of its name, and leaves
    the indexes alone otherwise: after [add] the key is indexed, and a
    second [add] with the key creates nothing. *)
Theorem add_creates_index_once primkey file c r c1 :
  primkey <> "_id" -> primkey <> "_id_" ->
  Cell.add file primkey c = (Ok r, c1) ->
  indexes c1 =
    (if existsb (String.eqb primkey) (indexes c) then indexes c
     else indexes c ++ [primkey]) /\
  In primkey (indexes c1) /\
  (forall file' r' c2,
     Cell.add file' primkey c1 = (Ok r', c2) -> indexes c2 = indexes c1).
Proof.
  intros Hk Hn H.
  destruct (add_key_indexes primkey file c r c1 Hk H) as [H1 [H2 H3]].
  split; [|split; [exact (H2 Hn)|exact H3]].
  rewrite H1. cbn [existsb].
  apply String.eqb_neq in Hn. now rewrite Hn.
Qed.

Lemma add_creates_index_once_witness :
  indexes (snd (Cell.add Sample.file_no_key "genbank.a" Sample.empty_cell))
  = ["genbank.a"].
Proof.
  refine (proj1 (add_creates_index_once "genbank.a" Sample.file_no_key
                   Sample.empty_cell (1, 1)
                   (snd (Cell.add Sample.file_no_key "genbank.a" Sample.empty_cell))
                   _ _ _)).
  - discriminate.
  - discriminate.
  - reflexivity.
Defined.

Lemma has_duplicate_app (f : record -> value) l1 e1 l2 e2 l3 :
  f e1 = f e2 ->
  has_duplicate (map f (l1 ++ e1 :: l2 ++ e2 :: l3)) = true.
Proof.
  intros E. induction l1 as [|a l1 IH]; simpl.
  - apply orb_true_iff. left. apply existsb_exists. exists (f e2). split.
    + rewrite map_app. apply in_or_app. right. now left.
    + rewrite E. apply value_eqb_refl.
  - rewrite IH. apply orb_true_r.
Qed.

(** X14. [add] with a primary key that has no index yet fails before it
    reads a line, with the duplicate key error of the store and the cell
    as it was, when two records of the cell have the same value for the
    key, two records without the key among them. *)
Theorem add_fails_on_ambiguous_key primkey file c l1 e1 l2 e2 l3 :
  primkey <> "_id" ->
  ~ In primkey ("_id_" :: indexes c) ->
  docs c = l1 ++ e1 :: l2 ++ e2 :: l3 ->
  field primkey e1 = field primkey e2 ->
  Cell.add file primkey c = (Raise DuplicateKeyError, c).
Proof.
  intros Hk Hn Hd He. rewrite (add_by_key _ _ _ Hk). unfold bind.
  destruct (existsb (String.eqb primkey) ("_id_" :: indexes c)) eqn:E.
  - apply existsb_eqb_In in E. contradiction.
  - unfold create_index. rewrite Hd.
    now rewrite (has_duplicate_app (field primkey) l1 e1 l2 e2 l3 He).
Qed.

Lemma add_fails_on_ambiguous_key_witness :
  Cell.add Sample.file_genbank "genbank" (mkCell Sample.file_no_key [] 0)
  = (Raise DuplicateKeyError, mkCell Sample.file_no_key [] 0).
Proof.
  apply (add_fails_on_ambiguous_key "genbank" Sample.file_genbank
           (mkCell Sample.file_no_key [] 0)
           [] [("_id", VStr "r"); ("host", VStr "Avian")]
           [] [("_id", VStr "s"); ("host", VStr "Human")] []).
  - discriminate.
  - simpl. intuition discriminate.
  - reflexivity.
  - reflexivity.
Defined.

(** ** commit: the store, the lines and the signatures *)

(** X15. [commit] never writes to the cell: whatever the cell holds, and
    whether the command returns or raises, the cell is afterwards what it
    was. *)
Theorem commit_never_writes ksize n c : snd (Cell.commit ksize n c) = c.
Proof. apply commit_read_only. Qed.

Lemma item_leb_total (p q : string * value) : item_leb p q = true \/ item_leb q p = true.
Proof. apply String.leb_total. Qed.

Lemma item_leb_trans (p q r : string * value) :
  item_leb p q = true -> item_leb q r = true -> item_leb p r = true.
Proof. apply string_leb_trans. Qed.

Lemma sort_keys_record_sorted d : keys_sorted (sort_keys_record d).
Proof.
  unfold keys_sorted, keys, sort_keys_record.
  pose proof (sort_sorted item_leb item_leb_total item_leb_trans
                (map (fun kv => (fst kv, sort_keys (snd kv))) d)) as H.
  induction H as [|a l _ IH Ha]; simpl; constructor; [exact IH|].
  apply Forall_forall. intros k Hk. apply in_map_iff in Hk.
  destruct Hk as [x [<- Hx]]. rewrite Forall_forall in Ha. exact (Ha x Hx).
Qed.

Lemma commit_doc_written_for d acc c lines dk c' :
  Cell.commit_doc d acc c = (Ok (lines, dk), c') ->
  exists line, lines = fst acc ++ [line] /\ written_for d line.
Proof.
  intros H. apply commit_doc_line in H.
  destruct H as [line [_id [Hl [_ [Hid [Hline [Hmd5 Hlid]]]]]]].
  exists line. split; [exact Hl|]. split; [|split; [|exact Hmd5]].
  - rewrite Hline. apply sort_keys_record_sorted.
  - intros k Hk. destruct (String.eqb k "_id") eqn:E.
    + apply String.eqb_eq in E. subst k. now rewrite Hlid, Hid.
    + apply String.eqb_neq in E. rewrite Hline, dict_get_sort_keys_record.
      now rewrite dict_get_commit_fields.
Qed.

Lemma commit_loop_written ds :
  forall acc c acc' c',
    for_each ds Cell.commit_doc acc c = (Ok acc', c') ->
    exists lines, fst acc' = fst acc ++ lines /\ Forall2 written_for ds lines.
Proof.
  induction ds as [|d ds IH]; intros acc c acc' c' H.
  - inversion H; subst. exists []. now rewrite app_nil_r.
  - simpl in H. unfold bind in H.
    destruct (Cell.commit_doc d acc c) as [[[f1 dk1]|e] c1] eqn:E; [|discriminate].
    apply commit_doc_written_for in E. destruct E as [line [Hf Hw]].
    destruct (IH _ _ _ _ H) as [lines [Hf' HF]].
    exists (line :: lines). split.
    + rewrite Hf'. simpl. rewrite Hf, <- app_assoc. reflexivity.
    + now constructor.
Qed.

(** X16. The snapshot [commit] writes has one line for every record of
    the cell, in the order of the cell.  The line has its keys in sorted
    order, every field of the record but [md5] as the record has it
    (mappings with their keys sorted), and under [md5] the fresh
    digest. *)
Theorem commit_writes_every_record ksize n c file dk c' :
  Cell.commit ksize n c = (Ok (file, dk), c') ->
  List.length file = List.length (docs c) /\
  Forall2 written_for (docs c) file.
Proof.
  intros H. unfold Cell.commit, bind, find_all in H.
  apply commit_loop_written in H. destruct H as [lines [Hf HF]].
  simpl in Hf. subst file. split; [|exact HF].
  symmetry. eapply Forall2_length; eauto.
Qed.

Lemma commit_writes_every_record_witness :
  Forall2 written_for
    [[("sequence", VStr "GG"); ("_id", VStr "b"); ("md5", VStr "stale")]]
    [[("_id", VStr "b"); ("md5", VStr "643c5c3e022c22e0e1b7b25c3c637b5f");
      ("sequence", VStr "GG")]].
Proof.
  refine (proj2 (commit_writes_every_record [16%Z] 1000
                   (mkCell [[("sequence", VStr "GG"); ("_id", VStr "b");
                             ("md5", VStr "stale")]] [] 0)
                   _ [(16%Z, Estimators 16 1000 ["GG"])] _ _)).
  vm_compute. reflexivity.
Defined.

(** X17. Every line [commit] writes carries, under [md5], the digest of
    the line itself without [_id] and [md5]: what is read back from the
    snapshot has the digest that was written with it. *)
Theorem commit_digest_is_of_the_line k ks n c file dk c1 :
  Forall (fun d => wf_value (VDict d)) (docs c) ->
  Cell.commit (k :: ks) n c = (Ok (file, dk), c1) ->
  Forall committed_line file.
Proof. apply commit_writes_committed_lines. Qed.

Lemma commit_digest_is_of_the_line_witness :
  committed_line
    [("_id", VStr "b"); ("md5", VStr "643c5c3e022c22e0e1b7b25c3c637b5f");
     ("sequence", VStr "GG")].
Proof.
  assert (H : Forall committed_line
                [[("_id", VStr "b"); ("md5", VStr "643c5c3e022c22e0e1b7b25c3c637b5f");
                  ("sequence", VStr "GG")]]).
  { apply (commit_digest_is_of_the_line 16 [] 1000
             (mkCell [[("sequence", VStr "GG"); ("_id", VStr "b");
                       ("md5", VStr "stale")]] [] 0)
             _ [(16%Z, Estimators 16 1000 ["GG"])]
             (mkCell [[("sequence", VStr "GG"); ("_id", VStr "b");
                       ("md5", VStr "stale")]] [] 0)).
    - repeat constructor; simpl; intuition discriminate.
    - vm_compute. reflexivity. }
  inversion H. assumption.
Defined.

Lemma estimators_spec ksize n :
  forall dk,
    NoDup (map fst dk) -> Forall (fresh_estimator n) dk ->
    NoDup (map fst (estimators ksize n dk)) /\
    Forall (fresh_estimator n) (estimators ksize n dk) /\
    (forall k, In k (map fst (estimators ksize n dk)) <->
               In k (map fst dk) \/ In k ksize).
Proof.
  induction ksize as [|k ksize IH]; intros dk Hnd HF; simpl.
  - split; [exact Hnd|]. split; [exact HF|]. intros k. tauto.
  - set (f := fun p : Z * estimator =>
                if Z.eqb (fst p) k then (k, Estimators k n []) else p).
    assert (Hf : map fst (map f dk) = map fst dk).
    { rewrite map_map. apply map_ext. intros p. unfold f.
      destruct (Z.eqb (fst p) k) eqn:E; [|reflexivity].
      apply Z.eqb_eq in E. simpl. congruence. }
    destruct (existsb (fun p => Z.eqb (fst p) k) dk) eqn:E.
    + destruct (IH (map f dk)) as [H1 [H2 H3]].
      * now rewrite Hf.
      * apply Forall_forall. intros p Hp. apply in_map_iff in Hp.
        destruct Hp as [q [<- Hq]]. unfold f.
        destruct (Z.eqb (fst q) k); [repeat split|].
        rewrite Forall_forall in HF. now apply HF.
      * split; [exact H1|]. split; [exact H2|].
        intros k'. rewrite H3, Hf. split; [tauto|].
        intros [H|[<-|H]]; auto.
        left. apply existsb_exists in E. destruct E as [p [Hp Hk]].
        apply Z.eqb_eq in Hk. subst. now apply in_map.
    + destruct (IH (dk ++ [(k, Estimators k n [])])) as [H1 [H2 H3]].
      * rewrite map_app. simpl.
        apply NoDup_app; [exact Hnd|repeat constructor; simpl; tauto|].
        intros x Hx [<-|[]]. apply in_map_iff in Hx. destruct Hx as [p [Hk Hp]].
        pose proof (existsb_false_forall _ _ E p Hp) as Hp'. simpl in Hp'.
        rewrite Hk, Z.eqb_refl in Hp'. discriminate.
      * apply Forall_app. split; [exact HF|]. repeat constructor.
      * split; [exact H1|]. split; [exact H2|].
        intros k'. rewrite H3, map_app, in_app_iff. simpl. tauto.
Qed.

Lemma add_sequences_fed dk d c dk' c' :
  Cell.add_sequences dk d c = (Ok dk', c') ->
  Forall2 (fed [d]) dk dk'.
Proof.
  revert dk' c'. induction dk as [|[k v] dk IH]; simpl; intros dk' c' H.
  - inversion H. constructor.
  - unfold bind, getitem in H.
    destruct (dict_get "sequence" d) as [s|] eqn:Es; [|discriminate].
    unfold ret at 1 in H. unfold add_sequence in H.
    destruct s as [ | | |s| | | ]; try discriminate. unfold ret at 1 in H.
    destruct (Cell.add_sequences dk d c) as [[dk''|e] c''] eqn:E; [|discriminate].
    inversion H; subst. constructor; [|eapply IH; eauto].
    repeat split; simpl. exists [s]. split; [|reflexivity].
    repeat constructor. exact Es.
Qed.

Lemma fed_same_sequence d d' p p' :
  dict_get "sequence" d' = dict_get "sequence" d -> fed [d'] p p' -> fed [d] p p'.
Proof.
  intros E [H1 [H2 [H3 [ss [Hs H4]]]]]. repeat split; auto.
  exists ss. split; [|exact H4].
  inversion Hs as [|? s ? ss' Hd Hss]; subst. inversion Hss; subst.
  repeat constructor. now rewrite <- E.
Qed.

Lemma fed_compose d ds dk1 dk2 dk3 :
  Forall2 (fed [d]) dk1 dk2 -> Forall2 (fed ds) dk2 dk3 ->
  Forall2 (fed (d :: ds)) dk1 dk3.
Proof.
  intros H12. revert dk3. induction H12 as [|p q dk1 dk2 Hpq _ IH]; intros dk3 H23.
  - inversion H23. constructor.
  - inversion H23 as [|? r ? dk3' Hqr H23']; subst.
    constructor; [|now apply IH].
    destruct Hpq as [A1 [A2 [A3 [s1 [Hs1 A4]]]]].
    destruct Hqr as [B1 [B2 [B3 [s2 [Hs2 B4]]]]].
    repeat split; try congruence.
    exists (s1 ++ s2). split.
    + inversion Hs1 as [|? s ? ss' Hd Hss]; subst. inversion Hss; subst.
      simpl. constructor; assumption.
    + now rewrite B4, A4, <- app_assoc.
Qed.

Lemma commit_loop_fed ds :
  forall acc c acc' c',
    for_each ds Cell.commit_doc acc c = (Ok acc', c') ->
    Forall2 (fed ds) (snd acc) (snd acc').
Proof.
  induction ds as [|d ds IH]; intros acc c acc' c' H.
  - inversion H; subst.
    induction (snd acc') as [|p l IHl]; constructor; [|exact IHl].
    repeat split. exists []. split; [constructor|now rewrite app_nil_r].
  - simpl in H. unfold bind in H.
    destruct (Cell.commit_doc d acc c) as [[acc1|e] c1] eqn:E; [|discriminate].
    apply IH in H. eapply fed_compose; [|exact H].
    clear H IH. revert E. unfold Cell.commit_doc, bind, getitem.
    destruct (dict_get "_id" d) as [_id|]; [|discriminate].
    unfold ret at 1. unfold Cell.json_dumps.
    set (d4 := dict_set "_id" _id _).
    destruct (has_oid (VDict d4)); [discriminate|]. unfold ret at 1.
    destruct (Cell.add_sequences (snd acc) d4 c) as [[dk'|e] c''] eqn:Es;
      [|discriminate].
    unfold ret. intros H. inversion H; subst. simpl.
    apply add_sequences_fed in Es.
    eapply Forall2_impl; [|exact Es].
    intros p p'. apply fed_same_sequence. unfold d4.
    apply dict_get_commit_fields; discriminate.
Qed.

(** X18. The signatures [commit] returns: one estimator for every k-mer
    size asked for, a size given twice counted once, made with the target
    count [n], and with the sequence of every record of the cell folded
    into it, in the order of the cell. *)
Theorem commit_feeds_every_estimator ksize n c file dk c' :
  Cell.commit ksize n c = (Ok (file, dk), c') ->
  NoDup (map fst dk) /\
  (forall k, In k (map fst dk) <-> In k ksize) /\
  Forall (fun p => e_ksize (snd p) = fst p /\ e_n (snd p) = n /\
                   sequences_of (docs c) (e_sequences (snd p))) dk.
Proof.
  intros H. unfold Cell.commit, bind, find_all in H.
  apply commit_loop_fed in H. simpl in H.
  destruct (estimators_spec ksize n [] (NoDup_nil _) (Forall_nil _))
    as [Hnd [Hfresh Hin]].
  assert (Hk : map fst dk = map fst (estimators ksize n [])).
  { clear - H. induction H as [|p q l l' [Hpq _] _ IH]; simpl; congruence. }
  rewrite Hk. split; [exact Hnd|]. split.
  - intros k. rewrite Hin. simpl. tauto.
  - clear Hk Hnd Hin.
    induction H as [|p q l l' [A1 [A2 [A3 [ss [Hs A4]]]]] _ IH]; constructor.
    + inversion Hfresh as [|? ? [F1 [F2 F3]] _]; subst.
      rewrite A2, A3, A1, A4, F3. simpl. auto.
    + apply IH. now inversion Hfresh.
Qed.

Lemma commit_feeds_every_estimator_witness :
  Forall (fun p => e_ksize (snd p) = fst p /\ e_n (snd p) = 1000%Z /\
                   sequences_of
                     [[("_id", VStr "a"); ("sequence", VStr "ACGT")];
                      [("_id", VStr "b"); ("sequence", VStr "GG")]]
                     (e_sequences (snd p)))
    [(16%Z, Estimators 16 1000 ["ACGT"; "GG"]);
     (31%Z, Estimators 31 1000 ["ACGT"; "GG"])].
Proof.
  refine (proj2 (proj2 (commit_feeds_every_estimator [16%Z; 31%Z; 16%Z] 1000
                          (mkCell [[("_id", VStr "a"); ("sequence", VStr "ACGT")];
                                   [("_id", VStr "b"); ("sequence", VStr "GG")]] [] 0)
                          _ _ _ _))).
  vm_compute. reflexivity.
Defined.

Lemma commit_doc_object_id d acc c m :
  dict_get "_id" d = Some (VOid m) ->
  Cell.commit_doc d acc c = (Raise TypeError, c).
Proof.
  intros Hid. unfold Cell.commit_doc, bind, getitem. rewrite Hid.
  unfold ret at 1. unfold Cell.json_dumps.
  set (d4 := dict_set "_id" (VOid m) _).
  assert (Ho : has_oid (VDict d4) = true).
  { simpl. apply existsb_exists. exists ("_id", VOid m). split; [|reflexivity].
    apply dict_get_In. unfold d4. apply dict_get_set_same. }
  now rewrite Ho.
Qed.

Lemma insert_one_grows d c : exists more, docs (snd (insert_one d c)) = docs c ++ more.
Proof.
  unfold insert_one.
  destruct (dict_has "_id" d); destruct (collides _ _ _); simpl;
    try (exists []; now rewrite app_nil_r); eexists; reflexivity.
Qed.

Lemma add_id_loop_prefix file :
  forall n c, exists more,
    docs (snd (for_each file Cell.add_line_id n c)) = docs c ++ more.
Proof.
  induction file as [|l file IH]; intros n c.
  - exists []. simpl. now rewrite app_nil_r.
  - simpl. unfold bind.
    assert (H : exists more, docs (snd (Cell.add_line_id l n c)) = docs c ++ more).
    { unfold Cell.add_line_id, except_duplicate, bind.
      destruct (insert_one_grows l c) as [more Hm].
      destruct (insert_one l c) as [[u|[k| |]] c1]; simpl in *;
        exists more; exact Hm. }
    destruct H as [more Hm].
    destruct (Cell.add_line_id l n c) as [[n1|e] c1]; simpl in Hm.
    + destruct (IH n1 c1) as [more' Hm']. exists (more ++ more').
      now rewrite Hm', Hm, app_assoc.
    + now exists more.
Qed.

(** X19. [commit] cannot write a record whose [_id] is an ObjectId of the
    store: it raises the type error of [json.dumps].  So a cell that
    [add] loaded from records without [_id] cannot be committed. *)
Theorem commit_rejects_object_ids :
  (forall ksize n c d rest m,
     docs c = d :: rest -> dict_get "_id" d = Some (VOid m) ->
     Cell.commit ksize n c = (Raise TypeError, c)) /\
  (forall l rest ksize n c,
     docs c = [] -> indexes c = [] -> dict_get "_id" l = None ->
     fst (Cell.commit ksize n (snd (Cell.add (l :: rest) "_id" c)))
     = Raise TypeError).
Proof.
  assert (G : forall ksize n c d rest m,
             docs c = d :: rest -> dict_get "_id" d = Some (VOid m) ->
             Cell.commit ksize n c = (Raise TypeError, c)).
  { intros ksize n c d rest m Hd Hid. unfold Cell.commit, bind, find_all.
    rewrite Hd. simpl. unfold bind.
    now rewrite (commit_doc_object_id d _ c m Hid). }
  split; [exact G|].
  intros l rest ksize n c Hd Hidx Hid. rewrite add_by_id. simpl. unfold bind.
  assert (Hi : insert_one l c =
               (Ok tt, mkCell [dict_set "_id" (VOid (next_oid c)) l] []
                              (N.succ (next_oid c)))).
  { unfold insert_one, dict_has. rewrite Hid, Hidx, Hd. reflexivity. }
  rewrite (add_line_id_inserted l (0, 0) c _ Hi).
  destruct (add_id_loop_prefix rest (S (fst (0, 0)), snd (0, 0))
              (mkCell [dict_set "_id" (VOid (next_oid c)) l] []
                      (N.succ (next_oid c)))) as [more Hm].
  simpl in Hm.
  erewrite G; [reflexivity|exact Hm|apply dict_get_set_same].
Qed.

Lemma commit_rejects_object_ids_witness :
  fst (Cell.commit [16%Z; 31%Z] 1000
         (snd (Cell.add [[("sequence", VStr "ACGT")]; [("_id", VStr "b")]] "_id"
                        Sample.empty_cell)))
  = Raise TypeError.
Proof.
  apply (proj2 commit_rejects_object_ids); reflexivity.
Defined.

(** ** diff: failures *)
Section DiffFailures.
Variable DeepDiff : option record -> record -> record.

(** X20. [diff] never writes to the cell, whether it returns or raises,
    and it raises the key error on [_id] at the first line of the
    snapshot that has no [_id]. *)
Theorem diff_never_writes :
  (forall file c, snd (Cell.diff DeepDiff file c) = c) /\
  (forall loaded l rest c,
     Forall (fun old => dict_get "_id" old <> None) loaded ->
     dict_get "_id" l = None ->
     Cell.diff DeepDiff (loaded ++ l :: rest) c = (Raise (KeyError "_id"), c)).
Proof.
  split; [apply diff_read_only|].
  intros loaded l rest c HF Hid. unfold Cell.diff.
  rewrite for_each_app, (diff_loop DeepDiff loaded [] c HF). simpl.
  unfold bind at 1. unfold Cell.diff_line, bind, getitem. now rewrite Hid.
Qed.
End DiffFailures.

Lemma diff_never_writes_witness :
  Cell.diff plain_diff ([[("_id", VStr "a")]] ++ [("host", VStr "Avian")] :: [])
            Sample.cell_a
  = (Raise (KeyError "_id"), Sample.cell_a).
Proof.
  apply (proj2 (diff_never_writes plain_diff)).
  - repeat constructor; discriminate.
  - reflexivity.
Defined.

(** ** zoo/cli_cell.py: dump and load *)
Lemma cli_commit_loop ds :
  forall outfile c,
    for_each ds CliCellDump.commit_doc outfile c =
    if existsb (fun d => has_oid (VDict d)) ds then (Raise TypeError, c)
    else (Ok (outfile ++ ds), c).
Proof.
  induction ds as [|d ds IH]; intros outfile c.
  - simpl. now rewrite app_nil_r.
  - cbn [for_each existsb]. unfold bind. unfold CliCellDump.commit_doc at 1.
    destruct (has_oid (VDict d)); [reflexivity|].
    unfold ret at 1. cbv beta iota. rewrite IH. cbn [orb].
    destruct (existsb (fun d0 => has_oid (VDict d0)) ds); [reflexivity|].
    now rewrite <- app_assoc.
Qed.

Lemma cli_add_file_new file :
  forall c,
    indexes c = [] ->
    Forall (fun l => dict_get "_id" l <> None) file ->
    NoDup (map (field "_id") file) ->
    (forall l e, In l file -> In e (docs c) -> field "_id" e <> field "_id" l) ->
    CliCell.add_file file c = (Ok false, mkCell (docs c ++ file) [] (next_oid c)).
Proof.
  induction file as [|l file IH]; intros c Hidx HF Hnd Hnew.
  - simpl. rewrite app_nil_r. destruct c; simpl in *. now subst.
  - inversion HF as [|? ? Hid HF']; subst.
    inversion Hnd as [|? ? Hn Hnd']; subst.
    destruct (dict_get "_id" l) as [v|] eqn:Ev; [|contradiction].
    assert (Hl : forall e, In e (docs c) -> field "_id" e <> v).
    { intros e He. rewrite <- (field_id _ _ Ev). apply Hnew; [now left|exact He]. }
    simpl. unfold bind, except_duplicate.
    rewrite (insert_one_new _ _ _ Ev Hidx Hl). unfold ret at 1.
    rewrite IH; auto.
    + cbn [docs next_oid]. now rewrite <- app_assoc.
    + cbn [docs]. intros l' e Hl' He. apply in_app_or in He.
      destruct He as [He|[<-|[]]].
      * apply Hnew; [now right|exact He].
      * intros E. apply Hn. rewrite E. now apply in_map.
Qed.

(** X21. The [add] of [zoo/cli_cell.py] loads a file whose records have
    pairwise distinct [_id]s, new to a cell without index, in full: the
    records come after those of the cell, as they are and in their order,
    and loading is not aborted. *)
Theorem cli_add_loads_new_records file c :
  indexes c = [] ->
  Forall (fun l => dict_get "_id" l <> None) file ->
  NoDup (map (field "_id") file) ->
  (forall l e, In l file -> In e (docs c) -> field "_id" e <> field "_id" l) ->
  CliCell.add [file] c = (Ok false, mkCell (docs c ++ file) [] (next_oid c)).
Proof.
  intros Hidx HF Hnd Hnew. simpl. unfold bind.
  now rewrite (cli_add_file_new file c Hidx HF Hnd Hnew).
Qed.

Lemma cli_add_loads_new_records_witness :
  CliCell.add [Sample.file_no_key] Sample.cell_a
  = (Ok false, mkCell ([("_id", VStr "a")] :: Sample.file_no_key) [] 0).
Proof.
  apply (cli_add_loads_new_records Sample.file_no_key Sample.cell_a).
  - reflexivity.
  - repeat constructor; discriminate.
  - vm_compute. repeat constructor; simpl; intuition discriminate.
  - intros l e [<-|[<-|[]]] [<-|[]]; vm_compute; discriminate.
Defined.

(** X22. Dump and load: what the [commit] of [zoo/cli_cell.py] writes for
    a cell, loaded by the [add] of the same file into an empty cell, is
    the cell again, record for record. *)
Theorem cli_commit_add_round_trip c file c1 n0 :
  cell_ok c ->
  CliCellDump.commit c = (Ok file, c1) ->
  file = docs c /\ c1 = c /\
  CliCell.add [file] (mkCell [] [] n0) = (Ok false, mkCell (docs c) [] n0).
Proof.
  intros [Hnd [Hhas _]] H. unfold CliCellDump.commit, bind, find_all in H.
  rewrite cli_commit_loop in H.
  destruct (existsb (fun d => has_oid (VDict d)) (docs c)); [discriminate|].
  { injection H as Hf Hc. subst c1. simpl in Hf. subst file.
    simpl. split; [reflexivity|]. split; [reflexivity|].
    unfold bind.
    assert (HF : Forall (fun l => dict_get "_id" l <> None) (docs c)).
    { eapply Forall_impl; [|exact Hhas]. intros d Hd. unfold dict_has in Hd.
      destruct (dict_get "_id" d); discriminate. }
    assert (Hnew : forall l e, In l (docs c) -> In e (docs (mkCell [] [] n0)) ->
                               field "_id" e <> field "_id" l)
      by (intros l e _ []).
    now rewrite (cli_add_file_new (docs c) (mkCell [] [] n0) eq_refl HF Hnd Hnew). }
Qed.

Lemma cli_commit_add_round_trip_witness :
  CliCell.add [Sample.file_no_key] Sample.empty_cell
  = (Ok false, mkCell Sample.file_no_key [] 0).
Proof.
  refine (proj2 (proj2 (cli_commit_add_round_trip
                          (mkCell Sample.file_no_key [] 7) Sample.file_no_key
                          (mkCell Sample.file_no_key [] 7) 0 _ _))).
  - cell_ok_tac.
  - reflexivity.
Defined.

(** ** drop, add, status *)

(** X23. A dropped cell is an empty cell without index: [add] of records
    with pairwise distinct [_id]s after [drop] loads them all, whatever
    the cell held, and [status] then counts as many records as the file
    has lines.  A declined confirmation leaves the cell as it is. *)
Theorem drop_then_add file c :
  Forall (fun l => dict_get "_id" l <> None) file ->
  NoDup (map (field "_id") file) ->
  (CellAdmin.drop ;;; Cell.add file "_id") c
  = (Ok (List.length file, 0), mkCell file [] (next_oid c)) /\
  (CellAdmin.drop ;;; Cell.add file "_id" ;;; CellAdmin.status false) c
  = (Ok (List.length file, None), mkCell file [] (next_oid c)) /\
  CellAdmin.abort_if_false false CellAdmin.drop c = None.
Proof.
  intros HF Hnd.
  assert (E : (CellAdmin.drop ;;; Cell.add file "_id") c
              = (Ok (List.length file, 0), mkCell file [] (next_oid c))).
  { unfold bind, CellAdmin.drop. rewrite add_by_id.
    assert (Hnew : forall l e,
               In l file -> In e (docs (mkCell [] [] (next_oid c))) ->
               field "_id" e <> field "_id" l)
      by (intros l e _ []).
    now rewrite (add_id_loop_new file (0, 0) (mkCell [] [] (next_oid c))
                   eq_refl HF Hnd Hnew). }
  split; [exact E|]. split; [|reflexivity].
  unfold bind in *. unfold CellAdmin.drop in *. rewrite E. reflexivity.
Qed.

Lemma drop_then_add_witness :
  (CellAdmin.drop ;;; Cell.add Sample.file_a_b "_id") Sample.cell_genbank
  = (Ok (2, 0), mkCell Sample.file_a_b [] 0).
Proof.
  apply (proj1 (drop_then_add Sample.file_a_b Sample.cell_genbank
                  ltac:(repeat constructor; discriminate)
                  ltac:(vm_compute; repeat constructor; simpl; intuition discriminate))).
Defined.

(** ** The digest and the snapshot file *)

(** X24. Writing a record to a snapshot and reading it back, which puts
    the keys of every mapping in sorted order, does not change its
    digest. *)
Theorem hash_dict_survives_json v :
  wf_value v -> hash_dict (sort_keys v) = hash_dict v.
Proof.
  intros H. unfold hash_dict. now rewrite (ordered_sort_keys v H).
Qed.

Lemma hash_dict_survives_json_witness :
  hash_dict (sort_keys (VDict [("b", VDict [("y", VNum 3); ("x", VNum 2)]);
                               ("a", VNum 1)]))
  = hash_dict (VDict [("b", VDict [("y", VNum 3); ("x", VNum 2)]); ("a", VNum 1)]).
Proof.
  apply hash_dict_survives_json.
  simpl. repeat split; repeat constructor; simpl; intuition discriminate.
Defined.

(** ** pull: a stored record with fields *)

(** X25. For a stored record that has a field besides [_id] and [md5],
    [pull] compares the [md5] of the line with the digest of the stored
    record: when they are equal the record is counted as unchanged and
    the cell is not touched; when they differ, and no index stands in
    the way, the line takes the place of the stored record, whole, and
    is counted as replaced. *)
Theorem pull_line_compares_digests l t c _id md5_new e :
  dict_get "_id" l = Some _id ->
  dict_get "md5" l = Some md5_new ->
  find (matches "_id" _id) (docs c) = Some e ->
  project_out ["_id"; "md5"] e <> [] ->
  (md5_new = VStr (pull_md5 e) ->
   Cell.pull_line l t c =
   (Ok (Cell.mkTally (S (Cell.nochange t)) (Cell.replaced t) (Cell.inserted t)), c)) /\
  (md5_new <> VStr (pull_md5 e) -> indexes c = [] ->
   Cell.pull_line l t c =
   (Ok (Cell.mkTally (Cell.nochange t) (S (Cell.replaced t)) (Cell.inserted t)),
    mkCell (replace_first "_id" _id l (docs c)) [] (next_oid c))).
Proof.
  intros Hid Hmd5 Hf Hp.
  rewrite (pull_line_found l t c _ _ e Hid Hmd5 Hf Hp). split.
  - intros ->. now rewrite value_eqb_refl.
  - intros Hne Hidx. rewrite (value_eqb_neq _ _ Hne).
    unfold bind, find_one_and_replace. rewrite Hf, Hidx. reflexivity.
Qed.

Lemma pull_line_compares_digests_witness :
  Cell.pull_line [("_id", VStr "a"); ("md5", VStr "0"); ("host", VStr "Avian")]
    (Cell.mkTally 0 0 0) Sample.cell_genbank
  = (Ok (Cell.mkTally 0 1 0),
     mkCell [[("_id", VStr "a"); ("md5", VStr "0"); ("host", VStr "Avian")]] [] 0).
Proof.
  assert (Hne : VStr "0" <> VStr (pull_md5 [("_id", VStr "a"); ("genbank", VStr "X")]))
    by (vm_compute; discriminate).
  exact (proj2 (pull_line_compares_digests
                  [("_id", VStr "a"); ("md5", VStr "0"); ("host", VStr "Avian")]
                  (Cell.mkTally 0 0 0) Sample.cell_genbank (VStr "a") (VStr "0")
                  [("_id", VStr "a"); ("genbank", VStr "X")]
                  eq_refl eq_refl eq_refl ltac:(discriminate))
               Hne eq_refl).
Defined.

(** ** add: recovery from duplicate keys *)
Lemma insert_one_length d c c' :
  insert_one d c = (Ok tt, c') -> List.length (docs c') = S (List.length (docs c)).
Proof.
  unfold insert_one.
  destruct (dict_has "_id" d); destruct (collides _ _ _); intros H;
    inversion H; subst; simpl; rewrite length_app; simpl; lia.
Qed.

Lemma insert_one_known_id line v e c :
  dict_get "_id" line = Some v -> In e (docs c) -> field "_id" e = v ->
  insert_one line c = (Raise DuplicateKeyError, c).
Proof.
  intros Hid Hin He. rewrite (insert_one_with_id _ _ _ Hid).
  assert (Hc : collides ("_id" :: indexes c) line (docs c) = true).
  { unfold collides. cbn [existsb]. apply orb_true_iff. left.
    apply existsb_exists. exists e. split; [exact Hin|].
    unfold matches. rewrite (field_id _ _ Hid), He. apply value_eqb_refl. }
  now rewrite Hc.
Qed.

Lemma add_id_loop_counts file :
  forall n c, exists ins dup c',
    for_each file Cell.add_line_id n c = (Ok (ins, dup), c') /\
    ins + dup = fst n + snd n + List.length file /\
    List.length (docs c') + fst n = List.length (docs c) + ins.
Proof.
  induction file as [|line file IH]; intros n c.
  - exists (fst n), (snd n), c. destruct n. simpl. repeat split; lia.
  - simpl. unfold bind.
    destruct (insert_one_cases line c) as [[c' H]|H].
    + rewrite (add_line_id_inserted _ n _ _ H).
      destruct (IH (S (fst n), snd n) c') as [ins [dup [c'' [E [Hs Hl]]]]].
      exists ins, dup, c''. split; [exact E|].
      apply insert_one_length in H. simpl in Hs, Hl. split; lia.
    + rewrite (add_line_id_duplicate _ n _ H).
      destruct (IH (fst n, S (snd n)) c) as [ins [dup [c'' [E [Hs Hl]]]]].
      exists ins, dup, c''. split; [exact E|]. simpl in Hs, Hl. split; lia.
Qed.

(** The counters the loop starts from are carried along. *)
Lemma add_id_loop_shift file :
  forall a b c,
    for_each file Cell.add_line_id (a, b) c =
    match for_each file Cell.add_line_id (0, 0) c with
    | (Ok (i, d), c') => (Ok (a + i, b + d), c')
    | (Raise e, c') => (Raise e, c')
    end.
Proof.
  induction file as [|line file IH]; intros a b c.
  - simpl. unfold ret. now rewrite !Nat.add_0_r.
  - simpl. unfold bind.
    destruct (insert_one_cases line c) as [[c' H]|H].
    + rewrite (add_line_id_inserted _ (a, b) _ _ H),
              (add_line_id_inserted _ (0, 0) _ _ H).
      cbn [fst snd]. rewrite (IH (S a) b c'), (IH 1 0 c').
      destruct (for_each file Cell.add_line_id (0, 0) c') as [[[i d]|e] c''];
        [|reflexivity].
      do 3 f_equal; lia.
    + rewrite (add_line_id_duplicate _ (a, b) _ H),
              (add_line_id_duplicate _ (0, 0) _ H).
      cbn [fst snd]. rewrite (IH a (S b) c), (IH 0 1 c).
      destruct (for_each file Cell.add_line_id (0, 0) c) as [[[i d]|e] c''];
        [|reflexivity].
      do 3 f_equal; lia.
Qed.

(** [add] of a file, line by line: the lines before [line], the line,
    the lines after it. *)
Lemma add_id_split loaded line rest c i1 d1 c1 :
  Cell.add loaded "_id" c = (Ok (i1, d1), c1) ->
  Cell.add (loaded ++ line :: rest) "_id" c =
  (n <- Cell.add_line_id line (i1, d1) ;;
   for_each rest Cell.add_line_id n) c1.
Proof.
  rewrite !add_by_id. intros H. now rewrite for_each_app, H.
Qed.

(** C6. Recovery from duplicate keys.  [add] of [zoo/cli/cell.py] with
    the primary key [_id] never fails and counts every line once, as
    inserted or as a duplicate, the cell growing by the inserted ones.
    A line the store refuses as a duplicate, wherever it stands in the
    file, is skipped and counted: the cell is as the lines before it left
    it, and the lines after it are processed as they would be without it.
    A line the store accepts is inserted and counted as such.  A line
    whose [_id] is already in the cell is such a duplicate.  The [add] of
    [zoo/cli_cell.py] does not fail either, and stops loading at the
    first duplicate. *)
Theorem add_recovers_from_duplicate_ids :
  (forall file c, exists ins dup c',
      Cell.add file "_id" c = (Ok (ins, dup), c') /\
      ins + dup = List.length file /\
      List.length (docs c') = List.length (docs c) + ins) /\
  (forall loaded line rest c i1 d1 c1 i2 d2 c2,
      Cell.add loaded "_id" c = (Ok (i1, d1), c1) ->
      insert_one line c1 = (Raise DuplicateKeyError, c1) ->
      Cell.add rest "_id" c1 = (Ok (i2, d2), c2) ->
      Cell.add (loaded ++ line :: rest) "_id" c
      = (Ok (i1 + i2, S (d1 + d2)), c2)) /\
  (forall loaded line rest c i1 d1 c1 c1' i2 d2 c2,
      Cell.add loaded "_id" c = (Ok (i1, d1), c1) ->
      insert_one line c1 = (Ok tt, c1') ->
      Cell.add rest "_id" c1' = (Ok (i2, d2), c2) ->
      Cell.add (loaded ++ line :: rest) "_id" c
      = (Ok (S (i1 + i2), d1 + d2), c2)) /\
  (forall line v e c,
      dict_get "_id" line = Some v -> In e (docs c) -> field "_id" e = v ->
      insert_one line c = (Raise DuplicateKeyError, c)) /\
  (forall infile c, exists aborted c', CliCell.add infile c = (Ok aborted, c')) /\
  (forall loaded line rest infile c c1,
      CliCell.add_file loaded c = (Ok false, c1) ->
      insert_one line c1 = (Raise DuplicateKeyError, c1) ->
      CliCell.add ((loaded ++ line :: rest) :: infile) c = (Ok true, c1)).
Proof.
  split; [|split; [|split; [|split; [|split]]]].
  - intros file c. rewrite add_by_id.
    destruct (add_id_loop_counts file (0, 0) c) as [ins [dup [c' [E [Hs Hl]]]]].
    exists ins, dup, c'. split; [exact E|]. simpl in Hs, Hl. split; lia.
  - intros loaded line rest c i1 d1 c1 i2 d2 c2 Hl Hd Hr.
    rewrite (add_id_split loaded line rest c i1 d1 c1 Hl). unfold bind.
    rewrite (add_line_id_duplicate _ (i1, d1) _ Hd). cbn [fst snd].
    rewrite add_id_loop_shift. rewrite add_by_id in Hr. now rewrite Hr.
  - intros loaded line rest c i1 d1 c1 c1' i2 d2 c2 Hl Hi Hr.
    rewrite (add_id_split loaded line rest c i1 d1 c1 Hl). unfold bind.
    rewrite (add_line_id_inserted _ (i1, d1) _ _ Hi). cbn [fst snd].
    rewrite add_id_loop_shift. rewrite add_by_id in Hr. now rewrite Hr.
  - exact insert_one_known_id.
  - induction infile as [|i infile IH]; intros c; simpl.
    + now exists false, c.
    + unfold bind. destruct (cli_add_file_returns i c) as [[|] [c' H]]; rewrite H.
      * now exists true, c'.
      * apply IH.
  - intros loaded line rest infile c c1 Hl H. simpl. unfold bind.
    now rewrite (cli_add_file_stops loaded line rest c c1 Hl H).
Qed.

Lemma add_recovers_from_duplicate_ids_witness :
  Cell.add [[("_id", VStr "a")]; [("_id", VStr "b")]; [("_id", VStr "a")];
            [("_id", VStr "c")]] "_id" Sample.cell_a
  = (Ok (2, 2),
     mkCell [[("_id", VStr "a")]; [("_id", VStr "b")]; [("_id", VStr "c")]] [] 0) /\
  CliCell.add [Sample.file_a_b] Sample.cell_a = (Ok true, Sample.cell_a).
Proof.
  destruct add_recovers_from_duplicate_ids as [_ [H1 [_ [_ [_ H2]]]]].
  split.
  - apply (H1 [[("_id", VStr "a")]; [("_id", VStr "b")]] [("_id", VStr "a")]
              [[("_id", VStr "c")]] Sample.cell_a 1 1
              (mkCell [[("_id", VStr "a")]; [("_id", VStr "b")]] [] 0) 1 0);
      reflexivity.
  - apply (H2 [] [("_id", VStr "a")] [[("_id", VStr "b")]] [] Sample.cell_a);
      reflexivity.
Defined.

(** The claim as it stands fails on both commands: the [add] of
    [zoo/cli_cell.py] gives up at the duplicate ["a"] and never loads
    ["b"]; the [add] of [zoo/cli/cell.py] with another primary key lets
    the duplicate key error of the store through. *)
Lemma add_duplicate_not_recovered :
  CliCell.add [Sample.file_a_b] Sample.cell_a = (Ok true, Sample.cell_a) /\
  fst (Cell.add Sample.file_genbank "genbank" Sample.cell_genbank)
  = Raise DuplicateKeyError.
Proof. vm_compute. split; reflexivity. Qed.

(** ** add with another primary key: records without the key *)
Lemma add_line_key_known primkey d n c e :
  resolve primkey d = None ->
  find (matches primkey VNull) (docs c) = Some e -> e <> [] ->
  Cell.add_line_key primkey d n c = (Ok (fst n, S (snd n)), c).
Proof.
  intros Hres Hf Hne. unfold Cell.add_line_key, bind, find_one.
  rewrite (deep_get_unresolved _ _ Hres), Hf.
  destruct e; [contradiction|reflexivity].
Qed.

Lemma add_line_key_unknown primkey d n c :
  resolve primkey d = None ->
  (forall e, In e (docs c) -> field primkey e <> VNull) ->
  Cell.add_line_key primkey d n c = (insert_one d ;;; ret (S (fst n), snd n)) c.
Proof.
  intros Hres Hall. unfold Cell.add_line_key, bind at 1, find_one.
  rewrite (deep_get_unresolved _ _ Hres).
  assert (E : find (matches primkey VNull) (docs c) = None).
  { apply find_none_iff. intros e Hin. unfold matches.
    apply value_eqb_neq. now apply Hall. }
  now rewrite E.
Qed.

Lemma find_null_key primkey ds :
  (forall e, In e ds -> e <> []) ->
  (exists e, In e ds /\ field primkey e = VNull) ->
  exists e', find (matches primkey VNull) ds = Some e' /\ e' <> [].
Proof.
  intros Hne [e [Hin He]].
  destruct (find (matches primkey VNull) ds) as [e'|] eqn:E.
  - exists e'. split; [reflexivity|]. apply find_some in E. now apply Hne.
  - exfalso. rewrite find_none_iff in E. specialize (E e Hin).
    unfold matches in E. rewrite He in E. discriminate.
Qed.

Lemma add_key_loop_all_known primkey file :
  forall n c e,
    Forall (fun d => resolve primkey d = None) file ->
    find (matches primkey VNull) (docs c) = Some e -> e <> [] ->
    for_each file (Cell.add_line_key primkey) n c
    = (Ok (fst n, snd n + List.length file), c).
Proof.
  induction file as [|d file IH]; intros n c e HF Hf Hne.
  - simpl. unfold ret. destruct n. simpl. now rewrite Nat.add_0_r.
  - inversion HF as [|? ? Hd HF']; subst. simpl. unfold bind.
    rewrite (add_line_key_known primkey d n c e Hd Hf Hne).
    rewrite (IH _ c e HF' Hf Hne). cbn [fst snd].
    do 3 f_equal. lia.
Qed.

(** The indexes of the cell once [add] has seen to the one on the key. *)
Lemma add_key_prelude primkey file c :
  primkey <> "_id" ->
  has_duplicate (map (field primkey) (docs c)) = false ->
  Cell.add file primkey c =
  for_each file (Cell.add_line_key primkey) (0, 0)
    (mkCell (docs c)
       (if existsb (String.eqb primkey) ("_id_" :: indexes c) then indexes c
        else indexes c ++ [primkey])
       (next_oid c)).
Proof.
  intros Hk Hd. rewrite (add_by_key _ _ _ Hk). unfold bind.
  destruct (existsb (String.eqb primkey) ("_id_" :: indexes c)).
  - unfold ret at 1. now destruct c.
  - unfold create_index. now rewrite Hd.
Qed.

Lemma add_key_split primkey loaded d rest c i1 d1 c1 :
  primkey <> "_id" ->
  Cell.add loaded primkey c = (Ok (i1, d1), c1) ->
  Cell.add (loaded ++ d :: rest) primkey c =
  (n <- Cell.add_line_key primkey d (i1, d1) ;;
   for_each rest (Cell.add_line_key primkey) n) c1.
Proof.
  intros Hk. rewrite !(add_by_key _ _ _ Hk). intros H.
  unfold bind in H. unfold bind at 1.
  destruct ((if existsb (String.eqb primkey) ("_id_" :: indexes c) then ret tt
             else create_index primkey) c) as [[u|e] c0]; [|discriminate].
  now rewrite for_each_app, H.
Qed.

Lemma collides_unresolved_new primkey d v idx ds :
  resolve primkey d = None -> dict_get "_id" d = Some v ->
  (forall e, In e ds -> field primkey e <> VNull) ->
  (forall e, In e ds -> field "_id" e <> v) ->
  (forall k, In k idx -> k = primkey) ->
  collides ("_id" :: idx) d ds = false.
Proof.
  intros Hres Hid Hall Hfresh Hidx.
  destruct (collides ("_id" :: idx) d ds) eqn:E; [|reflexivity].
  exfalso. unfold collides in E. apply existsb_exists in E.
  destruct E as [k [Hk E]]. apply existsb_exists in E.
  destruct E as [e [Hin Hm]]. unfold matches in Hm. apply value_eqb_eq in Hm.
  destruct Hk as [<-|Hk].
  - rewrite (field_id _ _ Hid) in Hm. now apply (Hfresh e).
  - apply Hidx in Hk. subst k. unfold field at 2 in Hm. rewrite Hres in Hm.
    now apply (Hall e).
Qed.

(** C8. A record on which the primary key path does not resolve is looked
    up with a null key, which the store matches with every record whose
    key is null or missing.  At any line of any file: when the cell, as
    the lines before left it, holds such a record, the line is counted as
    a duplicate and not inserted; when it holds none, the line is handed
    to [insert_one], and [add] goes on with the line inserted or fails
    with the error of the store.  So a file of such records added to a
    cell that holds a record without the key is all duplicates; and
    added to a cell that holds none, with no unique index but the one on
    the key and the [_id] of the first line new, its first line is
    inserted and the others are duplicates of it. *)
Theorem add_unresolved_primkey primkey :
  primkey <> "_id" ->
  (forall loaded d rest c i1 d1 c1,
     Cell.add loaded primkey c = (Ok (i1, d1), c1) ->
     resolve primkey d = None ->
     (forall e, In e (docs c1) -> e <> []) ->
     (exists e, In e (docs c1) /\ field primkey e = VNull) ->
     Cell.add (loaded ++ d :: rest) primkey c =
     for_each rest (Cell.add_line_key primkey) (i1, S d1) c1) /\
  (forall loaded d rest c i1 d1 c1,
     Cell.add loaded primkey c = (Ok (i1, d1), c1) ->
     resolve primkey d = None ->
     (forall e, In e (docs c1) -> field primkey e <> VNull) ->
     (forall c1', insert_one d c1 = (Ok tt, c1') ->
        Cell.add (loaded ++ d :: rest) primkey c =
        for_each rest (Cell.add_line_key primkey) (S i1, d1) c1') /\
     (forall e c1', insert_one d c1 = (Raise e, c1') ->
        Cell.add (loaded ++ d :: rest) primkey c = (Raise e, c1'))) /\
  (forall file c,
     Forall (fun d => resolve primkey d = None) file ->
     (forall e, In e (docs c) -> e <> []) ->
     has_duplicate (map (field primkey) (docs c)) = false ->
     (exists e, In e (docs c) /\ field primkey e = VNull) ->
     Cell.add file primkey c =
     (Ok (0, List.length file),
      mkCell (docs c)
        (if existsb (String.eqb primkey) ("_id_" :: indexes c) then indexes c
         else indexes c ++ [primkey])
        (next_oid c))) /\
  (forall d rest c v,
     Forall (fun d => resolve primkey d = None) (d :: rest) ->
     (forall e, In e (docs c) -> field primkey e <> VNull) ->
     has_duplicate (map (field primkey) (docs c)) = false ->
     dict_get "_id" d = Some v ->
     (forall e, In e (docs c) -> field "_id" e <> v) ->
     (forall k, In k (indexes c) -> k = primkey) ->
     Cell.add (d :: rest) primkey c =
     (Ok (1, List.length rest),
      mkCell (docs c ++ [d])
        (if existsb (String.eqb primkey) ("_id_" :: indexes c) then indexes c
         else indexes c ++ [primkey])
        (next_oid c))).
Proof.
  intros Hk. split; [|split; [|split]].
  - intros loaded d rest c i1 d1 c1 Hl Hres Hne Hex.
    rewrite (add_key_split primkey loaded d rest c i1 d1 c1 Hk Hl). unfold bind.
    destruct (find_null_key primkey (docs c1) Hne Hex) as [e' [Hf He']].
    now rewrite (add_line_key_known primkey d (i1, d1) c1 e' Hres Hf He').
  - intros loaded d rest c i1 d1 c1 Hl Hres Hall.
    rewrite (add_key_split primkey loaded d rest c i1 d1 c1 Hk Hl). unfold bind.
    rewrite (add_line_key_unknown primkey d (i1, d1) c1 Hres Hall). unfold bind.
    split.
    + intros c1' Hi. now rewrite Hi.
    + intros e c1' Hi. now rewrite Hi.
  - intros file c HF Hne Hd Hex.
    rewrite (add_key_prelude primkey file c Hk Hd).
    destruct (find_null_key primkey (docs c) Hne Hex) as [e' [Hf He']].
    now rewrite (add_key_loop_all_known primkey file (0, 0)
                   (mkCell (docs c)
                      (if existsb (String.eqb primkey) ("_id_" :: indexes c)
                       then indexes c else indexes c ++ [primkey])
                      (next_oid c)) e' HF Hf He').
  - intros d rest c v HF Hall Hd Hid Hfresh Hidx.
    inversion HF as [|? ? Hres HF']; subst.
    rewrite (add_key_prelude primkey (d :: rest) c Hk Hd).
    set (idx := if existsb (String.eqb primkey) ("_id_" :: indexes c)
                then indexes c else indexes c ++ [primkey]).
    assert (Hidx' : forall k, In k idx -> k = primkey).
    { intros k Hin. unfold idx in Hin.
      destruct (existsb (String.eqb primkey) ("_id_" :: indexes c)).
      - now apply Hidx.
      - apply in_app_or in Hin. destruct Hin as [Hin|[<-|[]]];
          [now apply Hidx|reflexivity]. }
    cbn [for_each]. unfold bind at 1.
    rewrite (add_line_key_unknown primkey d (0, 0)
               (mkCell (docs c) idx (next_oid c)) Hres Hall). unfold bind at 1.
    rewrite (insert_one_with_id _ _ _ Hid). cbn [docs indexes next_oid].
    rewrite (collides_unresolved_new primkey d v idx (docs c) Hres Hid Hall Hfresh Hidx').
    unfold ret at 1. cbn [fst snd].
    assert (Hf : find (matches primkey VNull) (docs c ++ [d]) = Some d).
    { apply find_app_new.
      - apply find_none_iff. intros e Hin. unfold matches.
        apply value_eqb_neq. now apply Hall.
      - unfold matches, field. rewrite Hres. reflexivity. }
    assert (Hne : d <> []) by (intros ->; discriminate).
    now rewrite (add_key_loop_all_known primkey rest (1, 0)
                   (mkCell (docs c ++ [d]) idx (next_oid c)) d HF' Hf Hne).
Qed.

Lemma add_unresolved_primkey_witness :
  Cell.add [[("_id", VStr "r"); ("host", VStr "Avian")];
            [("_id", VStr "s"); ("host", VStr "Human")];
            [("_id", VStr "t"); ("genbank", VStr "Z")]] "genbank.a"
    (mkCell [[("_id", VStr "q"); ("genbank", VDict [("a", VStr "X")])]] [] 0)
  = (Ok (1, 2),
     mkCell [[("_id", VStr "q"); ("genbank", VDict [("a", VStr "X")])];
             [("_id", VStr "r"); ("host", VStr "Avian")]] ["genbank.a"] 0).
Proof.
  refine (proj2 (proj2 (proj2 (add_unresolved_primkey "genbank.a" _)))
            [("_id", VStr "r"); ("host", VStr "Avian")]
            [[("_id", VStr "s"); ("host", VStr "Human")];
             [("_id", VStr "t"); ("genbank", VStr "Z")]]
            (mkCell [[("_id", VStr "q"); ("genbank", VDict [("a", VStr "X")])]] [] 0)
            (VStr "r") _ _ _ _ _ _).
  - discriminate.
  - repeat constructor.
  - intros e [<-|[]]. discriminate.
  - reflexivity.
  - reflexivity.
  - intros e [<-|[]]. discriminate.
  - intros k [].
Defined.

(** Of two records without the key, [add] inserts the first and counts
    the second as a duplicate of it. *)
Lemma add_unresolved_primkey_counted_duplicate :
  Cell.add Sample.file_no_key "genbank.a" Sample.empty_cell
  = (Ok (1, 1),
     mkCell [[("_id", VStr "r"); ("host", VStr "Avian")]] ["genbank.a"] 0).
Proof. vm_compute. reflexivity. Qed.

(** With another unique index in the way, here one on [host], the record
    without the key is refused by the store although its [_id] is new,
    and [add] fails. *)
Example add_unresolved_primkey_other_index :
  Cell.add [[("_id", VStr "s"); ("host", VStr "Avian")]] "genbank.a"
    (mkCell [[("_id", VStr "q"); ("host", VStr "Avian");
              ("genbank", VDict [("a", VStr "X")])]] ["host"] 0)
  = (Raise DuplicateKeyError,
     mkCell [[("_id", VStr "q"); ("host", VStr "Avian");
              ("genbank", VDict [("a", VStr "X")])]] ["host"; "genbank.a"] 0).
Proof. vm_compute. reflexivity. Qed.

(** ** commit: records without a sequence *)
Lemma add_sequences_string dk d c s :
  dict_get "sequence" d = Some (VStr s) ->
  exists dk', Cell.add_sequences dk d c = (Ok dk', c) /\
              List.length dk' = List.length dk.
Proof.
  intros Hs. induction dk as [|[k v] dk IH]; simpl.
  - now exists [].
  - destruct IH as [dk' [E Hl]]. unfold bind, getitem. rewrite Hs.
    unfold ret at 1. unfold add_sequence. unfold ret at 1. rewrite E.
    eexists. split; [reflexivity|]. simpl. now rewrite Hl.
Qed.

Lemma add_sequences_errors dk d c e c' :
  Cell.add_sequences dk d c = (Raise e, c') ->
  e = KeyError "sequence" \/ e = TypeError.
Proof.
  revert e c'. induction dk as [|[k v] dk IH]; simpl; intros e c' H;
    [discriminate|].
  unfold bind, getitem in H.
  destruct (dict_get "sequence" d) as [s|]; [|inversion H; now left].
  unfold ret at 1 in H. unfold add_sequence in H.
  destruct s; try (inversion H; now right). unfold ret at 1 in H.
  destruct (Cell.add_sequences dk d c) as [[dk'|e'] c''] eqn:El; [discriminate|].
  inversion H; subst. eauto.
Qed.

(** A record [commit] writes and folds into the estimators. *)
Lemma commit_doc_goes_through d acc c :
  dict_get "_id" d <> None -> has_oid (VDict d) = false ->
  (exists s, dict_get "sequence" d = Some (VStr s)) ->
  exists acc', Cell.commit_doc d acc c = (Ok acc', c) /\
               List.length (snd acc') = List.length (snd acc).
Proof.
  intros Hid Ho [s Hs].
  destruct (dict_get "_id" d) as [_id|] eqn:Eid; [|contradiction].
  unfold Cell.commit_doc, bind, getitem. rewrite Eid. unfold ret at 1.
  unfold Cell.json_dumps. rewrite (has_oid_commit_fields _ _ _ Eid Ho).
  unfold ret at 1.
  set (d4 := dict_set "_id" _id _).
  assert (Hs4 : dict_get "sequence" d4 = Some (VStr s)).
  { unfold d4. rewrite dict_get_commit_fields; [exact Hs| |]; discriminate. }
  destruct (add_sequences_string (snd acc) d4 c s Hs4) as [dk' [E Hl]].
  rewrite E. eexists. split; [reflexivity|exact Hl].
Qed.

Lemma commit_loop_goes_through good :
  forall acc c,
    Forall (fun g => dict_get "_id" g <> None /\ has_oid (VDict g) = false /\
                     exists s, dict_get "sequence" g = Some (VStr s)) good ->
    exists acc', for_each good Cell.commit_doc acc c = (Ok acc', c) /\
                 List.length (snd acc') = List.length (snd acc).
Proof.
  induction good as [|g good IH]; intros acc c HF.
  - now exists acc.
  - inversion HF as [|? ? [Hid [Ho Hs]] HF']; subst. simpl. unfold bind.
    destruct (commit_doc_goes_through g acc c Hid Ho Hs) as [acc1 [E Hl]].
    rewrite E. destruct (IH acc1 c HF') as [acc' [E' Hl']].
    exists acc'. split; [exact E'|congruence].
Qed.

Lemma commit_doc_errors d acc c e c' :
  Cell.commit_doc d acc c = (Raise e, c') ->
  e = KeyError "sequence" \/ e = TypeError \/ e = KeyError "_id".
Proof.
  unfold Cell.commit_doc, bind, getitem.
  destruct (dict_get "_id" d) as [_id|]; [|intros H; inversion H; auto].
  unfold ret at 1. unfold Cell.json_dumps.
  set (d4 := dict_set "_id" _id _).
  destruct (has_oid (VDict d4)); [intros H; inversion H; auto|].
  unfold ret at 1.
  destruct (Cell.add_sequences (snd acc) d4 c) as [[dk'|e'] c''] eqn:Es;
    [discriminate|].
  intros H. inversion H; subst.
  destruct (add_sequences_errors _ _ _ _ _ Es); auto.
Qed.

Lemma commit_loop_errors ds :
  forall acc c e c',
    for_each ds Cell.commit_doc acc c = (Raise e, c') ->
    e = KeyError "sequence" \/ e = TypeError \/ e = KeyError "_id".
Proof.
  induction ds as [|d ds IH]; intros acc c e c' H; [discriminate|].
  simpl in H. unfold bind in H.
  destruct (Cell.commit_doc d acc c) as [[acc1|e1] c1] eqn:E.
  - eapply IH; eauto.
  - inversion H; subst. eapply commit_doc_errors; eauto.
Qed.

(** C10. [commit] never succeeds on a cell that holds a record without a
    [sequence] field: it raises and leaves the cell as it is, so it
    succeeds only when every stored record has a sequence, a string.
    The error is the one of the first record that does not go through:
    the key lookup error on [sequence] when that record can be written
    and has no sequence, and the type error of [json.dumps], which comes
    before the sequence is looked up, when its [_id] is an ObjectId of
    the store, whether it has a sequence or not. *)
Theorem commit_requires_sequence k ks n c :
  (forall d, In d (docs c) -> dict_get "sequence" d = None ->
     exists e, Cell.commit (k :: ks) n c = (Raise e, c) /\
               (e = KeyError "sequence" \/ e = TypeError \/ e = KeyError "_id")) /\
  (forall out c', Cell.commit (k :: ks) n c = (Ok out, c') ->
     Forall (fun d => exists s, dict_get "sequence" d = Some (VStr s)) (docs c)) /\
  (forall good d rest,
     docs c = good ++ d :: rest ->
     Forall (fun g => dict_get "_id" g <> None /\ has_oid (VDict g) = false /\
                      exists s, dict_get "sequence" g = Some (VStr s)) good ->
     (dict_get "_id" d <> None -> has_oid (VDict d) = false ->
      dict_get "sequence" d = None ->
      Cell.commit (k :: ks) n c = (Raise (KeyError "sequence"), c)) /\
     (forall m, dict_get "_id" d = Some (VOid m) ->
      Cell.commit (k :: ks) n c = (Raise TypeError, c))).
Proof.
  assert (Hok : forall out c',
             Cell.commit (k :: ks) n c = (Ok out, c') ->
             Forall (fun d => exists s, dict_get "sequence" d = Some (VStr s))
                    (docs c)).
  { intros out c' H. unfold Cell.commit, bind, find_all in H.
    apply commit_loop_ok in H; [|apply estimators_cons_nonempty]. tauto. }
  split; [|split].
  - intros d Hin Hs.
    pose proof (commit_read_only (k :: ks) n c) as Hro.
    destruct (Cell.commit (k :: ks) n c) as [[out|e] c'] eqn:E; simpl in Hro; subst c'.
    + exfalso. pose proof (Hok _ _ eq_refl) as F.
      rewrite Forall_forall in F. destruct (F d Hin) as [s Hs']. congruence.
    + exists e. split; [reflexivity|].
      unfold Cell.commit, bind, find_all in E. eapply commit_loop_errors; eauto.
  - exact Hok.
  - intros good d rest Hdocs Hgood.
    destruct (commit_loop_goes_through good ([], estimators (k :: ks) n []) c Hgood)
      as [acc' [Eg Hl]].
    assert (Hne : snd acc' <> []).
    { intros E0. rewrite E0 in Hl. cbn [snd] in Hl.
      apply (estimators_cons_nonempty k ks n).
      destruct (estimators (k :: ks) n []); [reflexivity|discriminate Hl]. }
    split.
    + intros Hid Ho Hs.
      unfold Cell.commit, bind, find_all. rewrite Hdocs, for_each_app, Eg.
      simpl. unfold bind.
      destruct (dict_get "_id" d) as [_id|] eqn:Eid; [|contradiction].
      now rewrite (commit_doc_missing_sequence d acc' c _id Eid Ho Hne Hs).
    + intros m Hid.
      unfold Cell.commit, bind, find_all. rewrite Hdocs, for_each_app, Eg.
      simpl. unfold bind.
      now rewrite (commit_doc_object_id d acc' c m Hid).
Qed.

Lemma commit_requires_sequence_witness :
  let good := [("_id", VStr "a"); ("sequence", VStr "ACGT")] in
  let bad := [("_id", VStr "b"); ("host", VStr "Avian")] in
  let c := mkCell [good; bad; good] [] 0 in
  Cell.commit [16%Z; 31%Z] 1000 c = (Raise (KeyError "sequence"), c).
Proof.
  intros good bad c.
  destruct (commit_requires_sequence 16 [31%Z] 1000 c) as [_ [_ H]].
  destruct (H [good] bad [good]) as [H1 _].
  - reflexivity.
  - constructor; [|constructor].
    split; [discriminate|]. split; [reflexivity|]. now exists "ACGT".
  - apply H1; [discriminate|reflexivity|reflexivity].
Defined.

(** The claim as it stands fails on a record that has no sequence and an
    ObjectId for [_id], as [add] leaves a line without [_id]: [commit]
    raises the type error of [json.dumps], not a key lookup error. *)
Lemma commit_object_id_without_sequence :
  let c := snd (Cell.add [[("host", VStr "Avian")]] "_id" Sample.empty_cell) in
  Forall (fun d => dict_get "sequence" d = None) (docs c) /\
  docs c <> [] /\
  Cell.commit [16%Z; 31%Z] 1000 c = (Raise TypeError, c).
Proof.
  vm_compute. split; [|split].
  - repeat constructor.
  - discriminate.
  - reflexivity.
Qed.
